(** * A software rasteriser: shallow embedding and checked properties

    The development embeds the two revisions of the rasteriser that the
    repository holds:

    - [pipeline.cpp], the character renderer ([std::size_t] coordinates,
      the depth-tested accessor returns a raw pointer, every pixel of the
      grid is scanned);
    - the colour renderer ([int] coordinates, the depth-tested accessor
      returns an optional reference, the scan is limited by
      [bounding_box]).

    Both share the vector and matrix primitives, the projection builder,
    the edge-function containment test and the plane-equation depth.

    Scalars: the C++ type [float] is IEEE-754 binary32 and [double] is
    binary64; both are modelled with the executable specification of
    [SpecFloat] (round to nearest, ties to even, a single NaN).  Every
    arithmetic expression is evaluated in the type C++ gives it, so an
    [int] operand of a [float] operator is first converted to [float].

    Integers: [int] is a 32-bit signed integer whose overflow is undefined
    behaviour; [std::size_t] is a 64-bit unsigned integer that wraps.

    Assertions are modelled as enabled ([NDEBUG] is not defined).

    Names: the overloads of [screen::at] are [at_const] ([at(x, y) const]),
    [at_ref] ([at(x, y)]) and [at_depth] ([at(x, y, d)]). *)

From Stdlib Require Import ZArith Bool Lia.
From Stdlib Require Import Floats.SpecFloat.
From stdpp Require Import base list.

Local Open Scope Z_scope.

(** ** Scalars *)

(** [float]: binary32, 24 bits of precision, exponent bound 128. *)
Module F32.
Definition prec : Z := 24.
Definition emax : Z := 128.

Definition t : Type := spec_float.

Definition zero : t := S754_zero false.
Definition nan : t := S754_nan.

Definition add : t -> t -> t := SFadd prec emax.
Definition sub : t -> t -> t := SFsub prec emax.
Definition mul : t -> t -> t := SFmul prec emax.
Definition div : t -> t -> t := SFdiv prec emax.
Definition opp : t -> t := SFopp.

(** The relational operators; every comparison with a NaN is false. *)
Definition ltb : t -> t -> bool := SFltb.
Definition leb : t -> t -> bool := SFleb.
Definition geb (a b : t) : bool :=
  match SFcompare a b with
  | Some (Gt | Eq) => true
  | _ => false
  end.
Definition gtb (a b : t) : bool :=
  match SFcompare a b with
  | Some Gt => true
  | _ => false
  end.

(** The value [m * 2^e] rounded to binary32. *)
Definition of_scaled (m e : Z) : t := binary_normalize prec emax m e false.

(** Conversion of an integer value ([int] or [std::size_t] to [float]). *)
Definition of_int (z : Z) : t := of_scaled z 0.

Definition is_nan (a : t) : bool :=
  match a with S754_nan => true | _ => false end.

(** Finite values, zeros included. *)
Definition is_finite (a : t) : bool :=
  match a with S754_zero _ | S754_finite _ _ _ => true | _ => false end.

Definition is_zero (a : t) : bool :=
  match a with S754_zero _ => true | _ => false end.
End F32.

(** [double]: binary64, used by [to_cartesian] only. *)
Module F64.
Definition prec : Z := 53.
Definition emax : Z := 1024.

Definition t : Type := spec_float.

Definition sub : t -> t -> t := SFsub prec emax.
Definition mul : t -> t -> t := SFmul prec emax.
Definition div : t -> t -> t := SFdiv prec emax.

Definition of_int (z : Z) : t := binary_normalize prec emax z 0 false.

(** The conversion [double] to [float] of a [return] statement: one
    rounding of the exact value. *)
Definition to_f32 (a : t) : F32.t :=
  match a with
  | S754_finite s m e =>
      binary_normalize F32.prec F32.emax (cond_Zopp s (Zpos m)) e s
  | _ => a
  end.
End F64.

Declare Scope f32_scope.
Delimit Scope f32_scope with f32.
Bind Scope f32_scope with F32.t.
Infix "+" := F32.add : f32_scope.
Infix "-" := F32.sub : f32_scope.
Infix "*" := F32.mul : f32_scope.
Infix "/" := F32.div : f32_scope.
Notation "- a" := (F32.opp a) : f32_scope.
Infix "<?" := F32.ltb : f32_scope.
Infix "<=?" := F32.leb : f32_scope.
Infix ">=?" := F32.geb : f32_scope.
Infix ">?" := F32.gtb : f32_scope.
(** An integer literal of the source converted to [float]. *)
Notation "'#' z" := (F32.of_int z) (at level 1, format "'#' z") : f32_scope.

(** ** Integers *)

Definition INT_MIN : Z := - 2 ^ 31.
Definition INT_MAX : Z := 2 ^ 31 - 1.
Definition SIZE_MOD : Z := 2 ^ 64.

Definition in_int (z : Z) : bool := (INT_MIN <=? z) && (z <=? INT_MAX).

(** [std::size_t] arithmetic wraps. *)
Definition size_add (a b : Z) : Z := (a + b) mod SIZE_MOD.
Definition size_mul (a b : Z) : Z := (a * b) mod SIZE_MOD.

(** ** Outcomes of a call

    A call returns, stops on a failed [assert], or has undefined
    behaviour (signed overflow, an index outside a [std::array], a
    conversion of an unrepresentable [float] to [int]). *)
Inductive outcome (A : Type) : Type :=
| Ret (a : A)
| AssertFail
| Undefined.
Arguments Ret {A} a.
Arguments AssertFail {A}.
Arguments Undefined {A}.

Definition bind {A B : Type} (m : outcome A) (k : A -> outcome B) : outcome B :=
  match m with
  | Ret a => k a
  | AssertFail => AssertFail
  | Undefined => Undefined
  end.

Notation "'let!' x ':=' m 'in' k" := (bind m (fun x => k))
  (at level 10, x name, m at level 100, k at level 200).

(** [assert(c)]. *)
Definition assert (c : bool) : outcome unit :=
  if c then Ret tt else AssertFail.

(** [int] arithmetic: overflow is undefined behaviour. *)
Definition int_result (z : Z) : outcome Z :=
  if in_int z then Ret z else Undefined.
Definition int_add (a b : Z) : outcome Z := int_result (a + b).
Definition int_mul (a b : Z) : outcome Z := int_result (a * b).

(** [a[i]] on a [std::array]: the index is converted to [size_type], so a
    negative [int] becomes a huge index; an index outside the array is
    undefined behaviour. *)
Definition array_get {A : Type} (a : list A) (i : Z) : outcome A :=
  if i <? 0 then Undefined
  else match a !! Z.to_nat i with
       | Some v => Ret v
       | None => Undefined
       end.

(** [a[i] = v]. *)
Definition array_set {A : Type} (a : list A) (i : Z) (v : A) : outcome (list A) :=
  let! _old := array_get a i in
  Ret (<[Z.to_nat i := v]> a).

(** ** Vector and matrix primitives *)

Record vec3 : Type := Vec3 { x3 : F32.t; y3 : F32.t; z3 : F32.t }.

(** The fields [x], [y], [z], [w] of the source carry a [v] prefix here, so
    that they do not clash with the coordinate parameters [x] and [y]. *)
Record vec4 : Type := Vec4 { vx : F32.t; vy : F32.t; vz : F32.t; vw : F32.t }.

(** [vec4(vec3 v, float w)]. *)
Definition vec4_of (v : vec3) (w0 : F32.t) : vec4 :=
  Vec4 (x3 v) (y3 v) (z3 v) w0.

(** [vec4::normalize]: the four compound divisions run in order, so the
    first three see the original [w] and the last one divides [w] by
    itself. *)
Definition normalize (v : vec4) : vec4 :=
  let x1 := (vx v / vw v)%f32 in
  let y1 := (vy v / vw v)%f32 in
  let z1 := (vz v / vw v)%f32 in
  let w1 := (vw v / vw v)%f32 in
  Vec4 x1 y1 z1 w1.

(** [mat4]: sixteen floats in row-major order. *)
Definition mat4 : Type := list F32.t.

(** [m[i]] for a constant index of the source. *)
Definition mat_at (m : mat4) (i : nat) : F32.t := nth i m F32.zero.
Notation "m .[ i ]" := (mat_at m i) (at level 1, format "m .[ i ]").

Definition two : F32.t := F32.of_int 2.
Definition one : F32.t := F32.of_int 1.

Definition get_projection (l r t b n f : F32.t) : mat4 :=
  [ (two * n / (r - l))%f32; #0%f32; ((l + r) / (l - r))%f32; #0%f32;
    #0%f32; (two * n / (b - t))%f32; ((t + b) / (t - b))%f32; #0%f32;
    #0%f32; #0%f32; ((f + n) / (f - n))%f32; (two * n * f / (n - f))%f32;
    #0%f32; #0%f32; one; #0%f32 ].

Definition mat4_mul_vec4 (m : mat4) (v : vec4) : vec4 :=
  Vec4
    (m.[0 * 4 + 0] * vx v + m.[0 * 4 + 1] * vy v + m.[0 * 4 + 2] * vz v + m.[0 * 4 + 3] * vw v)%f32
    (m.[1 * 4 + 0] * vx v + m.[1 * 4 + 1] * vy v + m.[1 * 4 + 2] * vz v + m.[1 * 4 + 3] * vw v)%f32
    (m.[2 * 4 + 0] * vx v + m.[2 * 4 + 1] * vy v + m.[2 * 4 + 2] * vz v + m.[2 * 4 + 3] * vw v)%f32
    (m.[3 * 4 + 0] * vx v + m.[3 * 4 + 1] * vy v + m.[3 * 4 + 2] * vz v + m.[3 * 4 + 3] * vw v)%f32.

(** [get_z_component]: the depth at [(x, y)] of the plane through the
    three projected vertices. *)
Definition get_z_component (a b c : vec4) (x y : F32.t) : F32.t :=
  let x_p := ((vy b - vy a) * (vz c - vz a) - (vy c - vy a) * (vz b - vz a))%f32 in
  let y_p := ((vz b - vz a) * (vx c - vx a) - (vz c - vz a) * (vx b - vx a))%f32 in
  let z_p := ((vx b - vx a) * (vy c - vy a) - (vx c - vx a) * (vy b - vy a))%f32 in
  let w_p := (- (x_p * vx a + y_p * vy a + z_p * vz a))%f32 in
  ((- x_p * x - y_p * y - w_p) / z_p)%f32.

(** [std::min] and [std::max] on an initializer list: the leftmost
    smallest (greatest) element, found with [operator<] only. *)
Definition min_il (first : F32.t) (rest : list F32.t) : F32.t :=
  fold_left (fun best e => if (e <? best)%f32 then e else best) rest first.

Definition max_il (first : F32.t) (rest : list F32.t) : F32.t :=
  fold_left (fun best e => if (best <? e)%f32 then e else best) rest first.

(** Conversion [float] to [int]: truncation towards zero, undefined when
    the truncated value is not representable (NaN and infinities
    included). *)
Definition f32_to_int (a : F32.t) : outcome Z :=
  match a with
  | S754_zero _ => Ret 0
  | S754_finite s m e =>
      let mag := if 0 <=? e then Zpos m * 2 ^ e else Zpos m / 2 ^ (- e) in
      int_result (cond_Zopp s mag)
  | _ => Undefined
  end.

(** ** Loops

    [iterate n step s] runs [step] from [s] until it answers [inr], at
    most [n] times; the bound is binary, so a bound that covers every
    value of an [int] counter costs nothing. *)
Fixpoint iterate {St R : Type} (n : positive) (step : St -> outcome (St + R))
    (s : St) : outcome (St + R) :=
  match n with
  | xH => step s
  | xO p =>
      let! r := iterate p step s in
      match r with
      | inl s1 => iterate p step s1
      | inr _ => Ret r
      end
  | xI p =>
      let! r := step s in
      match r with
      | inl s1 =>
          let! r1 := iterate p step s1 in
          match r1 with
          | inl s2 => iterate p step s2
          | inr _ => Ret r1
          end
      | inr _ => Ret r
      end
  end.

(** [for (int i = lo; i < hi; i++) body(i)] with a [float] bound: the
    counter is converted to [float] for the comparison, and [i++] is
    undefined at [INT_MAX].  The counter takes each [int] value at most
    once, so [2^32] rounds always reach the exit or the overflow. *)
Definition for_int {St : Type} (lo : Z) (hi : F32.t)
    (body : Z -> St -> outcome St) (s : St) : outcome St :=
  let step (st : Z * St) : outcome (Z * St + St) :=
    let '(i, s0) := st in
    if (#i <? hi)%f32 then
      let! s1 := body i s0 in
      let! i1 := int_add i 1 in
      Ret (inl (i1, s1))
    else Ret (inr s0) in
  let! r := iterate (2 ^ 32)%positive step (lo, s) in
  match r with
  | inl _ => Undefined
  | inr s1 => Ret s1
  end.

(** [for (std::size_t i = 0; i < n; i++) body(i)]: the counter wraps, but
    it reaches [n < 2^64] first, so [2^64] rounds always reach the exit. *)
Definition size_step {St : Type} (n : Z) (body : Z -> St -> outcome St)
    (st : Z * St) : outcome (Z * St + St) :=
  let '(i, s0) := st in
  if i <? n then
    let! s1 := body i s0 in
    Ret (inl (size_add i 1, s1))
  else Ret (inr s0).

Definition for_size {St : Type} (n : Z) (body : Z -> St -> outcome St)
    (s : St) : outcome St :=
  let! r := iterate (2 ^ 64)%positive (size_step n body) (0, s) in
  match r with
  | inl _ => Undefined
  | inr s1 => Ret s1
  end.

(** Conversion [float] to [char]: truncation towards zero, undefined when
    the truncated value is outside [CHAR_MIN .. CHAR_MAX]; whether [char]
    is signed is the implementation's choice, so the two limits are
    arguments. *)
Definition f32_to_char (char_min char_max : Z) (a : F32.t) : outcome Z :=
  match a with
  | S754_zero _ => if (char_min <=? 0) && (0 <=? char_max) then Ret 0 else Undefined
  | S754_finite s m e =>
      let mag := if 0 <=? e then Zpos m * 2 ^ e else Zpos m / 2 ^ (- e) in
      let v := cond_Zopp s mag in
      if (char_min <=? v) && (v <=? char_max) then Ret v else Undefined
  | _ => Undefined
  end.

(** [std::putc(c, stdout)] writes [c] converted to [unsigned char]. *)
Definition putc (c : Z) (out : list Z) : list Z := out ++ [c mod 256].

(** ** The character renderer, [pipeline.cpp] *)
Module Pipeline.

(** The three edge tests are combined with the bitwise [&] on [bool]. *)
Definition edge (a b : vec4) (x y : F32.t) : bool :=
  ((x - vx a) * (vy b - vy a) - (y - vy a) * (vx b - vx a) >=? #0)%f32.

Definition inside_triangle (a b c : vec4) (x y : F32.t) : bool :=
  edge b a x y && edge c b x y && edge a c x y.

(** [screen<W, H>] with [char] cells; [w] and [h] are [std::size_t]. *)
Record screen : Type := Screen {
  buf : list Z;
  depth : list F32.t;
  w : Z;
  h : Z
}.

Definition dot : Z := 46.

(** The constructor: every cell ['.'], every depth [0]. *)
Definition mk_screen (W H : Z) : screen :=
  Screen (replicate (Z.to_nat (W * H)) dot)
         (replicate (Z.to_nat (W * H)) #0%f32) W H.

(** [char_type& at(x, y)]: the handle is the index of the cell. *)
Definition at_ref (x y : Z) (s : screen) : outcome nat :=
  let i := size_add (size_mul y (w s)) x in
  let! _ok := assert (i <? size_mul (w s) (h s)) in
  let! _cell := array_get (buf s) i in
  Ret (Z.to_nat i).

(** [char_type* at(x, y, d)]: [None] is the null pointer. *)
Definition at_depth (x y : Z) (d : F32.t) (s : screen)
  : outcome (screen * option nat) :=
  let i := size_add (size_mul y (w s)) x in
  let! _ok := assert (i <? size_mul (w s) (h s)) in
  let! stored := array_get (depth s) i in
  if (stored + #1 <? d)%f32 then Ret (s, None)
  else
    let! depth1 := array_set (depth s) i d in
    let! _cell := array_get (buf s) i in
    Ret (Screen (buf s) depth1 (w s) (h s), Some (Z.to_nat i)).

(** [*c = v] through the pointer that [at] returned. *)
Definition store (i : nat) (v : Z) (s : screen) : screen :=
  Screen (<[i := v]> (buf s)) (depth s) (w s) (h s).

(** [to_cartesian] on [std::size_t]: [factor - 1] wraps for [factor = 0];
    the arithmetic is in [double] and the result is converted to [float]. *)
Definition to_cartesian (coord factor : Z) : F32.t :=
  F64.to_f32
    (F64.sub
       (F64.div (F64.mul (F64.of_int coord) (F64.of_int 2))
                (F64.of_int ((factor - 1) mod SIZE_MOD)))
       (F64.of_int 1)).

(** [std::putc(at(j, i), stdout)]: the cell behind the reference. *)
Definition at_value (x y : Z) (s : screen) : outcome Z :=
  let! k := at_ref x y s in
  array_get (buf s) (Z.of_nat k).

(** One border line of [render]: ['+'], [w] times ['-'], ['+']. *)
Definition render_border (s : screen) (out : list Z) : outcome (list Z) :=
  let out1 := putc 43 out in
  let! out2 := for_size (w s) (fun _ o => Ret (putc 45 o)) out1 in
  Ret (putc 43 out2).

(** [render]: the characters written to [stdout], in order. *)
Definition render (s : screen) : outcome (list Z) :=
  let! top := render_border s [] in
  let top1 := putc 10 top in
  let! rows :=
    for_size (h s)
      (fun i o =>
         let o1 := putc 124 o in
         let! o2 :=
           for_size (w s)
             (fun j o3 => let! ch := at_value j i s in Ret (putc ch o3)) o1 in
         Ret (putc 10 (putc 124 o2)))
      top1 in
  render_border s rows.

Definition projection : mat4 :=
  get_projection #(-1)%f32 #1%f32 #(-1)%f32 #1%f32 #1%f32 #2%f32.

Definition project (v : vec3) : vec4 :=
  normalize (mat4_mul_vec4 projection (vec4_of v one)).

(** The glyph of a depth: ['0' + (d + 1.0f) * 5.0f] converted to [char]. *)
Definition glyph (char_min char_max : Z) (d : F32.t) : outcome Z :=
  f32_to_char char_min char_max (#48 + (d + one) * #5)%f32.

(** The body of the inner loop of [draw] at pixel [(j, i)]. *)
Definition draw_pixel (char_min char_max : Z) (p1 p2 p3 : vec4) (i j : Z)
    (s : screen) : outcome screen :=
  if inside_triangle p1 p2 p3 (to_cartesian j (w s)) (to_cartesian i (h s))
  then
    let d := get_z_component p1 p2 p3
               (to_cartesian j (w s)) (to_cartesian i (h s)) in
    let! res := at_depth j i d s in
    match res with
    | (s1, Some cell) =>
        let! ch := glyph char_min char_max d in
        Ret (store cell ch s1)
    | (s1, None) => Ret s1
    end
  else Ret s.

(** [draw]: every pixel of the grid is visited, row by row. *)
Definition draw (char_min char_max : Z) (v1 v2 v3 : vec3) (s : screen)
  : outcome screen :=
  let p1 := project v1 in
  let p2 := project v2 in
  let p3 := project v3 in
  for_size (h s)
    (fun i s0 =>
       for_size (w s0)
         (fun j s1 => draw_pixel char_min char_max p1 p2 p3 i j s1) s0)
    s.

End Pipeline.

(** ** The colour renderer (the revision with [bounding_box]) *)
Module Colour.

(** The three edge tests are combined with the short-circuit [&&]. *)
Definition edge (a b : vec4) (x y : F32.t) : bool :=
  ((x - vx a) * (vy b - vy a) - (y - vy a) * (vx b - vx a) >=? #0)%f32.

Definition inside_triangle (a b c : vec4) (x y : F32.t) : bool :=
  if edge b a x y then (if edge c b x y then edge a c x y else false)
  else false.

(** [to_cartesian]: computed in [double] (the literal [2.0] is a
    [double]) and converted to [float] on return.  [factor - 1] is an
    [int] subtraction; it cannot overflow for a positive extent. *)
Definition to_cartesian (coord factor : Z) : F32.t :=
  F64.to_f32
    (F64.sub
       (F64.div (F64.mul (F64.of_int coord) (F64.of_int 2))
                (F64.of_int (factor - 1)))
       (F64.of_int 1)).

(** [bounding_box]: packed as [(x_min, x_max, y_min, y_max)] in the
    fields [x, y, z, w] of a [vec4].  [w - 1] and [h - 1] are [int]
    subtractions converted to [float]. *)
Definition bounding_box (a b c : vec4) (w h : Z) : vec4 :=
  Vec4
    ((min_il (vx a) [vx b; vx c; #0] + #1) * #(w - 1) / two)%f32
    ((max_il (vx a) [vx b; vx c; one] + #1) * #(w - 1) / two)%f32
    ((min_il (vy a) [vy b; vy c; #0] + #1) * #(h - 1) / two)%f32
    ((max_il (vy a) [vy b; vy c; one] + #1) * #(h - 1) / two)%f32.

(** [short] channels and a [wchar_t] glyph, as integers. *)
Record color : Type := Color { r : Z; g : Z; b : Z }.

Record pixel : Type := Pixel { c : Z; background : color; foreground : color }.

(** [screen<W, H>]: [w] and [h] are [const int]. *)
Record screen : Type := Screen {
  shader : F32.t -> pixel;
  buf : list pixel;
  depth : list F32.t;
  w : Z;
  h : Z
}.

Definition blank : pixel := Pixel 32 (Color 0 0 0) (Color 0 0 0).

(** The constructor: every cell a black space, every depth [0]. *)
Definition mk_screen (W H : Z) (fn : F32.t -> pixel) : screen :=
  Screen fn (replicate (Z.to_nat (W * H)) blank)
            (replicate (Z.to_nat (W * H)) #0%f32) W H.

(** The flat index [y * w + x] and the bound [w * h] of the assertion,
    in [int] arithmetic. *)
Definition checked_index (x y : Z) (s : screen) : outcome Z :=
  let! yw := int_mul y (w s) in
  let! i := int_add yw x in
  let! wh := int_mul (w s) (h s) in
  let! _ok := assert (i <? wh) in
  Ret i.

(** [pixel at(x, y) const]. *)
Definition at_const (x y : Z) (s : screen) : outcome pixel :=
  let! i := checked_index x y s in
  array_get (buf s) i.

(** [pixel& at(x, y)]: the handle is the index of the cell. *)
Definition at_ref (x y : Z) (s : screen) : outcome nat :=
  let! i := checked_index x y s in
  let! _cell := array_get (buf s) i in
  Ret (Z.to_nat i).

(** [std::optional<std::reference_wrapper<pixel>> at(x, y, d)]. *)
Definition at_depth (x y : Z) (d : F32.t) (s : screen)
  : outcome (screen * option nat) :=
  let! i := checked_index x y s in
  let! stored := array_get (depth s) i in
  if (stored + #1 <? d)%f32 then Ret (s, None)
  else
    let! depth1 := array_set (depth s) i d in
    let! _cell := array_get (buf s) i in
    Ret (Screen (shader s) (buf s) depth1 (w s) (h s), Some (Z.to_nat i)).

(** [c->get() = p] through the reference that [at] returned. *)
Definition store (i : nat) (p : pixel) (s : screen) : screen :=
  Screen (shader s) (<[i := p]> (buf s)) (depth s) (w s) (h s).

(** The fixed projection of [draw]. *)
Definition projection : mat4 :=
  get_projection #(-1)%f32 #1%f32 #(-1)%f32 #1%f32 #1%f32 #2%f32.

(** One vertex of [draw]: transformed, then divided by its [w]. *)
Definition project (v : vec3) : vec4 :=
  normalize (mat4_mul_vec4 projection (vec4_of v one)).

(** The body of the inner loop of [draw] at pixel [(j, i)]. *)
Definition draw_pixel (p1 p2 p3 : vec4) (i j : Z) (s : screen) : outcome screen :=
  let mi := to_cartesian i (h s) in
  let mj := to_cartesian j (w s) in
  if inside_triangle p1 p2 p3 mj mi then
    let d := get_z_component p1 p2 p3 mj mi in
    let! res := at_depth j i d s in
    match res with
    | (s1, Some cell) => Ret (store cell (shader s1 d) s1)
    | (s1, None) => Ret s1
    end
  else Ret s.

Definition draw (v1 v2 v3 : vec3) (s : screen) : outcome screen :=
  let p1 := project v1 in
  let p2 := project v2 in
  let p3 := project v3 in
  let bb := bounding_box p1 p2 p3 (w s) (h s) in
  let! i0 := f32_to_int (vz bb) in
  for_int i0 (vw bb)
    (fun i s0 =>
       let! j0 := f32_to_int (vx bb) in
       for_int j0 (vy bb) (fun j s1 => draw_pixel p1 p2 p3 i j s1) s0)
    s.

End Colour.

(** ** Vocabulary of the statements *)

(** Row [i] of a row-major matrix. *)
Definition row (m : mat4) (i : nat) : list F32.t := take 4 (drop (4 * i) m).

(** The projection matrix as the specification prints it. *)
Definition spec_projection (l r t b n f : F32.t) : mat4 :=
  [ (two * n / (r - l))%f32; #0%f32; ((l + r) / (l - r))%f32; #0%f32;
    #0%f32; (two * n / (b - t))%f32; ((t + b) / (b - t))%f32; #0%f32;
    #0%f32; #0%f32; ((f + n) / (f - n))%f32; (two * n * f / (n - f))%f32;
    #0%f32; #0%f32; one; #0%f32 ].

(** The edge function of the directed edge from [p] to [q] at [(x, y)],
    as the specification writes it. *)
Definition edge_value (p q : vec4) (x y : F32.t) : F32.t :=
  ((x - vx p) * (vy q - vy p) - (y - vy p) * (vx q - vx p))%f32.

Definition nonneg (v : F32.t) : Prop := (v >=? #0)%f32 = true.

(** A depth-tested write that handed out a handle. *)
Definition succeeded {S : Type} (o : outcome (S * option nat)) : Prop :=
  exists s i, o = Ret (s, Some i).

(** A vertex whose three coordinates are finite. *)
Definition finite_vertex (p : vec4) : Prop :=
  F32.is_finite (vx p) = true /\ F32.is_finite (vy p) = true
  /\ F32.is_finite (vz p) = true.

Module ColourProps.
Import Colour.

(** A screen as the constructor leaves it, up to the cell contents. *)
Record wf (s : screen) : Prop := Wf {
  wf_w : 0 < w s;
  wf_h : 0 < h s;
  wf_size : w s * h s <= INT_MAX;
  wf_buf : length (buf s) = Z.to_nat (w s * h s);
  wf_depth : length (depth s) = Z.to_nat (w s * h s)
}.

Definition in_range (x y : Z) (s : screen) : Prop :=
  0 <= x < w s /\ 0 <= y < h s.

(** The cell index of [(x, y)]. *)
Definition cell (x y : Z) (s : screen) : nat := Z.to_nat (y * w s + x).

Definition set_depth (i : nat) (d : F32.t) (s : screen) : screen :=
  Screen (shader s) (buf s) (<[i := d]> (depth s)) (w s) (h s).

(** A sequence of depth-tested writes [(x, y, d)], in order. *)
Fixpoint writes (ws : list (Z * Z * F32.t)) (s : screen) : outcome screen :=
  match ws with
  | [] => Ret s
  | (x, y, d) :: rest =>
      let! res := at_depth x y d s in
      writes rest (fst res)
  end.

Definition plain (_ : F32.t) : pixel := Pixel 35 (Color 1 1 1) (Color 1 1 1).
End ColourProps.

Module PipelineProps.
Import Pipeline.

Record wf (s : screen) : Prop := Wf {
  wf_w : 0 < w s;
  wf_h : 0 < h s;
  wf_size : w s * h s < SIZE_MOD;
  wf_buf : length (buf s) = Z.to_nat (w s * h s);
  wf_depth : length (depth s) = Z.to_nat (w s * h s)
}.

Definition in_range (x y : Z) (s : screen) : Prop :=
  0 <= x < w s /\ 0 <= y < h s.

Definition cell (x y : Z) (s : screen) : nat := Z.to_nat (y * w s + x).

Definition set_depth (i : nat) (d : F32.t) (s : screen) : screen :=
  Screen (buf s) (<[i := d]> (depth s)) (w s) (h s).

Fixpoint writes (ws : list (Z * Z * F32.t)) (s : screen) : outcome screen :=
  match ws with
  | [] => Ret s
  | (x, y, d) :: rest =>
      let! res := at_depth x y d s in
      writes rest (fst res)
  end.
End PipelineProps.

Module ColourDrawProps.
Import Colour.

(** The cells that no admitted sample point of the triangle maps to: every
    pixel [(j, i)] whose flat index is [k] is outside the triangle. *)
Definition untouched (p1 p2 p3 : vec4) (s : screen) (k : nat) : Prop :=
  forall i j : Z,
    0 <= i * w s + j -> Z.to_nat (i * w s + j) = k ->
    inside_triangle p1 p2 p3 (to_cartesian j (w s)) (to_cartesian i (h s))
    = false.

(** What [draw] keeps, relative to the grid [s] it started from. *)
Definition kept (p1 p2 p3 : vec4) (s s0 : screen) : Prop :=
  w s0 = w s /\ h s0 = h s
  /\ length (buf s0) = length (buf s)
  /\ length (depth s0) = length (depth s)
  /\ forall k, untouched p1 p2 p3 s k ->
       buf s0 !! k = buf s !! k /\ depth s0 !! k = depth s !! k.

(** The loop [for (int i = lo; i < hi; i++)]: the counter starts at
    [first], the conversion of [lo]; the body runs at [first], ...,
    [last - 1], and [last] is the first value that fails the test. *)
Definition scans (lo hi : F32.t) (first last : Z) : Prop :=
  f32_to_int lo = Ret first
  /\ first <= last <= INT_MAX
  /\ (forall k, first <= k < last -> (#k <? hi)%f32 = true)
  /\ (#last <? hi)%f32 = false.

(** A grid reached from [s]: well-formed, of the same extent and with the
    same shader. *)
Definition same_grid (s s0 : screen) : Prop :=
  ColourProps.wf s0 /\ w s0 = w s /\ h s0 = h s /\ shader s0 = shader s.

(** Cell [k] reads the same in [s'] as in [s]. *)
Definition same_at (s s' : screen) (k : nat) : Prop :=
  depth s' !! k = depth s !! k /\ buf s' !! k = buf s !! k.

(** Cell [k] of [s'] holds the NaN depth and the shader's pixel for it. *)
Definition nan_at (s s' : screen) (k : nat) : Prop :=
  depth s' !! k = Some F32.nan /\ buf s' !! k = Some (shader s F32.nan).
End ColourDrawProps.

Module PipelineDrawProps.
Import Pipeline PipelineProps.

(** Cell [c] reads the same in [s'] as in [s]. *)
Definition same_cell (s s' : screen) (c : nat) : Prop :=
  depth s' !! c = depth s !! c /\ buf s' !! c = buf s !! c.

(** What [draw] leaves in the cell [(x, y)]: when the sample point is
    inside and the depth passes the test against the depth stored before
    the call, the new depth and its glyph; otherwise what was there. *)
Definition cell_after (char_min char_max : Z) (p1 p2 p3 : vec4)
    (s s' : screen) (x y : Z) : Prop :=
  exists stored,
    depth s !! cell x y s = Some stored
    /\ let d := get_z_component p1 p2 p3
                  (to_cartesian x (w s)) (to_cartesian y (h s)) in
       if inside_triangle p1 p2 p3
            (to_cartesian x (w s)) (to_cartesian y (h s))
          && negb (stored + #1 <? d)%f32
       then depth s' !! cell x y s = Some d
            /\ exists ch, glyph char_min char_max d = Ret ch
                          /\ buf s' !! cell x y s = Some ch
       else same_cell s s' (cell x y s).

(** The state of [draw] when the pixels with flat index below [n] are
    done. *)
Definition progress (char_min char_max : Z) (p1 p2 p3 : vec4) (s : screen)
    (n : Z) (s0 : screen) : Prop :=
  wf s0 /\ w s0 = w s /\ h s0 = h s
  /\ forall x y, in_range x y s ->
       (y * w s + x < n -> cell_after char_min char_max p1 p2 p3 s s0 x y)
       /\ (n <= y * w s + x -> same_cell s s0 (cell x y s)).

(** Every glyph that [draw] has to store is representable in [char]. *)
Definition glyphs_defined (char_min char_max : Z) (p1 p2 p3 : vec4)
    (s : screen) : Prop :=
  forall x y stored,
    in_range x y s -> depth s !! cell x y s = Some stored ->
    inside_triangle p1 p2 p3 (to_cartesian x (w s)) (to_cartesian y (h s))
    = true ->
    (stored + #1
     <? get_z_component p1 p2 p3
          (to_cartesian x (w s)) (to_cartesian y (h s)))%f32 = false ->
    exists ch,
      glyph char_min char_max
        (get_z_component p1 p2 p3
           (to_cartesian x (w s)) (to_cartesian y (h s))) = Ret ch.
End PipelineDrawProps.

Module PipelineRenderProps.
Import Pipeline.

(** The text of a border line: ['+'], [w] dashes, ['+']. *)
Definition border_text (s : screen) : list Z :=
  [43] ++ replicate (Z.to_nat (w s)) 45 ++ [43].

(** The text of row [i]: ['|'], the [w] cells of the row as bytes, ['|'],
    a line feed. *)
Definition row_text (s : screen) (i : nat) : list Z :=
  [124]
  ++ map (fun c => c mod 256)
       (take (Z.to_nat (w s)) (drop (i * Z.to_nat (w s)) (buf s)))
  ++ [124; 10].

(** The framed picture: border, line feed, the rows, border. *)
Definition picture (s : screen) : list Z :=
  border_text s ++ [10]
  ++ concat (map (row_text s) (seq 0 (Z.to_nat (h s))))
  ++ border_text s.
End PipelineRenderProps.

(** ** Reference semantics of the loops *)

(** [run k step s]: at most [k] rounds of [step], counted in unary. *)
Fixpoint run {St R : Type} (k : nat) (step : St -> outcome (St + R)) (s : St)
  : outcome (St + R) :=
  match k with
  | O => Ret (inl s)
  | S k' =>
      let! r := step s in
      match r with
      | inl s1 => run k' step s1
      | inr _ => Ret r
      end
  end.

(** [body] at the [cnt] consecutive indices from [i] on. *)
Fixpoint fold_range {St : Type} (body : Z -> St -> outcome St) (cnt : nat)
    (i : Z) (s : St) : outcome St :=
  match cnt with
  | O => Ret s
  | S c =>
      let! s1 := body i s in
      fold_range body c (i + 1) s1
  end.

(** A value that is neither a zero nor a NaN nor an infinity. *)
Definition is_nonzero_finite (a : F32.t) : bool :=
  match a with S754_finite _ _ _ => true | _ => false end.

(** The [z] component of the normal of the plane through three
    projected vertices, [z_p] in [get_z_component]. *)
Definition normal_z (a b c : vec4) : F32.t :=
  ((vx b - vx a) * (vy c - vy a) - (vx c - vx a) * (vy b - vy a))%f32.

(** A well-formed binary32 value: the mantissa of a finite value is in
    canonical form and the exponent is in range, as for every C++ [float]. *)
Definition valid32 (a : F32.t) : Prop :=
  valid_binary F32.prec F32.emax a = true.

(** A vertex whose three coordinates are well-formed, finite and not zero. *)
Definition ordinary_vertex (v : vec3) : Prop :=
  (valid32 (x3 v) /\ is_nonzero_finite (x3 v) = true)
  /\ (valid32 (y3 v) /\ is_nonzero_finite (y3 v) = true)
  /\ (valid32 (z3 v) /\ is_nonzero_finite (z3 v) = true).

(** ** Concrete inputs *)

Definition half : F32.t := F32.of_scaled 1 (-1).

Definition small_screen : Colour.screen := Colour.mk_screen 6 4 ColourProps.plain.
Definition small_chars : Pipeline.screen := Pipeline.mk_screen 6 4.

(** A triangle whose three vertices are the point [(0, 0, 1)]. *)
Definition axis_point : vec3 := Vec3 #0%f32 #0%f32 #1%f32.

(** A triangle that leaves the frustum: [(-3, 0, 1)], [(0, 5, 1)] and
    [(0, 0, 1)] project to the NDC points [(-3, 0)], [(0, 5)], [(0, 0)]. *)
Definition far_left : vec3 := Vec3 #(-3)%f32 #0%f32 #1%f32.
Definition far_up : vec3 := Vec3 #0%f32 #5%f32 #1%f32.

(** A triangle strictly inside the frustum: [(-1/2, -1/2, 1)],
    [(1/2, -1/2, 1)] and [(0, 1/2, 1)]. *)
Definition in_a : vec3 := Vec3 (- half)%f32 (- half)%f32 #1%f32.
Definition in_b : vec3 := Vec3 half (- half)%f32 #1%f32.
Definition in_c : vec3 := Vec3 #0%f32 half #1%f32.

(** The small grids after [draw] of the inner triangle. *)
Definition drawn_small : Colour.screen :=
  match Colour.draw in_a in_b in_c small_screen with
  | Ret s => s
  | _ => small_screen
  end.

Definition drawn_chars : Pipeline.screen :=
  match Pipeline.draw (-128) 127 in_a in_b in_c small_chars with
  | Ret s => s
  | _ => small_chars
  end.

(** * Properties *)

(** ** Comparisons of binary32 values *)

Lemma SFcompare_swap (a b : spec_float) :
  SFcompare b a = option_map CompOpp (SFcompare a b).
Proof.
  destruct a as [sa|sa| |sa ma ea], b as [sb|sb| |sb mb eb]; simpl;
    try reflexivity; try (destruct sa; reflexivity);
    try (destruct sb; reflexivity);
    try (destruct sa, sb; reflexivity).
  assert (Hm : Pos.compare_cont Eq mb ma = CompOpp (Pos.compare_cont Eq ma mb))
    by (symmetry; apply (Pos.compare_cont_antisym ma mb Eq)).
  destruct sa, sb; simpl; try reflexivity;
    rewrite (Z.compare_antisym ea eb), Hm;
    destruct (ea ?= eb); simpl; try reflexivity.
Qed.

Lemma gtb_ltb (a b : F32.t) : (a >? b)%f32 = (b <? a)%f32.
Proof.
  unfold F32.gtb, F32.ltb, SFltb. rewrite (SFcompare_swap a b).
  destruct (SFcompare a b) as [[]|]; reflexivity.
Qed.

Lemma geb_leb (a b : F32.t) : (a >=? b)%f32 = (b <=? a)%f32.
Proof.
  unfold F32.geb, F32.leb, SFleb. rewrite (SFcompare_swap a b).
  destruct (SFcompare a b) as [[]|]; reflexivity.
Qed.

Lemma SFcompare_ordered (a b : spec_float) :
  F32.is_nan a = false -> F32.is_nan b = false ->
  exists c, SFcompare a b = Some c.
Proof.
  destruct a, b; simpl; intros Ha Hb; try discriminate; eauto.
Qed.

(** Without a NaN, "not less" is "greater or equal". *)
Lemma not_ltb_leb (a b : F32.t) :
  F32.is_nan a = false -> F32.is_nan b = false ->
  (a <? b)%f32 = negb (b <=? a)%f32.
Proof.
  intros Ha Hb. unfold F32.ltb, F32.leb, SFltb, SFleb.
  rewrite (SFcompare_swap a b).
  destruct (SFcompare_ordered a b Ha Hb) as [c ->]. destruct c; reflexivity.
Qed.

(** ** Rounding never invents a NaN *)

Section RoundingNoNaN.
Variables prec emax : Z.

Lemma shr_1_nonneg (mrs : shr_record) :
  0 <= shr_m mrs -> 0 <= shr_m (shr_1 mrs).
Proof.
  destruct mrs as [m r s]; simpl.
  destruct m as [|[p|p|]|[p|p|]]; simpl; lia.
Qed.

Lemma iter_shr_1_nonneg (p : positive) :
  forall mrs, 0 <= shr_m mrs -> 0 <= shr_m (SpecFloat.iter_pos shr_1 p mrs).
Proof.
  induction p as [p IH|p IH|]; simpl; intros mrs Hm.
  - apply IH, IH, shr_1_nonneg, Hm.
  - apply IH, IH, Hm.
  - apply shr_1_nonneg, Hm.
Qed.

Lemma shr_fexp_nonneg (m e : Z) (l : location) :
  0 <= m -> 0 <= shr_m (fst (shr_fexp prec emax m e l)).
Proof.
  intros Hm. unfold shr_fexp, shr.
  assert (H0 : 0 <= shr_m (shr_record_of_loc m l))
    by (destruct l as [|[]]; exact Hm).
  destruct (fexp prec emax (Zdigits2 m + e) - e); simpl; auto.
  apply iter_shr_1_nonneg, H0.
Qed.

Lemma round_nearest_even_nonneg (m : Z) (l : location) :
  0 <= m -> 0 <= round_nearest_even m l.
Proof.
  intros Hm. destruct l as [|[]]; simpl; try lia.
  destruct (Z.even m); lia.
Qed.

Lemma binary_round_aux_no_nan (sx : bool) (mx ex : Z) (lx : location) :
  0 <= mx -> F32.is_nan (binary_round_aux prec emax sx mx ex lx) = false.
Proof.
  intros Hm. unfold binary_round_aux.
  pose proof (shr_fexp_nonneg mx ex lx Hm) as H1.
  destruct (shr_fexp prec emax mx ex lx) as [mrs1 e1]; simpl in H1.
  pose proof (shr_fexp_nonneg
                (round_nearest_even (shr_m mrs1) (loc_of_shr_record mrs1))
                e1 loc_Exact (round_nearest_even_nonneg _ _ H1)) as H2.
  destruct (shr_fexp prec emax _ e1 loc_Exact) as [mrs2 e2]; simpl in H2.
  destruct (shr_m mrs2); try reflexivity; try lia.
  destruct (e2 <=? emax - prec); reflexivity.
Qed.

Lemma binary_normalize_no_nan (m e : Z) (sz : bool) :
  F32.is_nan (binary_normalize prec emax m e sz) = false.
Proof.
  destruct m; simpl; try reflexivity; unfold binary_round;
    destruct (shl_align _ _ _); apply binary_round_aux_no_nan; lia.
Qed.

(** A sum is a NaN only if an operand is one or the operands are
    opposite infinities. *)
Lemma SFadd_finite_no_nan (a b : spec_float) :
  F32.is_nan a = false -> F32.is_finite b = true ->
  F32.is_nan (SFadd prec emax a b) = false.
Proof.
  destruct a as [sa|sa| |sa ma ea], b as [sb|sb| |sb mb eb]; simpl;
    intros Ha Hb; try discriminate; try reflexivity.
  - destruct sa, sb; reflexivity.
  - apply binary_normalize_no_nan.
Qed.
End RoundingNoNaN.

(** ** Arithmetic with zeros *)

Lemma sub_diag (a : F32.t) :
  F32.is_finite a = true -> (a - a)%f32 = F32.zero.
Proof.
  destruct a as [s|s| |s m e]; simpl; intros H; try discriminate.
  - destruct s; reflexivity.
  - unfold F32.sub, SFsub. now rewrite Z.sub_diag.
Qed.

Lemma mul_zero_r (a b : F32.t) :
  F32.is_finite a = true -> F32.is_zero b = true -> F32.is_zero (a * b)%f32 = true.
Proof. destruct a, b; simpl; intros; try discriminate; reflexivity. Qed.

Lemma mul_zero_l (a b : F32.t) :
  F32.is_zero a = true -> F32.is_finite b = true -> F32.is_zero (a * b)%f32 = true.
Proof. destruct a, b; simpl; intros; try discriminate; reflexivity. Qed.

Lemma sub_zero_zero (a b : F32.t) :
  F32.is_zero a = true -> F32.is_zero b = true -> F32.is_zero (a - b)%f32 = true.
Proof.
  destruct a as [sa| | |], b as [sb| | |]; simpl; intros; try discriminate.
  destruct sa, sb; reflexivity.
Qed.

Lemma add_zero_zero (a b : F32.t) :
  F32.is_zero a = true -> F32.is_zero b = true -> F32.is_zero (a + b)%f32 = true.
Proof.
  destruct a as [sa| | |], b as [sb| | |]; simpl; intros; try discriminate.
  destruct sa, sb; reflexivity.
Qed.

Lemma opp_zero (a : F32.t) : F32.is_zero a = true -> F32.is_zero (- a)%f32 = true.
Proof. destruct a; simpl; intros; try discriminate; reflexivity. Qed.

Lemma div_zero_zero (a b : F32.t) :
  F32.is_zero a = true -> F32.is_zero b = true -> (a / b)%f32 = F32.nan.
Proof. destruct a, b; simpl; intros; try discriminate; reflexivity. Qed.

Lemma zero_nonneg (a : F32.t) : F32.is_zero a = true -> nonneg a.
Proof. destruct a; simpl; intros; try discriminate; reflexivity. Qed.

Lemma zero_finite (a : F32.t) : F32.is_zero a = true -> F32.is_finite a = true.
Proof. destruct a; simpl; intros; try discriminate; reflexivity. Qed.

(** ** The projection builder *)

(** C3, as amended: for every frustum, [get_projection l r t b n f] is
    the row-major matrix whose rows are
    [2n/(r-l), 0, (l+r)/(l-r), 0], [0, 2n/(b-t), (t+b)/(t-b), 0],
    [0, 0, (f+n)/(f-n), 2nf/(n-f)] and [0, 0, 1, 0]: the third entry of the
    second row divides by [t - b], not by [b - t]; every other entry is
    the one the specification prints.  The side conditions [r <> l],
    [b <> t], [f <> n] are not needed for the equations. *)
Theorem get_projection_rows (l r t b n f : F32.t) :
  length (get_projection l r t b n f) = 16%nat
  /\ row (get_projection l r t b n f) 0
     = [ (two * n / (r - l))%f32; #0%f32; ((l + r) / (l - r))%f32; #0%f32 ]
  /\ row (get_projection l r t b n f) 1
     = [ #0%f32; (two * n / (b - t))%f32; ((t + b) / (t - b))%f32; #0%f32 ]
  /\ row (get_projection l r t b n f) 2
     = [ #0%f32; #0%f32; ((f + n) / (f - n))%f32; (two * n * f / (n - f))%f32 ]
  /\ row (get_projection l r t b n f) 3 = [ #0%f32; #0%f32; one; #0%f32 ]
  /\ (forall i : nat, i <> 6%nat ->
      (get_projection l r t b n f).[i] = (spec_projection l r t b n f).[i]).
Proof.
  repeat split. intros i Hi.
  do 16 (destruct i as [|i]; [reflexivity || contradiction|]).
  destruct i; reflexivity.
Qed.

(** C3, counterexample: on the frustum [l = -1], [r = 1], [t = 0],
    [b = 1], [n = 1], [f = 2], which has [r <> l], [b <> t] and [f <> n],
    the second row of the code's matrix is [0, 2, -1, 0] while the
    specification's row [0, 2n/(b-t), (t+b)/(b-t), 0] is [0, 2, 1, 0]. *)
Lemma get_projection_second_row_differs :
  #1%f32 <> #(-1)%f32 /\ #1%f32 <> #0%f32 /\ #2%f32 <> #1%f32
  /\ row (get_projection #(-1)%f32 #1%f32 #0%f32 #1%f32 #1%f32 #2%f32) 1
     = [ #0%f32; #2%f32; #(-1)%f32; #0%f32 ]
  /\ row (spec_projection #(-1)%f32 #1%f32 #0%f32 #1%f32 #1%f32 #2%f32) 1
     = [ #0%f32; #2%f32; #1%f32; #0%f32 ]
  /\ get_projection #(-1)%f32 #1%f32 #0%f32 #1%f32 #1%f32 #2%f32
     <> spec_projection #(-1)%f32 #1%f32 #0%f32 #1%f32 #1%f32 #2%f32.
Proof. vm_compute. repeat split; discriminate. Qed.

(** C8: the point [(0, 0, 1, 1)] on the optical axis at the near plane of
    [get_projection(-1, 1, -1, 1, 1, 2)], multiplied by the matrix and
    normalized, has [x = 0] and [y = 0] (exactly, both [+0]); this is
    also what [draw] computes for the vertex [(0, 0, 1)]. *)
Theorem near_plane_axis_point_projects_to_origin :
  vx (normalize (mat4_mul_vec4
        (get_projection #(-1)%f32 #1%f32 #(-1)%f32 #1%f32 #1%f32 #2%f32)
        (Vec4 #0%f32 #0%f32 #1%f32 #1%f32))) = #0%f32
  /\ vy (normalize (mat4_mul_vec4
        (get_projection #(-1)%f32 #1%f32 #(-1)%f32 #1%f32 #1%f32 #2%f32)
        (Vec4 #0%f32 #0%f32 #1%f32 #1%f32))) = #0%f32
  /\ Colour.project axis_point = Vec4 #0%f32 #0%f32 #(-1)%f32 #1%f32.
Proof. vm_compute. repeat split. Qed.

(** ** The containment test *)

Lemma colour_inside_andb (a b c : vec4) (x y : F32.t) :
  Colour.inside_triangle a b c x y
  = Colour.edge b a x y && Colour.edge c b x y && Colour.edge a c x y.
Proof.
  unfold Colour.inside_triangle.
  destruct (Colour.edge b a x y), (Colour.edge c b x y); reflexivity.
Qed.

(** C6: [inside_triangle a b c x y] is true exactly when the edge
    function [(x - p.x) * (q.y - p.y) - (y - p.y) * (q.x - p.x)] is [>= 0]
    for each of the directed edges [b -> a], [c -> b] and [a -> c], in
    both revisions; an edge function that is exactly zero passes [>= 0],
    so a boundary point counts as inside. *)
Theorem inside_triangle_edge_functions (a b c : vec4) (x y : F32.t) :
  (Colour.inside_triangle a b c x y = true
   <-> nonneg (edge_value b a x y) /\ nonneg (edge_value c b x y)
       /\ nonneg (edge_value a c x y))
  /\ (Pipeline.inside_triangle a b c x y = true
      <-> nonneg (edge_value b a x y) /\ nonneg (edge_value c b x y)
          /\ nonneg (edge_value a c x y))
  /\ (forall v : F32.t, F32.is_zero v = true -> nonneg v).
Proof.
  split; [|split].
  - rewrite colour_inside_andb, !andb_true_iff.
    unfold nonneg, edge_value, Colour.edge. tauto.
  - unfold Pipeline.inside_triangle. rewrite !andb_true_iff.
    unfold nonneg, edge_value, Pipeline.edge. tauto.
  - exact zero_nonneg.
Qed.

(** C10: [inside_triangle] does not change under a cyclic permutation of
    the vertices, in both revisions. *)
Theorem inside_triangle_cyclic (a b c : vec4) (x y : F32.t) :
  Colour.inside_triangle a b c x y = Colour.inside_triangle b c a x y
  /\ Pipeline.inside_triangle a b c x y = Pipeline.inside_triangle b c a x y.
Proof.
  rewrite !colour_inside_andb. unfold Pipeline.inside_triangle.
  change Pipeline.edge with Colour.edge.
  destruct (Colour.edge b a x y), (Colour.edge c b x y),
    (Colour.edge a c x y); split; reflexivity.
Qed.

(** ** Integers, arrays and the outcome monad *)

Lemma int_result_ok (z : Z) :
  INT_MIN <= z <= INT_MAX -> int_result z = Ret z.
Proof.
  intros Hz. unfold int_result, in_int.
  destruct (Z.leb_spec INT_MIN z), (Z.leb_spec z INT_MAX); simpl; try lia.
  reflexivity.
Qed.

Lemma array_get_Some {A : Type} (a : list A) (i : Z) (v : A) :
  0 <= i -> a !! Z.to_nat i = Some v -> array_get a i = Ret v.
Proof.
  intros Hi Hv. unfold array_get.
  destruct (Z.ltb_spec i 0); [lia|]. now rewrite Hv.
Qed.

Lemma array_set_Some {A : Type} (a : list A) (i : Z) (old v : A) :
  0 <= i -> a !! Z.to_nat i = Some old ->
  array_set a i v = Ret (<[Z.to_nat i := v]> a).
Proof.
  intros Hi Hv. unfold array_set. now rewrite (array_get_Some a i old).
Qed.

Lemma assert_true (c : bool) : c = true -> assert c = Ret tt.
Proof. now intros ->. Qed.

Lemma assert_false (c : bool) : c = false -> assert c = AssertFail.
Proof. now intros ->. Qed.

Lemma ltb_nan_r (a : F32.t) : (a <? F32.nan)%f32 = false.
Proof. destruct a; reflexivity. Qed.

Lemma one_finite : F32.is_finite #1%f32 = true.
Proof. reflexivity. Qed.

Lemma add_one_no_nan (a : F32.t) :
  F32.is_nan a = false -> F32.is_nan (a + #1)%f32 = false.
Proof. intros Ha. now apply SFadd_finite_no_nan. Qed.

(** With ordered operands the test of [at] is the test [d <= stored + 1]. *)
Lemma depth_test_ordered (stored d : F32.t) :
  F32.is_nan stored = false -> F32.is_nan d = false ->
  (stored + #1 <? d)%f32 = negb (d <=? stored + #1)%f32.
Proof.
  intros Hs Hd. apply not_ltb_leb; [now apply add_one_no_nan | exact Hd].
Qed.

(** ** The depth-tested accessor of the colour renderer *)

Module ColourFacts.
Import Colour ColourProps.

Lemma mk_screen_wf (W H : Z) (fn : F32.t -> pixel) :
  0 < W -> 0 < H -> W * H <= INT_MAX -> wf (mk_screen W H fn).
Proof.
  intros HW HH HS. constructor; simpl; auto; apply length_replicate.
Qed.

Lemma flat_index_bounds (s : screen) (x y : Z) :
  wf s -> in_range x y s ->
  0 <= y * w s /\ 0 <= y * w s + x < w s * h s.
Proof.
  intros [HW HH _ _ _] [Hx Hy].
  assert (0 <= y * w s) by (apply Z.mul_nonneg_nonneg; lia).
  assert (y * w s <= (h s - 1) * w s)
    by (apply Z.mul_le_mono_nonneg_r; lia).
  lia.
Qed.

Lemma checked_index_in_range (s : screen) (x y : Z) :
  wf s -> in_range x y s -> checked_index x y s = Ret (y * w s + x).
Proof.
  intros Hwf Hr. pose proof (flat_index_bounds s x y Hwf Hr) as [H0 H1].
  destruct Hwf, Hr as [Hx Hy]. unfold checked_index, int_mul, int_add.
  assert (HI : INT_MIN < 0) by reflexivity.
  rewrite (int_result_ok (y * w s)) by lia. cbn [bind].
  rewrite (int_result_ok (y * w s + x)) by lia. cbn [bind].
  rewrite (int_result_ok (w s * h s)) by lia. cbn [bind].
  rewrite assert_true; [reflexivity|]. apply Z.ltb_lt. lia.
Qed.

Lemma cell_lt (s : screen) (x y : Z) :
  wf s -> in_range x y s -> (cell x y s < Z.to_nat (w s * h s))%nat.
Proof.
  intros Hwf Hr. pose proof (flat_index_bounds s x y Hwf Hr).
  unfold cell. lia.
Qed.

Lemma stored_depth_exists (s : screen) (x y : Z) :
  wf s -> in_range x y s -> exists stored, depth s !! cell x y s = Some stored.
Proof.
  intros Hwf Hr. apply lookup_lt_is_Some.
  rewrite (wf_depth s Hwf). now apply cell_lt.
Qed.

Lemma cell_content_exists (s : screen) (x y : Z) :
  wf s -> in_range x y s -> exists p, buf s !! cell x y s = Some p.
Proof.
  intros Hwf Hr. apply lookup_lt_is_Some.
  rewrite (wf_buf s Hwf). now apply cell_lt.
Qed.

(** What [at(x, y, d)] does on a cell of the grid. *)
Lemma at_depth_in_range (s : screen) (x y : Z) (d stored : F32.t) :
  wf s -> in_range x y s -> depth s !! cell x y s = Some stored ->
  at_depth x y d s
  = if (stored + #1 <? d)%f32 then Ret (s, None)
    else Ret (set_depth (cell x y s) d s, Some (cell x y s)).
Proof.
  intros Hwf Hr Hst. unfold at_depth.
  rewrite (checked_index_in_range s x y Hwf Hr). cbn [bind].
  pose proof (flat_index_bounds s x y Hwf Hr) as [H0 H1].
  destruct (cell_content_exists s x y Hwf Hr) as [p Hp].
  unfold cell in *.
  rewrite (array_get_Some _ _ stored) by (lia || assumption). cbn [bind].
  destruct (stored + #1 <? d)%f32; [reflexivity|].
  rewrite (array_set_Some _ _ stored) by (lia || assumption). cbn [bind].
  rewrite (array_get_Some _ _ p) by (lia || assumption). reflexivity.
Qed.

Lemma set_depth_wf (s : screen) (i : nat) (d : F32.t) :
  wf s -> wf (set_depth i d s).
Proof.
  intros []. constructor; simpl; auto. now rewrite length_insert.
Qed.

Lemma at_depth_total (s : screen) (x y : Z) (d : F32.t) :
  wf s -> in_range x y s ->
  exists s1 r, at_depth x y d s = Ret (s1, r) /\ wf s1
               /\ w s1 = w s /\ h s1 = h s.
Proof.
  intros Hwf Hr. destruct (stored_depth_exists s x y Hwf Hr) as [st Hst].
  rewrite (at_depth_in_range s x y d st Hwf Hr Hst).
  destruct (st + #1 <? d)%f32; eexists _, _; split; try reflexivity;
    auto using set_depth_wf.
Qed.
End ColourFacts.

(** ** The depth-tested accessor of the character renderer *)

Module PipelineFacts.
Import Pipeline PipelineProps.

Lemma chars_mk_screen_wf (W H : Z) :
  0 < W -> 0 < H -> W * H < SIZE_MOD -> wf (mk_screen W H).
Proof.
  intros HW HH HS. constructor; simpl; auto; apply length_replicate.
Qed.

Lemma chars_flat_index_bounds (s : screen) (x y : Z) :
  wf s -> in_range x y s ->
  0 <= y * w s /\ 0 <= y * w s + x < w s * h s.
Proof.
  intros [HW HH _ _ _] [Hx Hy].
  assert (0 <= y * w s) by (apply Z.mul_nonneg_nonneg; lia).
  assert (y * w s <= (h s - 1) * w s)
    by (apply Z.mul_le_mono_nonneg_r; lia).
  lia.
Qed.

(** On the grid the [std::size_t] index does not wrap. *)
Lemma chars_flat_index_no_wrap (s : screen) (x y : Z) :
  wf s -> in_range x y s ->
  size_add (size_mul y (w s)) x = y * w s + x
  /\ size_mul (w s) (h s) = w s * h s.
Proof.
  intros Hwf Hr. pose proof (chars_flat_index_bounds s x y Hwf Hr) as [H0 H1].
  destruct Hwf, Hr as [Hx Hy]. unfold size_add, size_mul.
  rewrite (Z.mod_small (y * w s)) by lia.
  rewrite (Z.mod_small (y * w s + x)) by lia.
  rewrite (Z.mod_small (w s * h s)) by lia. auto.
Qed.

Lemma chars_cell_lt (s : screen) (x y : Z) :
  wf s -> in_range x y s -> (cell x y s < Z.to_nat (w s * h s))%nat.
Proof.
  intros Hwf Hr. pose proof (chars_flat_index_bounds s x y Hwf Hr).
  unfold cell. lia.
Qed.

Lemma chars_stored_depth_exists (s : screen) (x y : Z) :
  wf s -> in_range x y s -> exists stored, depth s !! cell x y s = Some stored.
Proof.
  intros Hwf Hr. apply lookup_lt_is_Some.
  rewrite (wf_depth s Hwf). now apply chars_cell_lt.
Qed.

Lemma chars_cell_content_exists (s : screen) (x y : Z) :
  wf s -> in_range x y s -> exists p, buf s !! cell x y s = Some p.
Proof.
  intros Hwf Hr. apply lookup_lt_is_Some.
  rewrite (wf_buf s Hwf). now apply chars_cell_lt.
Qed.

Lemma chars_at_depth_in_range (s : screen) (x y : Z) (d stored : F32.t) :
  wf s -> in_range x y s -> depth s !! cell x y s = Some stored ->
  at_depth x y d s
  = if (stored + #1 <? d)%f32 then Ret (s, None)
    else Ret (set_depth (cell x y s) d s, Some (cell x y s)).
Proof.
  intros Hwf Hr Hst. unfold at_depth.
  destruct (chars_flat_index_no_wrap s x y Hwf Hr) as [-> ->].
  pose proof (chars_flat_index_bounds s x y Hwf Hr) as [H0 H1].
  destruct (chars_cell_content_exists s x y Hwf Hr) as [p Hp].
  unfold cell in *.
  rewrite assert_true by (apply Z.ltb_lt; lia). cbn [bind].
  rewrite (array_get_Some _ _ stored) by (lia || assumption). cbn [bind].
  destruct (stored + #1 <? d)%f32; [reflexivity|].
  rewrite (array_set_Some _ _ stored) by (lia || assumption). cbn [bind].
  rewrite (array_get_Some _ _ p) by (lia || assumption). reflexivity.
Qed.

Lemma chars_set_depth_wf (s : screen) (i : nat) (d : F32.t) :
  wf s -> wf (set_depth i d s).
Proof.
  intros []. constructor; simpl; auto. now rewrite length_insert.
Qed.

Lemma chars_at_depth_total (s : screen) (x y : Z) (d : F32.t) :
  wf s -> in_range x y s ->
  exists s1 r, at_depth x y d s = Ret (s1, r) /\ wf s1
               /\ w s1 = w s /\ h s1 = h s.
Proof.
  intros Hwf Hr. destruct (chars_stored_depth_exists s x y Hwf Hr) as [st Hst].
  rewrite (chars_at_depth_in_range s x y d st Hwf Hr Hst).
  destruct (st + #1 <? d)%f32; eexists _, _; split; try reflexivity;
    auto using chars_set_depth_wf.
Qed.
End PipelineFacts.

(** ** The depth test *)

Lemma succeeded_Some {S : Type} (s : S) (i : nat) : succeeded (Ret (s, Some i)).
Proof. now exists s, i. Qed.

Lemma not_succeeded_None {S : Type} (s : S) : ~ succeeded (Ret (s, None)).
Proof. intros (s1 & i & H). discriminate H. Qed.

(** The three cases of the test, once the call is rewritten to its
    conditional form. *)
Ltac depth_test_cases st d :=
  split; [now intros ->|]; split; [now intros ->|];
  let Hs := fresh "Hs" in
  let Hd := fresh "Hd" in
  let H := fresh "H" in
  intros Hs Hd; rewrite (depth_test_ordered st d Hs Hd);
  destruct (d <=? st + #1)%f32; cbn [negb]; split; intros H;
  [ reflexivity
  | apply succeeded_Some
  | destruct (not_succeeded_None _ H)
  | discriminate H ].

(** C1, as amended: on a cell [(x, y)] of the grid with stored depth
    [stored], [at(x, y, d)] returns a handle to the cell and sets the
    stored depth to [d] (leaving the cell's content as it was) exactly
    when [stored + 1 < d] is false; when [stored + 1 < d] holds it returns
    the empty result and changes nothing.  When neither [d] nor [stored]
    is a NaN, "[stored + 1 < d] is false" is [d <= stored + 1].  (A NaN
    makes every comparison false, so it passes the test.)  Both revisions. *)
Theorem depth_tested_write :
  (forall (s : Colour.screen) (x y : Z) (d : F32.t),
      ColourProps.wf s -> ColourProps.in_range x y s ->
      exists stored, Colour.depth s !! ColourProps.cell x y s = Some stored
        /\ ((stored + #1 <? d)%f32 = false ->
            Colour.at_depth x y d s
            = Ret (ColourProps.set_depth (ColourProps.cell x y s) d s,
                   Some (ColourProps.cell x y s)))
        /\ ((stored + #1 <? d)%f32 = true ->
            Colour.at_depth x y d s = Ret (s, None))
        /\ (F32.is_nan stored = false -> F32.is_nan d = false ->
            (succeeded (Colour.at_depth x y d s)
             <-> (d <=? stored + #1)%f32 = true)))
  /\ (forall (s : Pipeline.screen) (x y : Z) (d : F32.t),
      PipelineProps.wf s -> PipelineProps.in_range x y s ->
      exists stored, Pipeline.depth s !! PipelineProps.cell x y s = Some stored
        /\ ((stored + #1 <? d)%f32 = false ->
            Pipeline.at_depth x y d s
            = Ret (PipelineProps.set_depth (PipelineProps.cell x y s) d s,
                   Some (PipelineProps.cell x y s)))
        /\ ((stored + #1 <? d)%f32 = true ->
            Pipeline.at_depth x y d s = Ret (s, None))
        /\ (F32.is_nan stored = false -> F32.is_nan d = false ->
            (succeeded (Pipeline.at_depth x y d s)
             <-> (d <=? stored + #1)%f32 = true))).
Proof.
  split; intros s x y d Hwf Hr.
  - destruct (ColourFacts.stored_depth_exists s x y Hwf Hr) as [st Hst].
    exists st. split; [exact Hst|].
    rewrite (ColourFacts.at_depth_in_range s x y d st Hwf Hr Hst).
    depth_test_cases st d.
  - destruct (PipelineFacts.chars_stored_depth_exists s x y Hwf Hr) as [st Hst].
    exists st. split; [exact Hst|].
    rewrite (PipelineFacts.chars_at_depth_in_range s x y d st Hwf Hr Hst).
    depth_test_cases st d.
Qed.

(** C1, counterexample: on the fresh grid the cell [(0, 0)] stores [0];
    [at(0, 0, NaN)] hands out the cell although [NaN <= 0 + 1] is false. *)
Lemma depth_test_admits_nan :
  ColourProps.in_range 0 0 small_screen
  /\ Colour.depth small_screen !! ColourProps.cell 0 0 small_screen = Some #0%f32
  /\ ~ (succeeded (Colour.at_depth 0 0 F32.nan small_screen)
        <-> (F32.nan <=? #0 + #1)%f32 = true).
Proof.
  split; [|split].
  - unfold ColourProps.in_range. simpl. lia.
  - reflexivity.
  - intros [Hle _].
    assert (Hs : succeeded (Colour.at_depth 0 0 F32.nan small_screen))
      by (eexists _, _; reflexivity).
    apply Hle in Hs. discriminate Hs.
Qed.

(** ** Sequences of depth-tested writes *)

Module ColourRuns.
Import Colour ColourProps ColourFacts.

(** Each stored depth after a run is the one the run started with or
    the depth of a write of the run that passed the test on that cell. *)
Lemma writes_invariant (W H : Z) (ws : list (Z * Z * F32.t)) :
  forall s0 : screen,
    wf s0 -> w s0 = W -> h s0 = H ->
    Forall (fun '(x, y, _) => 0 <= x < W /\ 0 <= y < H) ws ->
    exists s', writes ws s0 = Ret s' /\ wf s'
      /\ forall (i : nat) (dv : F32.t), depth s' !! i = Some dv ->
           depth s0 !! i = Some dv
           \/ exists ws1 x y d ws2 s1 s2,
                ws = ws1 ++ (x, y, d) :: ws2
                /\ writes ws1 s0 = Ret s1
                /\ at_depth x y d s1 = Ret (s2, Some i)
                /\ dv = d.
Proof.
  induction ws as [|[[x y] d] ws IH]; intros s0 Hwf HW HH Hall.
  - exists s0. split; [reflexivity|]. split; [exact Hwf|]. now left.
  - apply Forall_cons in Hall as [Hxy Hall].
    assert (Hr : in_range x y s0) by (unfold in_range; now rewrite HW, HH).
    destruct (stored_depth_exists s0 x y Hwf Hr) as [st Hst].
    pose proof (at_depth_in_range s0 x y d st Hwf Hr Hst) as Hat.
    destruct (st + #1 <? d)%f32.
    + destruct (IH s0 Hwf HW HH Hall) as (s' & Hrun & Hwf' & Hinv).
      exists s'. split; [cbn [writes]; now rewrite Hat|].
      split; [exact Hwf'|]. intros i dv Hl.
      destruct (Hinv i dv Hl)
        as [Hl0|(ws1 & x' & y' & d' & ws2 & s1 & s2 & -> & Hr1 & Hat1 & ->)];
        [now left|right].
      exists ((x, y, d) :: ws1), x', y', d', ws2, s1, s2.
      repeat split; auto. cbn [writes]. now rewrite Hat.
    + destruct (IH (set_depth (cell x y s0) d s0)
                  (set_depth_wf _ _ _ Hwf) HW HH Hall)
        as (s' & Hrun & Hwf' & Hinv).
      exists s'. split; [cbn [writes]; now rewrite Hat|].
      split; [exact Hwf'|]. intros i dv Hl.
      destruct (Hinv i dv Hl)
        as [Hl0|(ws1 & x' & y' & d' & ws2 & s1 & s2 & -> & Hr1 & Hat1 & ->)].
      * cbn [set_depth depth] in Hl0.
        destruct (decide (i = cell x y s0)) as [->|Hne].
        -- rewrite list_lookup_insert_eq in Hl0
             by (rewrite (wf_depth s0 Hwf); now apply cell_lt).
           injection Hl0 as <-. right.
           exists [], x, y, d, ws, s0, (set_depth (cell x y s0) d s0).
           repeat split; auto.
        -- rewrite list_lookup_insert_ne in Hl0 by congruence. now left.
      * right. exists ((x, y, d) :: ws1), x', y', d', ws2, s1, s2.
        repeat split; auto. cbn [writes]. now rewrite Hat.
Qed.

Lemma fresh_depth (W H : Z) (fn : F32.t -> pixel) (i : nat) (dv : F32.t) :
  depth (mk_screen W H fn) !! i = Some dv -> dv = #0%f32.
Proof. cbn [mk_screen depth]. intros [-> _]%lookup_replicate. reflexivity. Qed.

(** A write that is more than one unit farther is refused. *)
Lemma farther_write_refused (s : screen) (x y : Z) (d stored : F32.t) :
  wf s -> in_range x y s -> depth s !! cell x y s = Some stored ->
  (d >? stored + #1)%f32 = true -> at_depth x y d s = Ret (s, None).
Proof.
  intros Hwf Hr Hst Hgt. rewrite gtb_ltb in Hgt.
  now rewrite (at_depth_in_range s x y d stored Hwf Hr Hst), Hgt.
Qed.
End ColourRuns.

Module PipelineRuns.
Import Pipeline PipelineProps PipelineFacts.

Lemma chars_writes_invariant (W H : Z) (ws : list (Z * Z * F32.t)) :
  forall s0 : screen,
    wf s0 -> w s0 = W -> h s0 = H ->
    Forall (fun '(x, y, _) => 0 <= x < W /\ 0 <= y < H) ws ->
    exists s', writes ws s0 = Ret s' /\ wf s'
      /\ forall (i : nat) (dv : F32.t), depth s' !! i = Some dv ->
           depth s0 !! i = Some dv
           \/ exists ws1 x y d ws2 s1 s2,
                ws = ws1 ++ (x, y, d) :: ws2
                /\ writes ws1 s0 = Ret s1
                /\ at_depth x y d s1 = Ret (s2, Some i)
                /\ dv = d.
Proof.
  induction ws as [|[[x y] d] ws IH]; intros s0 Hwf HW HH Hall.
  - exists s0. split; [reflexivity|]. split; [exact Hwf|]. now left.
  - apply Forall_cons in Hall as [Hxy Hall].
    assert (Hr : in_range x y s0) by (unfold in_range; now rewrite HW, HH).
    destruct (chars_stored_depth_exists s0 x y Hwf Hr) as [st Hst].
    pose proof (chars_at_depth_in_range s0 x y d st Hwf Hr Hst) as Hat.
    destruct (st + #1 <? d)%f32.
    + destruct (IH s0 Hwf HW HH Hall) as (s' & Hrun & Hwf' & Hinv).
      exists s'. split; [cbn [writes]; now rewrite Hat|].
      split; [exact Hwf'|]. intros i dv Hl.
      destruct (Hinv i dv Hl)
        as [Hl0|(ws1 & x' & y' & d' & ws2 & s1 & s2 & -> & Hr1 & Hat1 & ->)];
        [now left|right].
      exists ((x, y, d) :: ws1), x', y', d', ws2, s1, s2.
      repeat split; auto. cbn [writes]. now rewrite Hat.
    + destruct (IH (set_depth (cell x y s0) d s0)
                  (chars_set_depth_wf _ _ _ Hwf) HW HH Hall)
        as (s' & Hrun & Hwf' & Hinv).
      exists s'. split; [cbn [writes]; now rewrite Hat|].
      split; [exact Hwf'|]. intros i dv Hl.
      destruct (Hinv i dv Hl)
        as [Hl0|(ws1 & x' & y' & d' & ws2 & s1 & s2 & -> & Hr1 & Hat1 & ->)].
      * cbn [set_depth depth] in Hl0.
        destruct (decide (i = cell x y s0)) as [->|Hne].
        -- rewrite list_lookup_insert_eq in Hl0
             by (rewrite (wf_depth s0 Hwf); now apply chars_cell_lt).
           injection Hl0 as <-. right.
           exists [], x, y, d, ws, s0, (set_depth (cell x y s0) d s0).
           repeat split; auto.
        -- rewrite list_lookup_insert_ne in Hl0 by congruence. now left.
      * right. exists ((x, y, d) :: ws1), x', y', d', ws2, s1, s2.
        repeat split; auto. cbn [writes]. now rewrite Hat.
Qed.

Lemma chars_fresh_depth (W H : Z) (i : nat) (dv : F32.t) :
  depth (mk_screen W H) !! i = Some dv -> dv = #0%f32.
Proof. cbn [mk_screen depth]. intros [-> _]%lookup_replicate. reflexivity. Qed.

Lemma chars_farther_write_refused (s : screen) (x y : Z) (d stored : F32.t) :
  wf s -> in_range x y s -> depth s !! cell x y s = Some stored ->
  (d >? stored + #1)%f32 = true -> at_depth x y d s = Ret (s, None).
Proof.
  intros Hwf Hr Hst Hgt. rewrite gtb_ltb in Hgt.
  now rewrite (chars_at_depth_in_range s x y d stored Hwf Hr Hst), Hgt.
Qed.
End PipelineRuns.

(** C2, as amended: after every sequence of depth-tested writes on cells
    of a freshly constructed grid (the run always returns), the depth
    stored in a cell is the initial [0] or the depth [d] of a write of the
    sequence that passed the test on that cell; and a write whose depth
    is greater than the stored depth plus one, [d > stored + 1], is
    refused and changes nothing.  (A write with
    [stored < d <= stored + 1] does replace the stored depth.)  Both
    revisions. *)
Theorem depth_buffer_invariant :
  (forall (W H : Z) (fn : F32.t -> Colour.pixel) (ws : list (Z * Z * F32.t)),
      0 < W -> 0 < H -> W * H <= INT_MAX ->
      Forall (fun '(x, y, _) => 0 <= x < W /\ 0 <= y < H) ws ->
      exists s', ColourProps.writes ws (Colour.mk_screen W H fn) = Ret s'
        /\ forall (i : nat) (dv : F32.t), Colour.depth s' !! i = Some dv ->
             dv = #0%f32
             \/ exists ws1 x y d ws2 s1 s2,
                  ws = ws1 ++ (x, y, d) :: ws2
                  /\ ColourProps.writes ws1 (Colour.mk_screen W H fn) = Ret s1
                  /\ Colour.at_depth x y d s1 = Ret (s2, Some i)
                  /\ dv = d)
  /\ (forall (s : Colour.screen) (x y : Z) (d stored : F32.t),
      ColourProps.wf s -> ColourProps.in_range x y s ->
      Colour.depth s !! ColourProps.cell x y s = Some stored ->
      (d >? stored + #1)%f32 = true -> Colour.at_depth x y d s = Ret (s, None))
  /\ (forall (W H : Z) (ws : list (Z * Z * F32.t)),
      0 < W -> 0 < H -> W * H < SIZE_MOD ->
      Forall (fun '(x, y, _) => 0 <= x < W /\ 0 <= y < H) ws ->
      exists s', PipelineProps.writes ws (Pipeline.mk_screen W H) = Ret s'
        /\ forall (i : nat) (dv : F32.t), Pipeline.depth s' !! i = Some dv ->
             dv = #0%f32
             \/ exists ws1 x y d ws2 s1 s2,
                  ws = ws1 ++ (x, y, d) :: ws2
                  /\ PipelineProps.writes ws1 (Pipeline.mk_screen W H) = Ret s1
                  /\ Pipeline.at_depth x y d s1 = Ret (s2, Some i)
                  /\ dv = d)
  /\ (forall (s : Pipeline.screen) (x y : Z) (d stored : F32.t),
      PipelineProps.wf s -> PipelineProps.in_range x y s ->
      Pipeline.depth s !! PipelineProps.cell x y s = Some stored ->
      (d >? stored + #1)%f32 = true -> Pipeline.at_depth x y d s = Ret (s, None)).
Proof.
  split; [|split; [|split]].
  - intros W H fn ws HW HH HS Hall.
    destruct (ColourRuns.writes_invariant W H ws (Colour.mk_screen W H fn)
                (ColourFacts.mk_screen_wf W H fn HW HH HS) eq_refl eq_refl Hall)
      as (s' & Hrun & _ & Hinv).
    exists s'. split; [exact Hrun|]. intros i dv Hl.
    destruct (Hinv i dv Hl) as [H0|Hw]; [left|now right].
    exact (ColourRuns.fresh_depth W H fn i dv H0).
  - exact ColourRuns.farther_write_refused.
  - intros W H ws HW HH HS Hall.
    destruct (PipelineRuns.chars_writes_invariant W H ws (Pipeline.mk_screen W H)
                (PipelineFacts.chars_mk_screen_wf W H HW HH HS) eq_refl eq_refl Hall)
      as (s' & Hrun & _ & Hinv).
    exists s'. split; [exact Hrun|]. intros i dv Hl.
    destruct (Hinv i dv Hl) as [H0|Hw]; [left|now right].
    exact (PipelineRuns.chars_fresh_depth W H i dv H0).
  - exact PipelineRuns.chars_farther_write_refused.
Qed.

(** C2, counterexample: on the fresh grid the cell [(0, 0)] stores [0];
    the write [at(0, 0, 1/2)] has a depth greater than the stored one and
    still replaces it. *)
Lemma farther_depth_overwrites :
  Colour.depth small_screen !! ColourProps.cell 0 0 small_screen = Some #0%f32
  /\ (half >? #0)%f32 = true
  /\ exists s1,
       Colour.at_depth 0 0 half small_screen
       = Ret (s1, Some (ColourProps.cell 0 0 small_screen))
       /\ Colour.depth s1 !! ColourProps.cell 0 0 small_screen = Some half
       /\ half <> #0%f32.
Proof.
  split; [reflexivity|]. split; [reflexivity|].
  eexists. split; [reflexivity|]. split; [reflexivity|]. discriminate.
Qed.

Lemma depth_tested_write_witness :
  exists stored,
    Colour.depth small_screen !! ColourProps.cell 1 1 small_screen = Some stored
    /\ ((stored + #1 <? half)%f32 = false ->
        Colour.at_depth 1 1 half small_screen
        = Ret (ColourProps.set_depth (ColourProps.cell 1 1 small_screen) half
                 small_screen,
               Some (ColourProps.cell 1 1 small_screen)))
    /\ ((stored + #1 <? half)%f32 = true ->
        Colour.at_depth 1 1 half small_screen = Ret (small_screen, None))
    /\ (F32.is_nan stored = false -> F32.is_nan half = false ->
        (succeeded (Colour.at_depth 1 1 half small_screen)
         <-> (half <=? stored + #1)%f32 = true)).
Proof.
  apply (proj1 depth_tested_write small_screen 1 1 half).
  - constructor; cbn; try reflexivity; unfold INT_MAX; lia.
  - unfold ColourProps.in_range; cbn; lia.
Defined.

Lemma depth_buffer_invariant_witness :
  exists s',
    ColourProps.writes [(0, 0, half); (1, 1, #3%f32); (0, 0, #1%f32)]
      (Colour.mk_screen 6 4 ColourProps.plain) = Ret s'
    /\ forall (i : nat) (dv : F32.t), Colour.depth s' !! i = Some dv ->
         dv = #0%f32
         \/ exists ws1 x y d ws2 s1 s2,
              [(0, 0, half); (1, 1, #3%f32); (0, 0, #1%f32)]
              = ws1 ++ (x, y, d) :: ws2
              /\ ColourProps.writes ws1 (Colour.mk_screen 6 4 ColourProps.plain)
                 = Ret s1
              /\ Colour.at_depth x y d s1 = Ret (s2, Some i)
              /\ dv = d.
Proof.
  apply (proj1 depth_buffer_invariant 6 4 ColourProps.plain).
  - lia.
  - lia.
  - unfold INT_MAX; lia.
  - repeat (constructor; [cbn; lia|]). constructor.
Defined.

(** ** The assertion of the accessors *)

Module ColourAssert.
Import Colour ColourProps.






End ColourAssert.

Module PipelineAssert.
Import Pipeline PipelineProps.


End PipelineAssert.





(** ** Degenerate triangles *)

Lemma sub_finite_l (a b : F32.t) :
  F32.is_finite (a - b)%f32 = true -> F32.is_finite a = true.
Proof.
  destruct a as [sa|sa| |sa ma ea], b as [sb|sb| |sb mb eb]; simpl;
    try reflexivity; try discriminate.
  destruct sa, sb; discriminate.
Qed.

Lemma zero_is_zero : F32.is_zero F32.zero = true.
Proof. reflexivity. Qed.

(** An edge whose two ends coincide admits every point at a finite
    offset: its edge function is a zero. *)
Lemma edge_coincident (p : vec4) (x y : F32.t) :
  F32.is_finite (vx p) = true -> F32.is_finite (vy p) = true ->
  F32.is_finite (x - vx p)%f32 = true -> F32.is_finite (y - vy p)%f32 = true ->
  Colour.edge p p x y = true.
Proof.
  intros Hpx Hpy Hx Hy. unfold Colour.edge.
  rewrite (sub_diag (vx p) Hpx), (sub_diag (vy p) Hpy).
  apply zero_nonneg, sub_zero_zero; apply mul_zero_r;
    auto using zero_is_zero.
Qed.

Lemma coincident_admits_point (p : vec4) (x y : F32.t) :
  F32.is_finite (vx p) = true -> F32.is_finite (vy p) = true ->
  F32.is_finite (x - vx p)%f32 = true -> F32.is_finite (y - vy p)%f32 = true ->
  Colour.inside_triangle p p p x y = true
  /\ Pipeline.inside_triangle p p p x y = true.
Proof.
  intros Hpx Hpy Hx Hy.
  pose proof (edge_coincident p x y Hpx Hpy Hx Hy) as He.
  unfold Colour.inside_triangle, Pipeline.inside_triangle.
  change Pipeline.edge with Colour.edge. now rewrite He.
Qed.

(** The plane through three coincident points has a zero normal: the
    depth is the quotient of two zeros. *)
Lemma coincident_depth_nan (p : vec4) (x y : F32.t) :
  finite_vertex p -> F32.is_finite x = true -> F32.is_finite y = true ->
  get_z_component p p p x y = F32.nan.
Proof.
  intros (Hpx & Hpy & Hpz) Hx Hy. unfold get_z_component.
  rewrite (sub_diag (vx p) Hpx), (sub_diag (vy p) Hpy), (sub_diag (vz p) Hpz).
  change (F32.zero * F32.zero - F32.zero * F32.zero)%f32 with F32.zero.
  apply div_zero_zero; [|reflexivity].
  assert (Hz : forall v, F32.is_finite v = true ->
                         F32.is_zero (F32.zero * v)%f32 = true)
    by (intros v Hv; now apply mul_zero_l).
  apply sub_zero_zero; [apply sub_zero_zero|].
  - apply mul_zero_l; [reflexivity|exact Hx].
  - now apply Hz.
  - apply opp_zero. repeat apply add_zero_zero; now apply Hz.
Qed.

(** The body of the loop of [draw] on a triangle with three coincident
    vertices.  When the vertices are the point [p] with finite
    coordinates, then at every pixel [(j, i)] of the grid whose sample
    point is at a finite offset from [p], [inside_triangle] admits the
    sample point, [get_z_component] divides zero by zero and returns a
    NaN, and the body passes the depth test, stores the NaN as the cell's
    depth and writes [shader(NaN)] into the cell. *)
Lemma coincident_pixel_is_written (p : vec4) (s : Colour.screen) (i j : Z) :
  finite_vertex p -> ColourProps.wf s -> ColourProps.in_range j i s ->
  F32.is_finite (Colour.to_cartesian j (Colour.w s) - vx p)%f32 = true ->
  F32.is_finite (Colour.to_cartesian i (Colour.h s) - vy p)%f32 = true ->
  Colour.inside_triangle p p p
    (Colour.to_cartesian j (Colour.w s)) (Colour.to_cartesian i (Colour.h s))
  = true
  /\ get_z_component p p p
       (Colour.to_cartesian j (Colour.w s)) (Colour.to_cartesian i (Colour.h s))
     = F32.nan
  /\ Colour.draw_pixel p p p i j s
     = Ret (Colour.store (ColourProps.cell j i s) (Colour.shader s F32.nan)
              (ColourProps.set_depth (ColourProps.cell j i s) F32.nan s)).
Proof.
  intros Hp Hwf Hr Hx Hy.
  pose proof Hp as (Hpx & Hpy & _).
  destruct (coincident_admits_point p _ _ Hpx Hpy Hx Hy) as [Hin _].
  pose proof (coincident_depth_nan p _ _ Hp (sub_finite_l _ _ Hx)
                (sub_finite_l _ _ Hy)) as Hd.
  split; [exact Hin|]. split; [exact Hd|].
  unfold Colour.draw_pixel. rewrite Hin, Hd.
  destruct (ColourFacts.stored_depth_exists s j i Hwf Hr) as [st Hst].
  rewrite (ColourFacts.at_depth_in_range s j i F32.nan st Hwf Hr Hst).
  rewrite ltb_nan_r. reflexivity.
Qed.

(** C7, counterexample: the triangle whose three vertices are the point
    [(0, 0, 1)] has zero area; its three projected vertices are the NDC
    point [(0, 0)].  [inside_triangle] admits the sample point of the
    pixel [(2, 1)] of the 6 x 4 grid, and [draw] returns a grid in which
    that cell's depth went from [0] to NaN and its content from the blank
    pixel to the shader's pixel. *)
Lemma degenerate_triangle_writes_pixels :
  Colour.project axis_point = Vec4 #0%f32 #0%f32 #(-1)%f32 #1%f32
  /\ Colour.inside_triangle (Colour.project axis_point)
       (Colour.project axis_point) (Colour.project axis_point)
       (Colour.to_cartesian 2 6) (Colour.to_cartesian 1 4) = true
  /\ Colour.depth small_screen !! ColourProps.cell 2 1 small_screen = Some #0%f32
  /\ Colour.buf small_screen !! ColourProps.cell 2 1 small_screen
     = Some Colour.blank
  /\ exists s1,
       Colour.draw axis_point axis_point axis_point small_screen = Ret s1
       /\ Colour.depth s1 !! ColourProps.cell 2 1 small_screen = Some F32.nan
       /\ Colour.buf s1 !! ColourProps.cell 2 1 small_screen
          = Some (ColourProps.plain F32.nan).
Proof.
  split; [vm_compute; reflexivity|]. split; [vm_compute; reflexivity|].
  split; [reflexivity|]. split; [reflexivity|].
  eexists. split; [vm_compute; reflexivity|].
  split; vm_compute; reflexivity.
Qed.

(** ** The bounding box *)

(** The greatest of three values below one and the constant one is the
    constant. *)
Lemma max_il_below_one (u v t : F32.t) :
  (u <? one)%f32 = true -> (v <? one)%f32 = true -> (t <? one)%f32 = true ->
  max_il u [v; t; one] = one.
Proof.
  intros Hu Hv Ht. unfold max_il. cbn [fold_left].
  destruct (u <? v)%f32, (v <? t)%f32, (u <? t)%f32;
    rewrite ?Hu, ?Hv, ?Ht; reflexivity.
Qed.

(** Whatever triangle lies below the right and bottom borders, the upper
    bounds of its box are those of the whole grid. *)
Lemma bounding_box_upper_bounds (a b c : vec4) (w h : Z) :
  (vx a <? one)%f32 = true -> (vx b <? one)%f32 = true ->
  (vx c <? one)%f32 = true -> (vy a <? one)%f32 = true ->
  (vy b <? one)%f32 = true -> (vy c <? one)%f32 = true ->
  vy (Colour.bounding_box a b c w h) = ((one + #1) * #(w - 1) / two)%f32
  /\ vw (Colour.bounding_box a b c w h) = ((one + #1) * #(h - 1) / two)%f32.
Proof.
  intros Hxa Hxb Hxc Hya Hyb Hyc. unfold Colour.bounding_box. cbn [vy vw].
  now rewrite !max_il_below_one.
Qed.

(** C4, evaluation at the failing input: the triangle [(-3, 0, 1)],
    [(0, 0, 1)], [(0, 5, 1)] projects to the NDC points [(-3, 0)],
    [(0, 0)], [(0, 5)]; on the 150 x 50 grid its box is
    [x] in [-149, 149], [y] in [24.5, 147]: the lower [x] bound is negative
    and the upper [y] bound is above the height.  On the 6 x 4 grid
    [draw] of this triangle stops on the assertion of [at]. *)
Theorem bounding_box_leaves_screen :
  Colour.project far_left = Vec4 #(-3)%f32 #0%f32 #(-1)%f32 #1%f32
  /\ Colour.project axis_point = Vec4 #0%f32 #0%f32 #(-1)%f32 #1%f32
  /\ Colour.project far_up = Vec4 #0%f32 #5%f32 #(-1)%f32 #1%f32
  /\ Colour.bounding_box (Colour.project far_left) (Colour.project axis_point)
       (Colour.project far_up) 150 50
     = Vec4 #(-149)%f32 #149%f32 (F32.of_scaled 49 (-1)) #147%f32
  /\ (#(-149) <? #0)%f32 = true
  /\ (#50 <? #147)%f32 = true
  /\ Colour.draw far_left axis_point far_up small_screen = AssertFail.
Proof. vm_compute. repeat split. Qed.

(** C5, evaluation at the failing input: the triangle [(-1/2, -1/2, 1)],
    [(1/2, -1/2, 1)], [(0, 1/2, 1)] projects to NDC points strictly inside
    the square; on the 150 x 50 grid its box is [x] in [37.25, 149],
    [y] in [12.25, 49]: the upper bounds are the last column [150 - 1] and
    the last row [50 - 1], not below them. *)
Theorem bounding_box_inside_reaches_last_pixel :
  Colour.project in_a = Vec4 (- half)%f32 (- half)%f32 #(-1)%f32 #1%f32
  /\ Colour.project in_b = Vec4 half (- half)%f32 #(-1)%f32 #1%f32
  /\ Colour.project in_c = Vec4 #0%f32 half #(-1)%f32 #1%f32
  /\ Colour.bounding_box (Colour.project in_a) (Colour.project in_b)
       (Colour.project in_c) 150 50
     = Vec4 (F32.of_scaled 149 (-2)) #(150 - 1)%f32
            (F32.of_scaled 49 (-2)) #(50 - 1)%f32.
Proof. vm_compute. repeat split. Qed.

(** * Further properties of the code *)

(** ** Loops *)

Lemma run_add {St R : Type} (step : St -> outcome (St + R)) (a b : nat) :
  forall s : St,
    run (a + b) step s
    = let! r := run a step s in
      match r with
      | inl s1 => run b step s1
      | inr _ => Ret r
      end.
Proof.
  induction a as [|a IH]; intros s; [reflexivity|].
  cbn [run Nat.add]. destruct (step s) as [[s1|r]| |]; cbn [bind]; auto.
Qed.

(** The binary bound counts rounds like the unary one. *)
Lemma iterate_run {St R : Type} (step : St -> outcome (St + R)) (n : positive) :
  forall s : St, iterate n step s = run (Pos.to_nat n) step s.
Proof.
  induction n as [p IH|p IH|]; intros s.
  - rewrite Pos2Nat.inj_xI. cbn [iterate run].
    destruct (step s) as [[s1|r]| |]; cbn [bind]; auto.
    replace (2 * Pos.to_nat p)%nat with (Pos.to_nat p + Pos.to_nat p)%nat by lia.
    rewrite run_add, <- IH.
    destruct (iterate p step s1) as [[s2|r]| |]; cbn [bind]; auto.
  - rewrite Pos2Nat.inj_xO. cbn [iterate].
    replace (2 * Pos.to_nat p)%nat with (Pos.to_nat p + Pos.to_nat p)%nat by lia.
    rewrite run_add, <- IH.
    destruct (iterate p step s) as [[s2|r]| |]; cbn [bind]; auto.
  - rewrite Pos2Nat.inj_1. cbn [iterate run].
    destruct (step s) as [[s1|r]| |]; reflexivity.
Qed.

(** A [std::size_t] loop is its body at the indices [0 .. n - 1]. *)
Lemma run_size_step {St : Type} (n : Z) (body : Z -> St -> outcome St) :
  n < SIZE_MOD ->
  forall (cnt : nat) (i : Z) (s : St) (k : nat),
    0 <= i -> i + Z.of_nat cnt = n -> (cnt < k)%nat ->
    run k (size_step n body) (i, s)
    = let! s1 := fold_range body cnt i s in Ret (inr s1).
Proof.
  intros Hn. induction cnt as [|c IH]; intros i s k Hi Hc Hk;
    (destruct k as [|k]; [lia|]); cbn [run size_step fold_range].
  - destruct (Z.ltb_spec i n); [lia|]. reflexivity.
  - destruct (Z.ltb_spec i n); [|lia].
    destruct (body i s) as [s1| |]; cbn [bind]; auto.
    unfold size_add. rewrite Z.mod_small by lia.
    apply IH; lia.
Qed.

Lemma for_size_fold {St : Type} (n : Z) (body : Z -> St -> outcome St) (s : St) :
  0 <= n < SIZE_MOD ->
  for_size n body s = fold_range body (Z.to_nat n) 0 s.
Proof.
  intros [H0 Hn]. unfold for_size. rewrite iterate_run.
  rewrite (run_size_step n body Hn (Z.to_nat n) 0 s); try lia.
  - destruct (fold_range body (Z.to_nat n) 0 s); reflexivity.
  - apply Nat2Z.inj_lt. rewrite positive_nat_Z, Z2Nat.id by lia.
    exact Hn.
Qed.

(** What holds before a loop and is kept by every round holds after it. *)
Lemma fold_range_inv {St : Type} (body : Z -> St -> outcome St)
    (P : Z -> St -> Prop) :
  forall (cnt : nat) (i : Z) (s s' : St),
    (forall j s0 s1, i <= j < i + Z.of_nat cnt -> P j s0 ->
                     body j s0 = Ret s1 -> P (j + 1) s1) ->
    P i s -> fold_range body cnt i s = Ret s' -> P (i + Z.of_nat cnt) s'.
Proof.
  induction cnt as [|c IH]; intros i s s' Hstep HP Hrun; cbn [fold_range] in Hrun.
  - injection Hrun as <-. now rewrite Z.add_0_r.
  - destruct (body i s) as [s1| |] eqn:Hb; cbn [bind] in Hrun; try discriminate.
    replace (i + Z.of_nat (S c)) with (i + 1 + Z.of_nat c) by lia.
    apply (IH (i + 1) s1 s'); auto.
    + intros j s0 s2 Hj. apply Hstep. lia.
    + apply (Hstep i s s1); auto. lia.
Qed.

(** A loop whose rounds all return does return. *)
Lemma fold_range_total {St : Type} (body : Z -> St -> outcome St)
    (P : Z -> St -> Prop) :
  forall (cnt : nat) (i : Z) (s : St),
    (forall j s0, i <= j < i + Z.of_nat cnt -> P j s0 ->
                  exists s1, body j s0 = Ret s1 /\ P (j + 1) s1) ->
    P i s -> exists s', fold_range body cnt i s = Ret s'.
Proof.
  induction cnt as [|c IH]; intros i s Hstep HP; cbn [fold_range].
  - now exists s.
  - destruct (Hstep i s) as (s1 & -> & HP1); [lia|exact HP|]. cbn [bind].
    apply (IH (i + 1) s1); auto.
    intros j s0 Hj. apply Hstep. lia.
Qed.

Lemma run_inv {St R : Type} (step : St -> outcome (St + R))
    (P : St -> Prop) (Q : outcome (St + R) -> Prop) :
  (forall s, P s ->
     match step s with
     | Ret (inl s1) => P s1
     | o => Q o
     end) ->
  forall (k : nat) (s : St), P s ->
    match run k step s with
    | Ret (inl s1) => P s1
    | o => Q o
    end.
Proof.
  intros Hstep. induction k as [|k IH]; intros s HP; cbn [run]; [exact HP|].
  pose proof (Hstep s HP) as H.
  destruct (step s) as [[s1|r]| |]; cbn [bind]; try exact H.
  apply IH, H.
Qed.

(** An [int] loop keeps what each of its rounds keeps. *)
Lemma for_int_inv {St : Type} (lo : Z) (hi : F32.t)
    (body : Z -> St -> outcome St) (P : St -> Prop) (s s' : St) :
  (forall i s0 s1, P s0 -> body i s0 = Ret s1 -> P s1) ->
  P s -> for_int lo hi body s = Ret s' -> P s'.
Proof.
  intros Hbody HP. unfold for_int. rewrite iterate_run.
  generalize (Pos.to_nat (2 ^ 32)). intros fuel.
  match goal with |- context [run fuel ?f ?x] => set (step := f) end.
  pose proof (run_inv step (fun st => P (snd st))
                (fun o => forall r, o = Ret (inr r) -> P r)) as Hinv.
  specialize (Hinv) with (k := fuel) (s := (lo, s)).
  intros Hrun.
  destruct (run fuel step (lo, s)) as [[st|r]| |] eqn:Hr; cbn [bind] in Hrun;
    try discriminate.
  injection Hrun as <-. apply Hinv; auto.
  intros [i s0] HP0. unfold step.
  destruct (#i <? hi)%f32.
  - destruct (body i s0) as [s1| |] eqn:Hb; cbn [bind]; try discriminate.
    destruct (int_add i 1); cbn [bind]; try discriminate.
    exact (Hbody i s0 s1 HP0 Hb).
  - intros r0 H0. injection H0 as <-. exact HP0.
Qed.

(** An [int] loop whose test first fails at [last] is its body at the
    indices [first .. last - 1]. *)
Lemma run_int_step {St : Type} (hi : F32.t) (body : Z -> St -> outcome St)
    (last : Z) :
  last <= INT_MAX -> (#last <? hi)%f32 = false ->
  forall (cnt : nat) (i : Z) (s : St) (k : nat),
    INT_MIN <= i -> i + Z.of_nat cnt = last ->
    (forall j, i <= j < last -> (#j <? hi)%f32 = true) ->
    (cnt < k)%nat ->
    run k (fun st : Z * St =>
             let '(i, s0) := st in
             if (#i <? hi)%f32 then
               let! s1 := body i s0 in
               let! i1 := int_add i 1 in
               Ret (inl (i1, s1))
             else Ret (inr s0)) (i, s)
    = let! s1 := fold_range body cnt i s in Ret (inr s1).
Proof.
  intros Hmax Hend.
  induction cnt as [|c IH]; intros i s k Hi Hc Ht Hk;
    (destruct k as [|k]; [lia|]); cbn [run fold_range].
  - replace i with last by lia. rewrite Hend. reflexivity.
  - rewrite (Ht i) by lia.
    destruct (body i s) as [s1| |]; cbn [bind]; auto.
    unfold int_add. rewrite int_result_ok by lia. cbn [bind].
    apply IH; try lia. intros j Hj. apply Ht. lia.
Qed.

Lemma for_int_fold {St : Type} (hi : F32.t) (body : Z -> St -> outcome St)
    (first last : Z) (s : St) :
  INT_MIN <= first -> first <= last <= INT_MAX ->
  (forall k, first <= k < last -> (#k <? hi)%f32 = true) ->
  (#last <? hi)%f32 = false ->
  for_int first hi body s = fold_range body (Z.to_nat (last - first)) first s.
Proof.
  intros Hmin [Hle Hmax] Ht Hend. unfold for_int. rewrite iterate_run.
  rewrite (run_int_step hi body last Hmax Hend (Z.to_nat (last - first)));
    try lia; auto.
  - destruct (fold_range body _ first s); reflexivity.
  - apply Nat2Z.inj_lt. rewrite positive_nat_Z, Z2Nat.id by lia.
    unfold INT_MIN, INT_MAX in *. lia.
Qed.

(** A loop whose rounds all return and keep [P] returns, with [P]. *)
Lemma fold_range_ret {St : Type} (body : Z -> St -> outcome St)
    (P : Z -> St -> Prop) :
  forall (cnt : nat) (i : Z) (s : St),
    (forall j s0, i <= j < i + Z.of_nat cnt -> P j s0 ->
                  exists s1, body j s0 = Ret s1 /\ P (j + 1) s1) ->
    P i s ->
    exists s', fold_range body cnt i s = Ret s' /\ P (i + Z.of_nat cnt) s'.
Proof.
  induction cnt as [|c IH]; intros i s Hstep HP; cbn [fold_range].
  - exists s. now rewrite Z.add_0_r.
  - destruct (Hstep i s) as (s1 & -> & HP1); [lia|exact HP|]. cbn [bind].
    replace (i + Z.of_nat (S c)) with (i + 1 + Z.of_nat c) by lia.
    apply (IH (i + 1) s1); auto.
    intros j s0 Hj. apply Hstep. lia.
Qed.

Lemma fold_range_ext {St : Type} (body body' : Z -> St -> outcome St) :
  (forall j s, body j s = body' j s) ->
  forall (cnt : nat) (i : Z) (s : St),
    fold_range body cnt i s = fold_range body' cnt i s.
Proof.
  intros He. induction cnt as [|c IH]; intros i s; cbn [fold_range]; auto.
  rewrite He. destruct (body' i s); cbn [bind]; auto.
Qed.

(** ** The grid: layout, reads and writes *)

(** Row-major indexing does not alias inside the grid. *)
Lemma flat_index_inj (w0 x y x' y' : Z) :
  0 <= x < w0 -> 0 <= x' < w0 -> y * w0 + x = y' * w0 + x' ->
  x = x' /\ y = y'.
Proof.
  intros Hx Hx' He.
  assert (Hy : y = y').
  { destruct (Z.lt_trichotomy y y') as [Hlt|[Heq|Hgt]]; [|exact Heq|].
    - assert (y * w0 + w0 <= y' * w0) by nia. lia.
    - assert (y' * w0 + w0 <= y * w0) by nia. lia. }
  subst y'. lia.
Qed.

Module ColourGrid.
Import Colour ColourProps ColourFacts.

Lemma cell_inj (s : screen) (x y x' y' : Z) :
  wf s -> in_range x y s -> in_range x' y' s ->
  cell x y s = cell x' y' s -> x = x' /\ y = y'.
Proof.
  intros Hwf Hr Hr' Hc.
  pose proof (flat_index_bounds s x y Hwf Hr) as [_ H1].
  pose proof (flat_index_bounds s x' y' Hwf Hr') as [_ H2].
  destruct Hr as [Hx _], Hr' as [Hx' _]. unfold cell in Hc.
  apply (flat_index_inj (w s)); auto. lia.
Qed.

Lemma at_const_in_range (s : screen) (x y : Z) (p : pixel) :
  wf s -> in_range x y s -> buf s !! cell x y s = Some p ->
  at_const x y s = Ret p.
Proof.
  intros Hwf Hr Hp. unfold at_const.
  rewrite (checked_index_in_range s x y Hwf Hr). cbn [bind].
  pose proof (flat_index_bounds s x y Hwf Hr) as [_ H1].
  apply array_get_Some; [lia|exact Hp].
Qed.

Lemma store_wf (s : screen) (i : nat) (p : pixel) : wf s -> wf (store i p s).
Proof. intros []. constructor; simpl; auto. now rewrite length_insert. Qed.

Lemma colour_write_read (s s1 : screen) (x y : Z) (d : F32.t) (i : nat)
    (p : pixel) :
  wf s -> in_range x y s -> at_depth x y d s = Ret (s1, Some i) ->
  wf (store i p s1)
  /\ at_const x y (store i p s1) = Ret p
  /\ depth (store i p s1) !! cell x y s = Some d
  /\ (forall x' y', in_range x' y' s -> (x', y') <> (x, y) ->
        at_const x' y' (store i p s1) = at_const x' y' s
        /\ depth (store i p s1) !! cell x' y' s = depth s !! cell x' y' s).
Proof.
  intros Hwf Hr Hat.
  destruct (stored_depth_exists s x y Hwf Hr) as [st Hst].
  rewrite (at_depth_in_range s x y d st Hwf Hr Hst) in Hat.
  destruct (st + #1 <? d)%f32; [discriminate|].
  injection Hat as <- <-.
  pose proof (cell_lt s x y Hwf Hr) as Hlt.
  assert (Hwf1 : wf (store (cell x y s) p (set_depth (cell x y s) d s)))
    by now apply store_wf, set_depth_wf.
  split; [exact Hwf1|]. split; [|split].
  - apply at_const_in_range; auto. cbn [store set_depth buf cell w].
    apply list_lookup_insert_eq. now rewrite (wf_buf s Hwf).
  - cbn [store set_depth depth].
    apply list_lookup_insert_eq. now rewrite (wf_depth s Hwf).
  - intros x' y' Hr' Hne.
    assert (Hc : cell x y s <> cell x' y' s).
    { intros Hc. destruct (cell_inj s x y x' y' Hwf Hr Hr' Hc). congruence. }
    destruct (cell_content_exists s x' y' Hwf Hr') as [q Hq].
    split.
    + rewrite (at_const_in_range s x' y' q Hwf Hr' Hq).
      apply at_const_in_range; auto. cbn [store set_depth buf cell w].
      now rewrite list_lookup_insert_ne.
    + cbn [store set_depth depth]. now rewrite list_lookup_insert_ne.
Qed.

(** Repeating a depth-tested write changes nothing further. *)
Lemma colour_write_twice (s s1 : screen) (x y : Z) (d : F32.t)
    (r1 : option nat) :
  wf s -> in_range x y s -> at_depth x y d s = Ret (s1, r1) ->
  exists r2, at_depth x y d s1 = Ret (s1, r2).
Proof.
  intros Hwf Hr Hat.
  destruct (stored_depth_exists s x y Hwf Hr) as [st Hst].
  pose proof Hat as Hat0.
  rewrite (at_depth_in_range s x y d st Hwf Hr Hst) in Hat.
  destruct (st + #1 <? d)%f32.
  - injection Hat as <- <-. now exists None.
  - injection Hat as <- <-.
    pose proof (cell_lt s x y Hwf Hr) as Hlt.
    assert (Hr1 : in_range x y (set_depth (cell x y s) d s)) by exact Hr.
    assert (Hst1 : depth (set_depth (cell x y s) d s)
                     !! cell x y (set_depth (cell x y s) d s) = Some d).
    { cbn [set_depth depth cell w]. apply list_lookup_insert_eq.
      now rewrite (wf_depth s Hwf). }
    rewrite (at_depth_in_range _ x y d d (set_depth_wf _ _ _ Hwf) Hr1 Hst1).
    destruct (d + #1 <? d)%f32; [now exists None|].
    exists (Some (cell x y s)). unfold set_depth at 1. cbn [shader buf depth w h cell].
    unfold set_depth. cbn [shader buf depth w h].
    now rewrite list_insert_insert_eq.
Qed.

(** The freshly constructed grid. *)
Lemma colour_fresh_cells (W H : Z) (fn : F32.t -> pixel) (x y : Z) :
  0 < W -> 0 < H -> W * H <= INT_MAX -> 0 <= x < W -> 0 <= y < H ->
  at_const x y (mk_screen W H fn) = Ret blank
  /\ depth (mk_screen W H fn) !! cell x y (mk_screen W H fn) = Some #0%f32.
Proof.
  intros HW HH HS Hx Hy.
  pose proof (mk_screen_wf W H fn HW HH HS) as Hwf.
  assert (Hr : in_range x y (mk_screen W H fn)) by (split; assumption).
  pose proof (cell_lt _ x y Hwf Hr) as Hlt.
  split.
  - apply at_const_in_range; auto. cbn [mk_screen buf].
    apply lookup_replicate. split; [reflexivity|exact Hlt].
  - cbn [mk_screen depth]. apply lookup_replicate.
    split; [reflexivity|exact Hlt].
Qed.
End ColourGrid.

Module PipelineGrid.
Import Pipeline PipelineProps PipelineFacts.

Lemma chars_cell_inj (s : screen) (x y x' y' : Z) :
  wf s -> in_range x y s -> in_range x' y' s ->
  cell x y s = cell x' y' s -> x = x' /\ y = y'.
Proof.
  intros Hwf Hr Hr' Hc.
  pose proof (chars_flat_index_bounds s x y Hwf Hr) as [_ H1].
  pose proof (chars_flat_index_bounds s x' y' Hwf Hr') as [_ H2].
  destruct Hr as [Hx _], Hr' as [Hx' _]. unfold cell in Hc.
  apply (flat_index_inj (w s)); auto. lia.
Qed.

Lemma at_ref_in_range (s : screen) (x y : Z) :
  wf s -> in_range x y s -> at_ref x y s = Ret (cell x y s).
Proof.
  intros Hwf Hr. unfold at_ref.
  destruct (chars_flat_index_no_wrap s x y Hwf Hr) as [-> ->].
  pose proof (chars_flat_index_bounds s x y Hwf Hr) as [H0 H1].
  destruct (chars_cell_content_exists s x y Hwf Hr) as [c Hc].
  rewrite assert_true by (apply Z.ltb_lt; lia). cbn [bind].
  unfold cell in *.
  rewrite (array_get_Some _ _ c) by (lia || assumption). reflexivity.
Qed.

Lemma at_value_in_range (s : screen) (x y c : Z) :
  wf s -> in_range x y s -> buf s !! cell x y s = Some c ->
  at_value x y s = Ret c.
Proof.
  intros Hwf Hr Hc. unfold at_value.
  rewrite (at_ref_in_range s x y Hwf Hr). cbn [bind].
  apply array_get_Some; [lia|now rewrite Nat2Z.id].
Qed.

Lemma chars_store_wf (s : screen) (i : nat) (c : Z) : wf s -> wf (store i c s).
Proof. intros []. constructor; simpl; auto. now rewrite length_insert. Qed.

Lemma chars_write_read (s s1 : screen) (x y : Z) (d : F32.t) (i : nat) (c : Z) :
  wf s -> in_range x y s -> at_depth x y d s = Ret (s1, Some i) ->
  wf (store i c s1)
  /\ at_value x y (store i c s1) = Ret c
  /\ depth (store i c s1) !! cell x y s = Some d
  /\ (forall x' y', in_range x' y' s -> (x', y') <> (x, y) ->
        at_value x' y' (store i c s1) = at_value x' y' s
        /\ depth (store i c s1) !! cell x' y' s = depth s !! cell x' y' s).
Proof.
  intros Hwf Hr Hat.
  destruct (chars_stored_depth_exists s x y Hwf Hr) as [st Hst].
  rewrite (chars_at_depth_in_range s x y d st Hwf Hr Hst) in Hat.
  destruct (st + #1 <? d)%f32; [discriminate|].
  injection Hat as <- <-.
  pose proof (chars_cell_lt s x y Hwf Hr) as Hlt.
  assert (Hwf1 : wf (store (cell x y s) c (set_depth (cell x y s) d s)))
    by now apply chars_store_wf, chars_set_depth_wf.
  split; [exact Hwf1|]. split; [|split].
  - apply at_value_in_range; auto. cbn [store set_depth buf cell w].
    apply list_lookup_insert_eq. now rewrite (wf_buf s Hwf).
  - cbn [store set_depth depth].
    apply list_lookup_insert_eq. now rewrite (wf_depth s Hwf).
  - intros x' y' Hr' Hne.
    assert (Hc : cell x y s <> cell x' y' s).
    { intros Hc. destruct (chars_cell_inj s x y x' y' Hwf Hr Hr' Hc).
      congruence. }
    destruct (chars_cell_content_exists s x' y' Hwf Hr') as [q Hq].
    split.
    + rewrite (at_value_in_range s x' y' q Hwf Hr' Hq).
      apply at_value_in_range; auto. cbn [store set_depth buf cell w].
      now rewrite list_lookup_insert_ne.
    + cbn [store set_depth depth]. now rewrite list_lookup_insert_ne.
Qed.

Lemma chars_write_twice (s s1 : screen) (x y : Z) (d : F32.t)
    (r1 : option nat) :
  wf s -> in_range x y s -> at_depth x y d s = Ret (s1, r1) ->
  exists r2, at_depth x y d s1 = Ret (s1, r2).
Proof.
  intros Hwf Hr Hat.
  destruct (chars_stored_depth_exists s x y Hwf Hr) as [st Hst].
  pose proof Hat as Hat0.
  rewrite (chars_at_depth_in_range s x y d st Hwf Hr Hst) in Hat.
  destruct (st + #1 <? d)%f32.
  - injection Hat as <- <-. now exists None.
  - injection Hat as <- <-.
    pose proof (chars_cell_lt s x y Hwf Hr) as Hlt.
    assert (Hr1 : in_range x y (set_depth (cell x y s) d s)) by exact Hr.
    assert (Hst1 : depth (set_depth (cell x y s) d s)
                     !! cell x y (set_depth (cell x y s) d s) = Some d).
    { cbn [set_depth depth cell w]. apply list_lookup_insert_eq.
      now rewrite (wf_depth s Hwf). }
    rewrite (chars_at_depth_in_range _ x y d d
               (chars_set_depth_wf _ _ _ Hwf) Hr1 Hst1).
    destruct (d + #1 <? d)%f32; [now exists None|].
    exists (Some (cell x y s)). unfold set_depth at 1. cbn [buf depth w h cell].
    unfold set_depth. cbn [buf depth w h].
    now rewrite list_insert_insert_eq.
Qed.

Lemma chars_fresh_cells (W H : Z) (x y : Z) :
  0 < W -> 0 < H -> W * H < SIZE_MOD -> 0 <= x < W -> 0 <= y < H ->
  at_value x y (mk_screen W H) = Ret dot
  /\ depth (mk_screen W H) !! cell x y (mk_screen W H) = Some #0%f32.
Proof.
  intros HW HH HS Hx Hy.
  pose proof (chars_mk_screen_wf W H HW HH HS) as Hwf.
  assert (Hr : in_range x y (mk_screen W H)) by (split; assumption).
  pose proof (chars_cell_lt _ x y Hwf Hr) as Hlt.
  split.
  - apply at_value_in_range; auto. cbn [mk_screen buf].
    apply lookup_replicate. split; [reflexivity|exact Hlt].
  - cbn [mk_screen depth]. apply lookup_replicate.
    split; [reflexivity|exact Hlt].
Qed.
End PipelineGrid.

(** X1: after a successful depth-tested write on a cell of the grid and
    a store through the returned handle, the cell reads back the stored
    content and the written depth, and every other cell of the grid reads
    as before.  Both revisions. *)
Theorem write_then_read_back :
  (forall (s s1 : Colour.screen) (x y : Z) (d : F32.t) (i : nat)
          (p : Colour.pixel),
      ColourProps.wf s -> ColourProps.in_range x y s ->
      Colour.at_depth x y d s = Ret (s1, Some i) ->
      ColourProps.wf (Colour.store i p s1)
      /\ Colour.at_const x y (Colour.store i p s1) = Ret p
      /\ Colour.depth (Colour.store i p s1) !! ColourProps.cell x y s = Some d
      /\ (forall x' y', ColourProps.in_range x' y' s -> (x', y') <> (x, y) ->
            Colour.at_const x' y' (Colour.store i p s1) = Colour.at_const x' y' s
            /\ Colour.depth (Colour.store i p s1) !! ColourProps.cell x' y' s
               = Colour.depth s !! ColourProps.cell x' y' s))
  /\ (forall (s s1 : Pipeline.screen) (x y : Z) (d : F32.t) (i : nat) (c : Z),
      PipelineProps.wf s -> PipelineProps.in_range x y s ->
      Pipeline.at_depth x y d s = Ret (s1, Some i) ->
      PipelineProps.wf (Pipeline.store i c s1)
      /\ Pipeline.at_value x y (Pipeline.store i c s1) = Ret c
      /\ Pipeline.depth (Pipeline.store i c s1) !! PipelineProps.cell x y s
         = Some d
      /\ (forall x' y', PipelineProps.in_range x' y' s -> (x', y') <> (x, y) ->
            Pipeline.at_value x' y' (Pipeline.store i c s1)
            = Pipeline.at_value x' y' s
            /\ Pipeline.depth (Pipeline.store i c s1) !! PipelineProps.cell x' y' s
               = Pipeline.depth s !! PipelineProps.cell x' y' s)).
Proof.
  split.
  - exact ColourGrid.colour_write_read.
  - exact PipelineGrid.chars_write_read.
Qed.

Lemma write_then_read_back_witness :
  ColourProps.wf
    (Colour.store 7 Colour.blank (ColourProps.set_depth 7 half small_screen))
  /\ Colour.at_const 1 1
       (Colour.store 7 Colour.blank (ColourProps.set_depth 7 half small_screen))
     = Ret Colour.blank
  /\ Colour.depth
       (Colour.store 7 Colour.blank (ColourProps.set_depth 7 half small_screen))
       !! ColourProps.cell 1 1 small_screen = Some half
  /\ (forall x' y', ColourProps.in_range x' y' small_screen ->
        (x', y') <> (1, 1) ->
        Colour.at_const x' y'
          (Colour.store 7 Colour.blank
             (ColourProps.set_depth 7 half small_screen))
        = Colour.at_const x' y' small_screen
        /\ Colour.depth
             (Colour.store 7 Colour.blank
                (ColourProps.set_depth 7 half small_screen))
             !! ColourProps.cell x' y' small_screen
           = Colour.depth small_screen !! ColourProps.cell x' y' small_screen).
Proof.
  apply (proj1 write_then_read_back small_screen
           (ColourProps.set_depth 7 half small_screen) 1 1 half 7%nat
           Colour.blank).
  - constructor; cbn; try reflexivity; unfold INT_MAX; lia.
  - unfold ColourProps.in_range; cbn; lia.
  - reflexivity.
Defined.

(** X2: a depth-tested write repeated on the same cell with the same
    depth leaves the grid exactly as the first call left it, whether the
    calls pass the test or not.  Both revisions. *)
Theorem repeated_write_changes_nothing :
  (forall (s s1 : Colour.screen) (x y : Z) (d : F32.t) (r1 : option nat),
      ColourProps.wf s -> ColourProps.in_range x y s ->
      Colour.at_depth x y d s = Ret (s1, r1) ->
      exists r2, Colour.at_depth x y d s1 = Ret (s1, r2))
  /\ (forall (s s1 : Pipeline.screen) (x y : Z) (d : F32.t) (r1 : option nat),
      PipelineProps.wf s -> PipelineProps.in_range x y s ->
      Pipeline.at_depth x y d s = Ret (s1, r1) ->
      exists r2, Pipeline.at_depth x y d s1 = Ret (s1, r2)).
Proof.
  split.
  - exact ColourGrid.colour_write_twice.
  - exact PipelineGrid.chars_write_twice.
Qed.

Lemma repeated_write_changes_nothing_witness :
  exists r2,
    Colour.at_depth 1 1 half (ColourProps.set_depth 7 half small_screen)
    = Ret (ColourProps.set_depth 7 half small_screen, r2).
Proof.
  apply (proj1 repeated_write_changes_nothing small_screen
           (ColourProps.set_depth 7 half small_screen) 1 1 half (Some 7%nat)).
  - constructor; cbn; try reflexivity; unfold INT_MAX; lia.
  - unfold ColourProps.in_range; cbn; lia.
  - reflexivity.
Defined.

(** X3: the constructor leaves every cell of the grid with the
    background content (a black space, resp. ['.']) and depth [0]; so the
    first write on a cell is refused exactly when [1 < d].  Both
    revisions. *)
Theorem fresh_grid_contents :
  (forall (W H : Z) (fn : F32.t -> Colour.pixel) (x y : Z) (d : F32.t),
      0 < W -> 0 < H -> W * H <= INT_MAX -> 0 <= x < W -> 0 <= y < H ->
      Colour.at_const x y (Colour.mk_screen W H fn) = Ret Colour.blank
      /\ Colour.depth (Colour.mk_screen W H fn)
           !! ColourProps.cell x y (Colour.mk_screen W H fn) = Some #0%f32
      /\ (succeeded (Colour.at_depth x y d (Colour.mk_screen W H fn))
          <-> (#1 <? d)%f32 = false))
  /\ (forall (W H : Z) (x y : Z) (d : F32.t),
      0 < W -> 0 < H -> W * H < SIZE_MOD -> 0 <= x < W -> 0 <= y < H ->
      Pipeline.at_value x y (Pipeline.mk_screen W H) = Ret Pipeline.dot
      /\ Pipeline.depth (Pipeline.mk_screen W H)
           !! PipelineProps.cell x y (Pipeline.mk_screen W H) = Some #0%f32
      /\ (succeeded (Pipeline.at_depth x y d (Pipeline.mk_screen W H))
          <-> (#1 <? d)%f32 = false)).
Proof.
  split.
  - intros W H fn x y d HW HH HS Hx Hy.
    destruct (ColourGrid.colour_fresh_cells W H fn x y HW HH HS Hx Hy)
      as [Hc Hd].
    split; [exact Hc|]. split; [exact Hd|].
    rewrite (ColourFacts.at_depth_in_range _ x y d _
               (ColourFacts.mk_screen_wf W H fn HW HH HS)
               (conj Hx Hy) Hd).
    change (#0 + #1)%f32 with #1%f32.
    destruct (#1 <? d)%f32; split; intros Hs; try reflexivity.
    + destruct (not_succeeded_None _ Hs).
    + discriminate Hs.
    + apply succeeded_Some.
  - intros W H x y d HW HH HS Hx Hy.
    destruct (PipelineGrid.chars_fresh_cells W H x y HW HH HS Hx Hy)
      as [Hc Hd].
    split; [exact Hc|]. split; [exact Hd|].
    rewrite (PipelineFacts.chars_at_depth_in_range _ x y d _
               (PipelineFacts.chars_mk_screen_wf W H HW HH HS)
               (conj Hx Hy) Hd).
    change (#0 + #1)%f32 with #1%f32.
    destruct (#1 <? d)%f32; split; intros Hs; try reflexivity.
    + destruct (not_succeeded_None _ Hs).
    + discriminate Hs.
    + apply succeeded_Some.
Qed.

Lemma fresh_grid_contents_witness :
  Colour.at_const 149 49 (Colour.mk_screen 150 50 ColourProps.plain)
  = Ret Colour.blank
  /\ Colour.depth (Colour.mk_screen 150 50 ColourProps.plain)
       !! ColourProps.cell 149 49 (Colour.mk_screen 150 50 ColourProps.plain)
     = Some #0%f32
  /\ (succeeded (Colour.at_depth 149 49 half
                   (Colour.mk_screen 150 50 ColourProps.plain))
      <-> (#1 <? half)%f32 = false).
Proof.
  apply (proj1 fresh_grid_contents 150 50 ColourProps.plain 149 49 half);
    unfold INT_MAX; lia.
Defined.

(** X4: in the [int] revision the assertion does not guard against a
    negative flat index.  On a well-formed grid, when [y * w] and
    [y * w + x] do not overflow and [y * w + x < 0], the assertion passes
    and the array access is outside the buffer: every accessor has
    undefined behaviour. *)
Theorem negative_index_is_not_asserted
    (s : Colour.screen) (x y : Z) (d : F32.t) :
  ColourProps.wf s ->
  INT_MIN <= y * Colour.w s <= INT_MAX ->
  INT_MIN <= y * Colour.w s + x ->
  y * Colour.w s + x < 0 ->
  Colour.checked_index x y s = Ret (y * Colour.w s + x)
  /\ Colour.at_const x y s = Undefined
  /\ Colour.at_ref x y s = Undefined
  /\ Colour.at_depth x y d s = Undefined.
Proof.
  intros [HW HH HS _ _] Hyw Hlo Hneg.
  assert (H1 : 0 < Colour.w s * Colour.h s) by (apply Z.mul_pos_pos; lia).
  assert (HI : INT_MIN < 0) by reflexivity.
  assert (HM : 0 < INT_MAX) by reflexivity.
  assert (Hc : Colour.checked_index x y s = Ret (y * Colour.w s + x)).
  { unfold Colour.checked_index, int_mul, int_add.
    rewrite (int_result_ok (y * Colour.w s)) by lia. cbn [bind].
    rewrite (int_result_ok (y * Colour.w s + x)) by lia. cbn [bind].
    rewrite (int_result_ok (Colour.w s * Colour.h s)) by lia. cbn [bind].
    rewrite assert_true by (apply Z.ltb_lt; lia). reflexivity. }
  assert (Hg : forall (A : Type) (a : list A),
             array_get a (y * Colour.w s + x) = Undefined).
  { intros A a. unfold array_get.
    destruct (Z.ltb_spec (y * Colour.w s + x) 0); [reflexivity|lia]. }
  split; [exact Hc|].
  unfold Colour.at_const, Colour.at_ref, Colour.at_depth.
  rewrite Hc. cbn [bind]. rewrite !Hg. cbn [bind]. auto.
Qed.

Lemma negative_index_is_not_asserted_witness :
  Colour.checked_index (-7) 1 small_screen
  = Ret (1 * Colour.w small_screen + -7)
  /\ Colour.at_const (-7) 1 small_screen = Undefined
  /\ Colour.at_ref (-7) 1 small_screen = Undefined
  /\ Colour.at_depth (-7) 1 half small_screen = Undefined.
Proof.
  apply (negative_index_is_not_asserted small_screen (-7) 1 half).
  - constructor; cbn; try reflexivity; unfold INT_MAX; lia.
  - cbn. unfold INT_MIN, INT_MAX. lia.
  - cbn. unfold INT_MIN. lia.
  - cbn. lia.
Defined.

(** ** Depths that are not ordinary numbers *)

Lemma ltb_neg_infinity_r (a : F32.t) : (a <? S754_infinity true)%f32 = false.
Proof. destruct a as [s|s| |s m e]; try destruct s; reflexivity. Qed.

Lemma ltb_pos_infinity_l (d : F32.t) : (S754_infinity false <? d)%f32 = false.
Proof. destruct d as [s|s| |s m e]; try destruct s; reflexivity. Qed.

Lemma ltb_nan_l (d : F32.t) : (F32.nan <? d)%f32 = false.
Proof. reflexivity. Qed.

(** The test [stored + 1 < d] is false for these operands. *)
Lemma depth_test_extremes (stored d : F32.t) :
  d = F32.nan \/ d = S754_infinity true
  \/ stored = F32.nan \/ stored = S754_infinity false ->
  (stored + #1 <? d)%f32 = false.
Proof.
  intros [-> | [-> | [-> | ->]]].
  - apply ltb_nan_r.
  - apply ltb_neg_infinity_r.
  - apply ltb_nan_l.
  - apply ltb_pos_infinity_l.
Qed.

(** X5: the depth test has no defence against values that are not
    ordinary numbers.  On every cell of the grid a write of NaN or of
    minus infinity succeeds whatever the cell stores, and a cell that
    stores NaN or plus infinity accepts every later write, whatever its
    depth.  Both revisions. *)
Theorem unordered_depths_pass_the_test :
  (forall (s : Colour.screen) (x y : Z) (d stored : F32.t),
      ColourProps.wf s -> ColourProps.in_range x y s ->
      Colour.depth s !! ColourProps.cell x y s = Some stored ->
      d = F32.nan \/ d = S754_infinity true
      \/ stored = F32.nan \/ stored = S754_infinity false ->
      Colour.at_depth x y d s
      = Ret (ColourProps.set_depth (ColourProps.cell x y s) d s,
             Some (ColourProps.cell x y s)))
  /\ (forall (s : Pipeline.screen) (x y : Z) (d stored : F32.t),
      PipelineProps.wf s -> PipelineProps.in_range x y s ->
      Pipeline.depth s !! PipelineProps.cell x y s = Some stored ->
      d = F32.nan \/ d = S754_infinity true
      \/ stored = F32.nan \/ stored = S754_infinity false ->
      Pipeline.at_depth x y d s
      = Ret (PipelineProps.set_depth (PipelineProps.cell x y s) d s,
             Some (PipelineProps.cell x y s))).
Proof.
  split; intros s x y d stored Hwf Hr Hst Hex.
  - rewrite (ColourFacts.at_depth_in_range s x y d stored Hwf Hr Hst).
    now rewrite (depth_test_extremes stored d Hex).
  - rewrite (PipelineFacts.chars_at_depth_in_range s x y d stored Hwf Hr Hst).
    now rewrite (depth_test_extremes stored d Hex).
Qed.

Lemma unordered_depths_pass_the_test_witness :
  Colour.at_depth 1 1 #1000%f32 (ColourProps.set_depth 7 F32.nan small_screen)
  = Ret (ColourProps.set_depth
           (ColourProps.cell 1 1 (ColourProps.set_depth 7 F32.nan small_screen))
           #1000%f32 (ColourProps.set_depth 7 F32.nan small_screen),
         Some (ColourProps.cell 1 1
                 (ColourProps.set_depth 7 F32.nan small_screen))).
Proof.
  apply (proj1 unordered_depths_pass_the_test
           (ColourProps.set_depth 7 F32.nan small_screen) 1 1 #1000%f32 F32.nan).
  - constructor; cbn; try reflexivity; unfold INT_MAX; lia.
  - unfold ColourProps.in_range; cbn; lia.
  - reflexivity.
  - right. right. left. reflexivity.
Defined.

(** ** The perspective divide *)

Lemma div_eucl_shifted (m : positive) (k : Z) :
  0 <= k -> Z.div_eucl (Z.shiftl (Zpos m) k) (Zpos m) = (2 ^ k, 0).
Proof.
  intros Hk. rewrite Z.shiftl_mul_pow2 by exact Hk.
  destruct (Z.div_eucl (Zpos m * 2 ^ k) (Zpos m)) as [q r] eqn:E.
  assert (Hq : q = Zpos m * 2 ^ k / Zpos m) by (unfold Z.div; now rewrite E).
  assert (Hr : r = (Zpos m * 2 ^ k) mod Zpos m)
    by (unfold Z.modulo; now rewrite E).
  rewrite Z.mul_comm, Z.div_mul in Hq by discriminate.
  rewrite Z.mul_comm, Z.mod_mul in Hr by discriminate.
  now subst.
Qed.

Lemma new_location_zero (n : Z) : new_location n 0 = loc_Exact.
Proof.
  unfold new_location, new_location_even, new_location_odd.
  destruct (Z.even n); reflexivity.
Qed.

(** A finite non-zero value divided by itself is exactly one. *)
Lemma div_self (a : F32.t) :
  is_nonzero_finite a = true -> (a / a)%f32 = one.
Proof.
  destruct a as [s|s| |s m e]; try discriminate. intros _.
  unfold F32.div, SFdiv, SFdiv_core_binary.
  rewrite Z.sub_diag, Z.sub_diag.
  change (Z.min (fexp F32.prec F32.emax 0) 0) with (-24).
  change (0 - -24) with 24.
  cbv iota.
  rewrite (div_eucl_shifted m 24) by lia.
  rewrite new_location_zero.
  destruct s; vm_compute; reflexivity.
Qed.

Lemma div_self_degenerate (a : F32.t) :
  is_nonzero_finite a = false -> (a / a)%f32 = F32.nan.
Proof. destruct a as [s|s| |s m e]; try discriminate; reflexivity. Qed.

Lemma div_by_zero_not_finite (a b : F32.t) :
  F32.is_zero b = true -> F32.is_finite (a / b)%f32 = false.
Proof.
  destruct a as [sa|sa| |sa ma ea], b as [sb|sb| |sb mb eb]; simpl;
    intros H; try discriminate; reflexivity.
Qed.

(** X6: [normalize] leaves [w] exactly [1] when [w] is finite and not
    zero, and a NaN in every other case (a zero, an infinity or a NaN):
    the homogeneous coordinate after the divide is never anything else. *)
Theorem normalize_w (v : vec4) :
  vw (normalize v) = if is_nonzero_finite (vw v) then one else F32.nan.
Proof.
  unfold normalize. cbn [vw].
  destruct (is_nonzero_finite (vw v)) eqn:E.
  - now apply div_self.
  - now apply div_self_degenerate.
Qed.

Lemma normalize_zero_w (v : vec4) :
  F32.is_zero (vw v) = true ->
  F32.is_finite (vx (normalize v)) = false
  /\ F32.is_finite (vy (normalize v)) = false
  /\ F32.is_finite (vz (normalize v)) = false
  /\ vw (normalize v) = F32.nan.
Proof.
  intros Hw. unfold normalize. cbn [vx vy vz vw].
  repeat split; try now apply div_by_zero_not_finite.
  destruct (vw v); try discriminate; reflexivity.
Qed.

(** X7: [normalize] does not guard the division: with [w] a zero (of
    either sign), no component of the result is finite, each is an
    infinity or a NaN. *)
Theorem normalize_by_zero (v : vec4) :
  F32.is_zero (vw v) = true ->
  F32.is_finite (vx (normalize v)) = false
  /\ F32.is_finite (vy (normalize v)) = false
  /\ F32.is_finite (vz (normalize v)) = false
  /\ vw (normalize v) = F32.nan.
Proof. exact (normalize_zero_w v). Qed.

Lemma normalize_by_zero_witness :
  F32.is_finite (vx (normalize (Vec4 #1%f32 #0%f32 #2%f32 #0%f32))) = false
  /\ F32.is_finite (vy (normalize (Vec4 #1%f32 #0%f32 #2%f32 #0%f32))) = false
  /\ F32.is_finite (vz (normalize (Vec4 #1%f32 #0%f32 #2%f32 #0%f32))) = false
  /\ vw (normalize (Vec4 #1%f32 #0%f32 #2%f32 #0%f32)) = F32.nan.
Proof.
  apply (normalize_by_zero (Vec4 #1%f32 #0%f32 #2%f32 #0%f32)). reflexivity.
Defined.

(** ** The depth of a degenerate triangle *)

(** X8: when the [z] component of the plane's normal is a zero (the
    three projected vertices are collinear or coincide), [get_z_component]
    divides by it: the depth it returns is never a finite number, at any
    point. *)
Theorem depth_of_edge_on_plane_not_finite (a b c : vec4) (x y : F32.t) :
  F32.is_zero (normal_z a b c) = true ->
  F32.is_finite (get_z_component a b c x y) = false.
Proof.
  intros Hz. unfold get_z_component. cbv zeta.
  fold (normal_z a b c). now apply div_by_zero_not_finite.
Qed.

Lemma depth_of_edge_on_plane_not_finite_witness :
  F32.is_finite
    (get_z_component (Vec4 #(-1)%f32 #(-1)%f32 #1%f32 #1%f32)
       (Vec4 #0%f32 #0%f32 #2%f32 #1%f32) (Vec4 #1%f32 #1%f32 #3%f32 #1%f32)
       half half) = false.
Proof.
  apply (depth_of_edge_on_plane_not_finite
           (Vec4 #(-1)%f32 #(-1)%f32 #1%f32 #1%f32)
           (Vec4 #0%f32 #0%f32 #2%f32 #1%f32)
           (Vec4 #1%f32 #1%f32 #3%f32 #1%f32) half half).
  vm_compute. reflexivity.
Defined.

(** ** Coordinates that are NaN *)

Lemma sub_nan_l (a : F32.t) : (F32.nan - a)%f32 = F32.nan.
Proof. reflexivity. Qed.

Lemma sub_nan_r (a : F32.t) : (a - F32.nan)%f32 = F32.nan.
Proof. destruct a; reflexivity. Qed.

Lemma mul_nan_l (a : F32.t) : (F32.nan * a)%f32 = F32.nan.
Proof. reflexivity. Qed.

Lemma mul_nan_r (a : F32.t) : (a * F32.nan)%f32 = F32.nan.
Proof. destruct a; reflexivity. Qed.

Lemma geb_nan_l (a : F32.t) : (F32.nan >=? a)%f32 = false.
Proof. reflexivity. Qed.

Lemma is_nan_eq (a : F32.t) : F32.is_nan a = true -> a = F32.nan.
Proof. destruct a; try discriminate; reflexivity. Qed.

(** An edge test with a NaN among its six inputs fails. *)
Lemma edge_nan (p q : vec4) (x y : F32.t) :
  F32.is_nan x = true \/ F32.is_nan y = true
  \/ F32.is_nan (vx p) = true \/ F32.is_nan (vy p) = true
  \/ F32.is_nan (vx q) = true \/ F32.is_nan (vy q) = true ->
  Colour.edge p q x y = false.
Proof.
  unfold Colour.edge.
  intros [H|[H|[H|[H|[H|H]]]]]; apply is_nan_eq in H; rewrite H;
    rewrite ?sub_nan_l, ?sub_nan_r, ?mul_nan_l, ?mul_nan_r,
      ?sub_nan_l, ?sub_nan_r, ?mul_nan_l, ?mul_nan_r, ?sub_nan_l, ?sub_nan_r;
    reflexivity.
Qed.

(** X9: a NaN is never inside.  When the sample point has a NaN
    coordinate, or any vertex has a NaN [x] or [y], [inside_triangle]
    is false, in both revisions. *)
Theorem nan_is_never_inside (a b c : vec4) (x y : F32.t) :
  F32.is_nan x = true \/ F32.is_nan y = true
  \/ F32.is_nan (vx a) = true \/ F32.is_nan (vy a) = true
  \/ F32.is_nan (vx b) = true \/ F32.is_nan (vy b) = true
  \/ F32.is_nan (vx c) = true \/ F32.is_nan (vy c) = true ->
  Colour.inside_triangle a b c x y = false
  /\ Pipeline.inside_triangle a b c x y = false.
Proof.
  intros H. rewrite colour_inside_andb. unfold Pipeline.inside_triangle.
  change Pipeline.edge with Colour.edge.
  assert (He : Colour.edge b a x y = false \/ Colour.edge c b x y = false
               \/ Colour.edge a c x y = false).
  { destruct H as [H|[H|[H|[H|[H|[H|[H|H]]]]]]].
    - left. apply edge_nan. tauto.
    - left. apply edge_nan. tauto.
    - left. apply edge_nan. tauto.
    - left. apply edge_nan. tauto.
    - left. apply edge_nan. tauto.
    - left. apply edge_nan. tauto.
    - right. left. apply edge_nan. tauto.
    - right. left. apply edge_nan. tauto. }
  destruct He as [-> | [-> | ->]]; rewrite ?andb_false_r; auto.
Qed.

Lemma nan_is_never_inside_witness :
  Colour.inside_triangle (Colour.project in_a) (Colour.project in_b)
    (Colour.project in_c) F32.nan half = false
  /\ Pipeline.inside_triangle (Colour.project in_a) (Colour.project in_b)
       (Colour.project in_c) F32.nan half = false.
Proof.
  apply (nan_is_never_inside (Colour.project in_a) (Colour.project in_b)
           (Colour.project in_c) F32.nan half).
  left. reflexivity.
Defined.

(** ** The fixed projection *)

Lemma digits2_iter_xO (m k : positive) :
  digits2_pos (Pos.iter xO m k) = (digits2_pos m + k)%positive.
Proof.
  induction k as [|k IH] using Pos.peano_ind.
  - cbn. now rewrite Pos.add_1_r.
  - rewrite Pos.iter_succ. cbn [digits2_pos]. rewrite IH. lia.
Qed.

Lemma bounded_inv (m : positive) (e : Z) :
  bounded F32.prec F32.emax m e = true ->
  fexp F32.prec F32.emax (Zpos (digits2_pos m) + e) = e /\ e <= 104.
Proof.
  unfold bounded, canonical_mantissa. intros [H1 H2]%andb_true_iff.
  apply Z.eqb_eq in H1. apply Z.leb_le in H2. split; [exact H1|exact H2].
Qed.

(** Rounding a canonical mantissa that was shifted left by 23 bits gives
    it back. *)
Lemma round_shifted_23 (s : bool) (m : positive) (e : Z) :
  bounded F32.prec F32.emax m e = true ->
  binary_round_aux F32.prec F32.emax s (Zpos (Pos.iter xO m 23)) (-23 + e)
    loc_Exact
  = S754_finite s m e.
Proof.
  intros Hb. destruct (bounded_inv m e Hb) as [Hc He].
  unfold binary_round_aux.
  assert (H1 : shr_fexp F32.prec F32.emax (Zpos (Pos.iter xO m 23)) (-23 + e)
                 loc_Exact
               = (Build_shr_record (Zpos m) false false, e)).
  { unfold shr_fexp. unfold Zdigits2. rewrite digits2_iter_xO.
    replace (Zpos (digits2_pos m + 23) + (-23 + e))
      with (Zpos (digits2_pos m) + e) by lia.
    rewrite Hc. replace (e - (-23 + e)) with 23 by lia.
    unfold shr. f_equal. lia. }
  rewrite H1. cbn [shr_m loc_of_shr_record round_nearest_even].
  assert (H2 : shr_fexp F32.prec F32.emax (Zpos m) e loc_Exact
               = (Build_shr_record (Zpos m) false false, e)).
  { unfold shr_fexp. unfold Zdigits2. rewrite Hc, Z.sub_diag. reflexivity. }
  rewrite H2. cbn [shr_m].
  destruct (Z.leb_spec e (F32.emax - F32.prec)) as [_|Hgt]; [reflexivity|].
  change (F32.emax - F32.prec) with 104 in Hgt. lia.
Qed.

(** Multiplying a well-formed value by one is exact. *)
Lemma mul_one_l (a : F32.t) : valid32 a -> (one * a)%f32 = a.
Proof.
  destruct a as [s|s| |s m e]; try reflexivity. intros Hv.
  change (one * S754_finite s m e)%f32
    with (binary_round_aux F32.prec F32.emax s (Zpos (Pos.iter xO m 23))
            (-23 + e) loc_Exact).
  now apply round_shifted_23.
Qed.

Lemma add_zero_r (a b : F32.t) :
  is_nonzero_finite a = true -> F32.is_zero b = true -> (a + b)%f32 = a.
Proof. destruct a, b; simpl; intros; try discriminate; reflexivity. Qed.

Lemma add_zero_l (a b : F32.t) :
  F32.is_zero a = true -> is_nonzero_finite b = true -> (a + b)%f32 = b.
Proof. destruct a, b; simpl; intros; try discriminate; reflexivity. Qed.

Lemma nonzero_finite_finite (a : F32.t) :
  is_nonzero_finite a = true -> F32.is_finite a = true.
Proof. destruct a; simpl; intros; try discriminate; reflexivity. Qed.

Lemma projection_entries :
  Colour.projection
  = [ one; F32.zero; (- F32.zero)%f32; F32.zero;
      F32.zero; one; (- F32.zero)%f32; F32.zero;
      F32.zero; F32.zero; #3%f32; #(-4)%f32;
      F32.zero; F32.zero; one; F32.zero ]
  /\ Pipeline.projection = Colour.projection.
Proof. split; vm_compute; reflexivity. Qed.

(** Before the divide, the fixed projection keeps [x] and [y] and moves
    [z] into [w]. *)
Lemma clip_coordinates (v : vec3) :
  ordinary_vertex v ->
  vx (mat4_mul_vec4 Colour.projection (vec4_of v one)) = x3 v
  /\ vy (mat4_mul_vec4 Colour.projection (vec4_of v one)) = y3 v
  /\ vw (mat4_mul_vec4 Colour.projection (vec4_of v one)) = z3 v.
Proof.
  intros ((Vx & Nx) & (Vy & Ny) & (Vz & Nz)).
  pose proof (nonzero_finite_finite _ Nx) as Fx.
  pose proof (nonzero_finite_finite _ Ny) as Fy.
  pose proof (nonzero_finite_finite _ Nz) as Fz.
  rewrite (proj1 projection_entries).
  unfold mat4_mul_vec4, vec4_of, mat_at. cbn [vx vy vz vw nth Nat.add Nat.mul].
  rewrite !mul_one_l by assumption.
  assert (Z1 : forall a, F32.is_finite a = true ->
                         F32.is_zero (F32.zero * a)%f32 = true)
    by (intros a Ha; now apply mul_zero_l).
  assert (Z2 : forall a, F32.is_finite a = true ->
                         F32.is_zero (- F32.zero * a)%f32 = true)
    by (intros a Ha; now apply mul_zero_l).
  assert (Z3 : F32.is_zero (F32.zero * one)%f32 = true) by reflexivity.
  repeat split.
  - rewrite (add_zero_r (x3 v) (F32.zero * y3 v)%f32) by auto.
    rewrite (add_zero_r (x3 v) (- F32.zero * z3 v)%f32) by auto.
    now rewrite (add_zero_r (x3 v) (F32.zero * one)%f32).
  - rewrite (add_zero_l (F32.zero * x3 v)%f32 (y3 v)) by auto.
    rewrite (add_zero_r (y3 v) (- F32.zero * z3 v)%f32) by auto.
    now rewrite (add_zero_r (y3 v) (F32.zero * one)%f32).
  - rewrite (add_zero_l (F32.zero * x3 v + F32.zero * y3 v)%f32 (z3 v))
      by (auto using add_zero_zero).
    now rewrite (add_zero_r (z3 v) (F32.zero * one)%f32).
Qed.

(** X10: for a vertex whose coordinates are finite and not zero, the
    fixed projection followed by [normalize] is the perspective divide by
    the vertex's own [z]: the projected [x] is [x / z], the projected [y]
    is [y / z] and the projected [w] is exactly [1].  Both revisions
    project the same way. *)
Theorem project_is_divide_by_z (v : vec3) :
  ordinary_vertex v ->
  vx (Colour.project v) = (x3 v / z3 v)%f32
  /\ vy (Colour.project v) = (y3 v / z3 v)%f32
  /\ vw (Colour.project v) = one
  /\ Pipeline.project v = Colour.project v.
Proof.
  intros Hv. destruct (clip_coordinates v Hv) as (Hx & Hy & Hw).
  destruct Hv as (_ & _ & (_ & Nz)).
  assert (He : Pipeline.project v = Colour.project v) by reflexivity.
  split; [|split; [|split; [|exact He]]];
    unfold Colour.project, normalize; cbn [vx vy vz vw];
    rewrite ?Hx, ?Hy, ?Hw; auto using div_self.
Qed.

Lemma project_is_divide_by_z_witness :
  vx (Colour.project in_a) = (x3 in_a / z3 in_a)%f32
  /\ vy (Colour.project in_a) = (y3 in_a / z3 in_a)%f32
  /\ vw (Colour.project in_a) = one
  /\ Pipeline.project in_a = Colour.project in_a.
Proof.
  apply (project_is_divide_by_z in_a).
  repeat split; reflexivity.
Defined.

(** X11: a vertex in the camera plane is not guarded.  When [z] is a
    zero and [x] and [y] are finite, the projected [w] before the divide
    is a zero, so after [normalize] no coordinate of the projected vertex
    is finite and its [w] is a NaN. *)
Theorem vertex_in_camera_plane (v : vec3) :
  F32.is_zero (z3 v) = true ->
  F32.is_finite (x3 v) = true -> F32.is_finite (y3 v) = true ->
  F32.is_zero (vw (mat4_mul_vec4 Colour.projection (vec4_of v one))) = true
  /\ F32.is_finite (vx (Colour.project v)) = false
  /\ F32.is_finite (vy (Colour.project v)) = false
  /\ F32.is_finite (vz (Colour.project v)) = false
  /\ vw (Colour.project v) = F32.nan.
Proof.
  intros Hz Hx Hy.
  assert (Hw : F32.is_zero
                 (vw (mat4_mul_vec4 Colour.projection (vec4_of v one))) = true).
  { rewrite (proj1 projection_entries).
    unfold mat4_mul_vec4, vec4_of, mat_at.
    cbn [vx vy vz vw nth Nat.add Nat.mul].
    repeat apply add_zero_zero; try reflexivity.
    - now apply mul_zero_l.
    - now apply mul_zero_l.
    - now apply mul_zero_r. }
  split; [exact Hw|]. now apply normalize_zero_w.
Qed.

Lemma vertex_in_camera_plane_witness :
  F32.is_zero
    (vw (mat4_mul_vec4 Colour.projection
           (vec4_of (Vec3 #1%f32 #1%f32 #0%f32) one))) = true
  /\ F32.is_finite (vx (Colour.project (Vec3 #1%f32 #1%f32 #0%f32))) = false
  /\ F32.is_finite (vy (Colour.project (Vec3 #1%f32 #1%f32 #0%f32))) = false
  /\ F32.is_finite (vz (Colour.project (Vec3 #1%f32 #1%f32 #0%f32))) = false
  /\ vw (Colour.project (Vec3 #1%f32 #1%f32 #0%f32)) = F32.nan.
Proof.
  apply (vertex_in_camera_plane (Vec3 #1%f32 #1%f32 #0%f32)); reflexivity.
Defined.

(** ** Vertices are boundary points *)

Lemma mul_comm (a b : F32.t) : (a * b)%f32 = (b * a)%f32.
Proof.
  destruct a as [sa|sa| |sa ma ea], b as [sb|sb| |sb mb eb]; simpl;
    try reflexivity; try (now rewrite xorb_comm).
  unfold F32.mul, SFmul.
  now rewrite xorb_comm, Pos.mul_comm, Z.add_comm.
Qed.

(** At the end point [q] of an edge the two products of the edge
    function are the same number. *)
Lemma edge_at_end (p q : vec4) :
  F32.is_finite ((vx q - vx p) * (vy q - vy p))%f32 = true ->
  Colour.edge p q (vx q) (vy q) = true.
Proof.
  intros Hf. unfold Colour.edge.
  rewrite (mul_comm (vy q - vy p) (vx q - vx p)).
  rewrite (sub_diag _ Hf). reflexivity.
Qed.

(** At the start point [p] of an edge both products have a zero factor. *)
Lemma edge_at_start (p q : vec4) :
  F32.is_finite (vx p) = true -> F32.is_finite (vy p) = true ->
  F32.is_finite (vy q - vy p)%f32 = true ->
  F32.is_finite (vx q - vx p)%f32 = true ->
  Colour.edge p q (vx p) (vy p) = true.
Proof.
  intros Hx Hy Hdy Hdx. unfold Colour.edge.
  rewrite (sub_diag _ Hx), (sub_diag _ Hy).
  apply zero_nonneg, sub_zero_zero; apply mul_zero_l; auto.
Qed.

(** X12: a vertex is a boundary point of its own triangle.  At the
    vertex [a] the edge functions of the two edges that meet in [a] are
    exact zeros (provided the differences and the product involved are
    finite), so [inside_triangle] admits [a] exactly when the test of the
    opposite edge [c -> b] passes.  Both revisions. *)
Theorem vertex_is_on_the_boundary (a b c : vec4) :
  F32.is_finite (vx a) = true -> F32.is_finite (vy a) = true ->
  F32.is_finite ((vx a - vx b) * (vy a - vy b))%f32 = true ->
  F32.is_finite (vy c - vy a)%f32 = true ->
  F32.is_finite (vx c - vx a)%f32 = true ->
  F32.is_zero (edge_value b a (vx a) (vy a)) = true
  /\ F32.is_zero (edge_value a c (vx a) (vy a)) = true
  /\ Colour.inside_triangle a b c (vx a) (vy a)
     = Colour.edge c b (vx a) (vy a)
  /\ Pipeline.inside_triangle a b c (vx a) (vy a)
     = Pipeline.edge c b (vx a) (vy a).
Proof.
  intros Hx Hy Hp Hdy Hdx.
  pose proof (edge_at_end b a Hp) as H1.
  pose proof (edge_at_start a c Hx Hy Hdy Hdx) as H2.
  split; [|split; [|split]].
  - unfold edge_value.
    rewrite (mul_comm (vy a - vy b) (vx a - vx b)).
    now rewrite (sub_diag _ Hp).
  - unfold edge_value. rewrite (sub_diag _ Hx), (sub_diag _ Hy).
    apply sub_zero_zero; apply mul_zero_l; auto.
  - rewrite colour_inside_andb, H1, H2. cbn [andb]. apply andb_true_r.
  - unfold Pipeline.inside_triangle. change Pipeline.edge with Colour.edge.
    rewrite H1, H2. cbn [andb]. apply andb_true_r.
Qed.

Lemma vertex_is_on_the_boundary_witness :
  F32.is_zero
    (edge_value (Colour.project in_b) (Colour.project in_a)
       (vx (Colour.project in_a)) (vy (Colour.project in_a))) = true
  /\ F32.is_zero
       (edge_value (Colour.project in_a) (Colour.project in_c)
          (vx (Colour.project in_a)) (vy (Colour.project in_a))) = true
  /\ Colour.inside_triangle (Colour.project in_a) (Colour.project in_b)
       (Colour.project in_c)
       (vx (Colour.project in_a)) (vy (Colour.project in_a))
     = Colour.edge (Colour.project in_c) (Colour.project in_b)
         (vx (Colour.project in_a)) (vy (Colour.project in_a))
  /\ Pipeline.inside_triangle (Colour.project in_a) (Colour.project in_b)
       (Colour.project in_c)
       (vx (Colour.project in_a)) (vy (Colour.project in_a))
     = Pipeline.edge (Colour.project in_c) (Colour.project in_b)
         (vx (Colour.project in_a)) (vy (Colour.project in_a)).
Proof.
  apply (vertex_is_on_the_boundary (Colour.project in_a) (Colour.project in_b)
           (Colour.project in_c)); vm_compute; reflexivity.
Defined.

(** ** What [draw] of the colour renderer can touch *)

Module ColourDraw.
Import Colour ColourProps ColourDrawProps.

(** Everything a returning call of [at(x, y, d)] can have done. *)
Lemma at_depth_effect (s s1 : screen) (x y : Z) (d : F32.t) (r : option nat) :
  at_depth x y d s = Ret (s1, r) ->
  0 <= y * w s + x
  /\ (r = None -> s1 = s)
  /\ (forall c, r = Some c ->
        c = Z.to_nat (y * w s + x) /\ s1 = set_depth c d s).
Proof.
  unfold at_depth, checked_index, int_mul, int_add, int_result, array_set.
  destruct (in_int (y * w s)); cbn [bind]; [|discriminate].
  destruct (in_int (y * w s + x)); cbn [bind]; [|discriminate].
  destruct (in_int (w s * h s)); cbn [bind]; [|discriminate].
  destruct (y * w s + x <? w s * h s); cbn [assert bind]; [|discriminate].
  unfold array_get at 1.
  destruct (Z.ltb_spec (y * w s + x) 0) as [|Hnn]; [discriminate|].
  destruct (depth s !! Z.to_nat (y * w s + x)) as [st|]; [|discriminate].
  cbn [bind]. destruct (st + #1 <? d)%f32.
  - intros [= <- <-]. repeat split; auto; discriminate.
  - destruct (array_get (depth s) (y * w s + x)); cbn [bind]; try discriminate.
    destruct (array_get (buf s) (y * w s + x)); cbn [bind]; try discriminate.
    intros [= <- <-]. split; [exact Hnn|]. split; [discriminate|].
    intros c [= <-]. split; reflexivity.
Qed.

Lemma kept_refl (p1 p2 p3 : vec4) (s : screen) : kept p1 p2 p3 s s.
Proof. repeat split. Qed.

Lemma draw_pixel_kept (p1 p2 p3 : vec4) (s s0 s1 : screen) (i j : Z) :
  kept p1 p2 p3 s s0 -> draw_pixel p1 p2 p3 i j s0 = Ret s1 ->
  kept p1 p2 p3 s s1.
Proof.
  intros (Hw & Hh & Hlb & Hld & Hk). unfold draw_pixel. rewrite Hw, Hh.
  destruct (inside_triangle p1 p2 p3 _ _) eqn:Hin.
  2:{ intros [= <-]. repeat split; auto; now apply Hk. }
  destruct (at_depth j i _ s0) as [[s2 r]| |] eqn:Hat; cbn [bind];
    try discriminate.
  destruct (at_depth_effect _ _ _ _ _ _ Hat) as (Hnn & Hnone & Hsome).
  rewrite Hw in Hnn, Hsome.
  destruct r as [c|].
  - intros [= <-]. destruct (Hsome c eq_refl) as [-> ->].
    unfold kept. cbn [store set_depth w h buf depth].
    rewrite !length_insert. repeat split; auto.
    + assert (Hne : Z.to_nat (i * w s + j) <> k).
      { intros He. specialize (H i j Hnn He). congruence. }
      rewrite list_lookup_insert_ne by exact Hne. now apply Hk.
    + assert (Hne : Z.to_nat (i * w s + j) <> k).
      { intros He. specialize (H i j Hnn He). congruence. }
      rewrite list_lookup_insert_ne by exact Hne. now apply Hk.
  - intros [= <-]. rewrite (Hnone eq_refl). repeat split; auto; now apply Hk.
Qed.

Lemma draw_kept (v1 v2 v3 : vec3) (s s' : screen) :
  draw v1 v2 v3 s = Ret s' ->
  kept (project v1) (project v2) (project v3) s s'.
Proof.
  unfold draw. cbv zeta.
  destruct (f32_to_int _) as [i0| |]; cbn [bind]; try discriminate.
  apply for_int_inv; [|apply kept_refl].
  intros i s0 s1 Hk.
  destruct (f32_to_int _) as [j0| |]; cbn [bind]; try discriminate.
  apply for_int_inv; [|exact Hk].
  intros j s2 s3 Hk2. now apply draw_pixel_kept.
Qed.
End ColourDraw.

(** X13: [draw] of the colour renderer, when it returns, has changed
    nothing but the cells that an admitted sample point maps to.  The
    extent, and the sizes of both buffers, are the same; and a cell [k]
    keeps its content and its depth whenever every pixel [(j, i)] with
    flat index [i * w + j = k] has its sample point outside the triangle.
    In particular a well-formed grid stays well-formed. *)
Theorem colour_draw_touches_only_admitted_cells
    (v1 v2 v3 : vec3) (s s' : Colour.screen) :
  Colour.draw v1 v2 v3 s = Ret s' ->
  Colour.w s' = Colour.w s /\ Colour.h s' = Colour.h s
  /\ length (Colour.buf s') = length (Colour.buf s)
  /\ length (Colour.depth s') = length (Colour.depth s)
  /\ (ColourProps.wf s -> ColourProps.wf s')
  /\ forall k : nat,
       (forall i j : Z,
           0 <= i * Colour.w s + j -> Z.to_nat (i * Colour.w s + j) = k ->
           Colour.inside_triangle (Colour.project v1) (Colour.project v2)
             (Colour.project v3)
             (Colour.to_cartesian j (Colour.w s))
             (Colour.to_cartesian i (Colour.h s)) = false) ->
       Colour.buf s' !! k = Colour.buf s !! k
       /\ Colour.depth s' !! k = Colour.depth s !! k.
Proof.
  intros Hd. destruct (ColourDraw.draw_kept v1 v2 v3 s s' Hd)
    as (Hw & Hh & Hlb & Hld & Hk).
  repeat split; auto; try (now apply Hk).
  all: destruct H; rewrite ?Hw, ?Hh, ?Hlb, ?Hld; auto.
Qed.

Lemma colour_draw_touches_only_admitted_cells_witness :
  Colour.w drawn_small = Colour.w small_screen
  /\ Colour.h drawn_small = Colour.h small_screen
  /\ length (Colour.buf drawn_small) = length (Colour.buf small_screen)
  /\ length (Colour.depth drawn_small) = length (Colour.depth small_screen)
  /\ (ColourProps.wf small_screen -> ColourProps.wf drawn_small)
  /\ forall k : nat,
       (forall i j : Z,
           0 <= i * Colour.w small_screen + j ->
           Z.to_nat (i * Colour.w small_screen + j) = k ->
           Colour.inside_triangle (Colour.project in_a) (Colour.project in_b)
             (Colour.project in_c)
             (Colour.to_cartesian j (Colour.w small_screen))
             (Colour.to_cartesian i (Colour.h small_screen)) = false) ->
       Colour.buf drawn_small !! k = Colour.buf small_screen !! k
       /\ Colour.depth drawn_small !! k = Colour.depth small_screen !! k.
Proof.
  apply (colour_draw_touches_only_admitted_cells in_a in_b in_c small_screen
           drawn_small).
  vm_compute. reflexivity.
Defined.

(** ** Degenerate triangles through the scan of [draw] *)

Module ColourScan.
Import Colour ColourProps ColourFacts ColourGrid ColourDrawProps.

Lemma same_grid_range (s s0 : screen) (j i : Z) :
  same_grid s s0 -> in_range j i s -> in_range j i s0 /\ cell j i s0 = cell j i s.
Proof.
  intros (_ & Hw & Hh & _) Hr. unfold in_range, cell. rewrite Hw, Hh. auto.
Qed.

(** The body of the loop at a pixel of the grid: it returns, and touches
    no cell but the pixel's own. *)
Lemma draw_pixel_in_range (p1 p2 p3 : vec4) (s s0 : screen) (i j : Z) :
  same_grid s s0 -> in_range j i s ->
  exists s1, draw_pixel p1 p2 p3 i j s0 = Ret s1
    /\ same_grid s s1
    /\ forall j' i', in_range j' i' s -> (j', i') <> (j, i) ->
         same_at s0 s1 (cell j' i' s).
Proof.
  intros Hg Hr. destruct (same_grid_range s s0 j i Hg Hr) as [Hr0 Hc0].
  assert (Hkeep : exists s1, Ret s0 = Ret s1 /\ same_grid s s1
            /\ forall j' i', in_range j' i' s -> (j', i') <> (j, i) ->
                 same_at s0 s1 (cell j' i' s)).
  { exists s0. split; [reflexivity|]. split; [exact Hg|].
    intros j' i' _ _. split; reflexivity. }
  pose proof Hg as (Hwf & Hw & Hh & Hsh).
  unfold draw_pixel.
  destruct (inside_triangle p1 p2 p3 _ _); [|exact Hkeep].
  destruct (stored_depth_exists s0 j i Hwf Hr0) as [st Hst].
  rewrite (at_depth_in_range s0 j i _ st Hwf Hr0 Hst).
  destruct (st + #1 <? _)%f32; cbn [bind]; [exact Hkeep|].
  eexists. split; [reflexivity|]. split.
  - split; [now apply store_wf, set_depth_wf|]. split; [exact Hw|].
    split; [exact Hh|exact Hsh].
  - intros j' i' Hr' Hne.
    destruct (same_grid_range s s0 j' i' Hg Hr') as [Hr0' Hc0'].
    assert (Hc : cell j i s0 <> cell j' i' s).
    { rewrite <- Hc0'. intros Hc.
      destruct (cell_inj s0 j i j' i' Hwf Hr0 Hr0' Hc) as [-> ->].
      now apply Hne. }
    split; cbn [store set_depth depth buf]; now rewrite list_lookup_insert_ne.
Qed.

(** The pixel of a triangle with three coincident vertices, in a grid
    reached from [s]. *)
Lemma coincident_pixel_holds (p : vec4) (s s0 s1 : screen) (i j : Z) :
  finite_vertex p -> same_grid s s0 -> in_range j i s ->
  F32.is_finite (to_cartesian j (w s) - vx p)%f32 = true ->
  F32.is_finite (to_cartesian i (h s) - vy p)%f32 = true ->
  draw_pixel p p p i j s0 = Ret s1 -> nan_at s s1 (cell j i s).
Proof.
  intros Hp Hg Hr Hx Hy.
  destruct (same_grid_range s s0 j i Hg Hr) as [Hr0 Hc0].
  destruct Hg as (Hwf & Hw & Hh & Hsh).
  rewrite <- Hw in Hx. rewrite <- Hh in Hy.
  destruct (coincident_pixel_is_written p s0 i j Hp Hwf Hr0 Hx Hy)
    as (_ & _ & ->).
  intros [= <-]. rewrite Hc0, Hsh.
  pose proof (cell_lt s0 j i Hwf Hr0) as Hlt. rewrite Hc0 in Hlt.
  split; cbn [store set_depth depth buf]; apply list_lookup_insert_eq.
  - now rewrite (wf_depth s0 Hwf).
  - now rewrite (wf_buf s0 Hwf).
Qed.

(** One row of the scan. *)
Lemma coincident_row (p : vec4) (s s0 : screen) (i j0 j1 : Z) :
  finite_vertex p -> same_grid s s0 -> 0 <= i < h s ->
  0 <= j0 -> j0 <= j1 -> j1 <= w s ->
  exists s1,
    fold_range (fun j s2 => draw_pixel p p p i j s2) (Z.to_nat (j1 - j0)) j0 s0
    = Ret s1
    /\ same_grid s s1
    /\ (forall j, j0 <= j < j1 ->
          F32.is_finite (to_cartesian j (w s) - vx p)%f32 = true ->
          F32.is_finite (to_cartesian i (h s) - vy p)%f32 = true ->
          nan_at s s1 (cell j i s))
    /\ (forall j' i', in_range j' i' s -> ~ (i' = i /\ j0 <= j' < j1) ->
          same_at s0 s1 (cell j' i' s)).
Proof.
  intros Hp Hg Hi H0 Hle H1.
  pose (P := fun (n : Z) (sc : screen) =>
    same_grid s sc
    /\ (forall j, j0 <= j < n ->
          F32.is_finite (to_cartesian j (w s) - vx p)%f32 = true ->
          F32.is_finite (to_cartesian i (h s) - vy p)%f32 = true ->
          nan_at s sc (cell j i s))
    /\ (forall j' i', in_range j' i' s -> ~ (i' = i /\ j0 <= j' < n) ->
          same_at s0 sc (cell j' i' s))).
  destruct (fold_range_ret (fun j s2 => draw_pixel p p p i j s2) P
              (Z.to_nat (j1 - j0)) j0 s0) as (s1 & Hrun & HP).
  - intros j sc Hj (Hgc & Hdone & Hsame).
    assert (Hr : in_range j i s) by (split; lia).
    destruct (draw_pixel_in_range p p p s sc i j Hgc Hr)
      as (s1 & Hs1 & Hg1 & Hother).
    exists s1. split; [exact Hs1|]. split; [exact Hg1|]. split.
    + intros j' Hj' Hx Hy. destruct (Z.eq_dec j' j) as [->|Hne].
      * exact (coincident_pixel_holds p s sc s1 i j Hp Hgc Hr Hx Hy Hs1).
      * assert (Hr' : in_range j' i s) by (split; lia).
        destruct (Hother j' i Hr') as [Hd Hb]; [congruence|].
        destruct (Hdone j') as [Hd0 Hb0]; auto; [lia|].
        split; congruence.
    + intros j' i' Hr' Hn.
      destruct (Hother j' i' Hr') as [Hd Hb].
      { intros [= -> ->]. apply Hn. split; [reflexivity|lia]. }
      destruct (Hsame j' i' Hr') as [Hd0 Hb0].
      { intros [-> Hjj]. apply Hn. split; [reflexivity|lia]. }
      split; congruence.
  - split; [exact Hg|]. split; [intros j Hj; lia|].
    intros j' i' _ _. split; reflexivity.
  - exists s1. split; [exact Hrun|].
    replace (j0 + Z.of_nat (Z.to_nat (j1 - j0))) with j1 in HP by lia.
    exact HP.
Qed.

(** The whole scan. *)
Lemma coincident_scan (p : vec4) (s : screen) (i0 i1 j0 j1 : Z) :
  finite_vertex p -> wf s ->
  0 <= i0 -> i0 <= i1 -> i1 <= h s -> 0 <= j0 -> j0 <= j1 -> j1 <= w s ->
  exists s1,
    fold_range
      (fun i s0 =>
         fold_range (fun j s2 => draw_pixel p p p i j s2)
           (Z.to_nat (j1 - j0)) j0 s0)
      (Z.to_nat (i1 - i0)) i0 s
    = Ret s1
    /\ (forall i j, i0 <= i < i1 -> j0 <= j < j1 ->
          F32.is_finite (to_cartesian j (w s) - vx p)%f32 = true ->
          F32.is_finite (to_cartesian i (h s) - vy p)%f32 = true ->
          nan_at s s1 (cell j i s))
    /\ (forall j' i', in_range j' i' s ->
          ~ (i0 <= i' < i1 /\ j0 <= j' < j1) ->
          same_at s s1 (cell j' i' s)).
Proof.
  intros Hp Hwf Hi0 Hile Hi1 Hj0 Hjle Hj1.
  pose (P := fun (n : Z) (sc : screen) =>
    same_grid s sc
    /\ (forall i j, i0 <= i < n -> j0 <= j < j1 ->
          F32.is_finite (to_cartesian j (w s) - vx p)%f32 = true ->
          F32.is_finite (to_cartesian i (h s) - vy p)%f32 = true ->
          nan_at s sc (cell j i s))
    /\ (forall j' i', in_range j' i' s ->
          ~ (i0 <= i' < n /\ j0 <= j' < j1) ->
          same_at s sc (cell j' i' s))).
  destruct (fold_range_ret
              (fun i s0 =>
                 fold_range (fun j s2 => draw_pixel p p p i j s2)
                   (Z.to_nat (j1 - j0)) j0 s0) P
              (Z.to_nat (i1 - i0)) i0 s) as (s1 & Hrun & HP).
  - intros i sc Hi (Hgc & Hdone & Hsame).
    destruct (coincident_row p s sc i j0 j1 Hp Hgc) as
      (s1 & Hs1 & Hg1 & Hrow & Hother); try lia.
    exists s1. split; [exact Hs1|]. split; [exact Hg1|]. split.
    + intros i' j Hi' Hj Hx Hy. destruct (Z.eq_dec i' i) as [->|Hne].
      * now apply Hrow.
      * assert (Hr' : in_range j i' s) by (split; lia).
        destruct (Hother j i' Hr') as [Hd Hb]; [lia|].
        destruct (Hdone i' j) as [Hd0 Hb0]; auto; [lia|].
        split; congruence.
    + intros j' i' Hr' Hn.
      destruct (Hother j' i' Hr') as [Hd Hb]; [lia|].
      destruct (Hsame j' i' Hr') as [Hd0 Hb0]; [lia|].
      split; congruence.
  - split; [|split].
    + split; [exact Hwf|]. repeat split; reflexivity.
    + intros i j Hi; lia.
    + intros j' i' _ _. split; reflexivity.
  - exists s1. split; [exact Hrun|].
    replace (i0 + Z.of_nat (Z.to_nat (i1 - i0))) with i1 in HP by lia.
    destruct HP as (_ & Hdone & Hsame). split; assumption.
Qed.
End ColourScan.


(** C7, as amended: a degenerate triangle is not skipped by [draw].  The
    three vertices project to one point [p] with finite coordinates, and
    the scan of the bounding box - rows [i0 .. i1 - 1], columns
    [j0 .. j1 - 1] - stays inside the grid.  Then [draw] returns, and for
    every pixel [(j, i)] that the scan visits whose sample point is at a
    finite offset from [p]: [inside_triangle] admits the sample point,
    [get_z_component] divides zero by zero and returns a NaN, the NaN
    passes the depth test, and in the grid that [draw] returns the cell
    holds the NaN as its depth and [shader(NaN)] as its content.  The
    pixels of the grid that the scan does not visit keep their depth and
    their content. *)
Theorem coincident_triangle_is_drawn (v1 v2 v3 : vec3) (p : vec4)
    (s : Colour.screen) (i0 i1 j0 j1 : Z) :
  Colour.project v1 = p -> Colour.project v2 = p -> Colour.project v3 = p ->
  finite_vertex p -> ColourProps.wf s ->
  ColourDrawProps.scans (vz (Colour.bounding_box p p p (Colour.w s) (Colour.h s)))
        (vw (Colour.bounding_box p p p (Colour.w s) (Colour.h s))) i0 i1 ->
  ColourDrawProps.scans (vx (Colour.bounding_box p p p (Colour.w s) (Colour.h s)))
        (vy (Colour.bounding_box p p p (Colour.w s) (Colour.h s))) j0 j1 ->
  0 <= i0 -> i1 <= Colour.h s -> 0 <= j0 -> j1 <= Colour.w s ->
  exists s',
    Colour.draw v1 v2 v3 s = Ret s'
    /\ (forall i j, i0 <= i < i1 -> j0 <= j < j1 ->
          F32.is_finite (Colour.to_cartesian j (Colour.w s) - vx p)%f32 = true ->
          F32.is_finite (Colour.to_cartesian i (Colour.h s) - vy p)%f32 = true ->
          Colour.inside_triangle p p p
            (Colour.to_cartesian j (Colour.w s))
            (Colour.to_cartesian i (Colour.h s)) = true
          /\ get_z_component p p p
               (Colour.to_cartesian j (Colour.w s))
               (Colour.to_cartesian i (Colour.h s)) = F32.nan
          /\ Colour.depth s' !! ColourProps.cell j i s = Some F32.nan
          /\ Colour.buf s' !! ColourProps.cell j i s
             = Some (Colour.shader s F32.nan))
    /\ (forall i j, ColourProps.in_range j i s ->
          ~ (i0 <= i < i1 /\ j0 <= j < j1) ->
          Colour.depth s' !! ColourProps.cell j i s
          = Colour.depth s !! ColourProps.cell j i s
          /\ Colour.buf s' !! ColourProps.cell j i s
             = Colour.buf s !! ColourProps.cell j i s).
Proof.
  intros H1 H2 H3 Hp Hwf (Hi & [Hile Himax] & Hit & Hiend)
    (Hj & [Hjle Hjmax] & Hjt & Hjend) Hi0 Hi1 Hj0 Hj1.
  assert (HI : INT_MIN < 0) by reflexivity.
  destruct (ColourScan.coincident_scan p s i0 i1 j0 j1 Hp Hwf)
    as (s' & Hrun & Hdone & Hsame); try assumption.
  exists s'. split; [|split].
  - unfold Colour.draw. cbv zeta. rewrite H1, H2, H3, Hi. cbn [bind].
    rewrite (for_int_fold _ _ i0 i1) by (auto; lia).
    rewrite <- Hrun. apply fold_range_ext. intros i s0.
    rewrite Hj. cbn [bind]. apply for_int_fold; auto; lia.
  - intros i j Hir Hjr Hx Hy.
    assert (Hr : ColourProps.in_range j i s) by (split; lia).
    destruct (coincident_pixel_is_written p s i j Hp Hwf Hr Hx Hy)
      as (Hin & Hd & _).
    split; [exact Hin|]. split; [exact Hd|]. now apply Hdone.
  - intros i j Hr Hn. destruct (Hsame j i Hr Hn) as [Hd Hb]. now split.
Qed.

Lemma coincident_triangle_is_drawn_witness :
  exists s',
    Colour.draw axis_point axis_point axis_point small_screen = Ret s'
    /\ (forall i j, 1 <= i < 3 -> 2 <= j < 5 ->
          F32.is_finite (Colour.to_cartesian j (Colour.w small_screen)
                         - vx (Colour.project axis_point))%f32 = true ->
          F32.is_finite (Colour.to_cartesian i (Colour.h small_screen)
                         - vy (Colour.project axis_point))%f32 = true ->
          Colour.inside_triangle (Colour.project axis_point)
            (Colour.project axis_point) (Colour.project axis_point)
            (Colour.to_cartesian j (Colour.w small_screen))
            (Colour.to_cartesian i (Colour.h small_screen)) = true
          /\ get_z_component (Colour.project axis_point)
               (Colour.project axis_point) (Colour.project axis_point)
               (Colour.to_cartesian j (Colour.w small_screen))
               (Colour.to_cartesian i (Colour.h small_screen)) = F32.nan
          /\ Colour.depth s' !! ColourProps.cell j i small_screen
             = Some F32.nan
          /\ Colour.buf s' !! ColourProps.cell j i small_screen
             = Some (Colour.shader small_screen F32.nan))
    /\ (forall i j, ColourProps.in_range j i small_screen ->
          ~ (1 <= i < 3 /\ 2 <= j < 5) ->
          Colour.depth s' !! ColourProps.cell j i small_screen
          = Colour.depth small_screen !! ColourProps.cell j i small_screen
          /\ Colour.buf s' !! ColourProps.cell j i small_screen
             = Colour.buf small_screen !! ColourProps.cell j i small_screen).
Proof.
  apply (coincident_triangle_is_drawn axis_point axis_point axis_point
           (Colour.project axis_point) small_screen 1 3 2 5).
  - reflexivity.
  - reflexivity.
  - reflexivity.
  - repeat split; reflexivity.
  - constructor; cbn; try reflexivity; unfold INT_MAX; lia.
  - split; [vm_compute; reflexivity|]. split; [unfold INT_MAX; lia|].
    split; [|vm_compute; reflexivity].
    intros k Hk. assert (Hc : k = 1 \/ k = 2) by lia.
    destruct Hc as [-> | ->]; vm_compute; reflexivity.
  - split; [vm_compute; reflexivity|]. split; [unfold INT_MAX; lia|].
    split; [|vm_compute; reflexivity].
    intros k Hk. assert (Hc : k = 2 \/ k = 3 \/ k = 4) by lia.
    destruct Hc as [-> | [-> | ->]]; vm_compute; reflexivity.
  - lia.
  - cbn; lia.
  - lia.
  - cbn; lia.
Defined.

(** ** [draw] of the character renderer, cell by cell *)

Lemma fold_range_triple {St : Type} (body : Z -> St -> outcome St)
    (P : Z -> St -> Prop) (G : Prop) :
  forall (cnt : nat) (i : Z) (s : St),
    (forall j s0, i <= j < i + Z.of_nat cnt -> P j s0 ->
       body j s0 <> AssertFail
       /\ (forall s1, body j s0 = Ret s1 -> P (j + 1) s1)
       /\ (G -> exists s1, body j s0 = Ret s1)) ->
    P i s ->
    fold_range body cnt i s <> AssertFail
    /\ (forall s', fold_range body cnt i s = Ret s' -> P (i + Z.of_nat cnt) s')
    /\ (G -> exists s', fold_range body cnt i s = Ret s').
Proof.
  induction cnt as [|c IH]; intros i s Hstep HP; cbn [fold_range].
  - split; [discriminate|]. split; [|now exists s].
    intros s' [= <-]. now rewrite Z.add_0_r.
  - destruct (Hstep i s) as (Hna & Hinv & Htot); [lia|exact HP|].
    assert (Hstep' : forall j s0, i + 1 <= j < i + 1 + Z.of_nat c -> P j s0 ->
              body j s0 <> AssertFail
              /\ (forall s1, body j s0 = Ret s1 -> P (j + 1) s1)
              /\ (G -> exists s1, body j s0 = Ret s1))
      by (intros j s0 Hj; apply Hstep; lia).
    replace (i + Z.of_nat (S c)) with (i + 1 + Z.of_nat c) by lia.
    destruct (body i s) as [s1| |] eqn:Hb; cbn [bind].
    + apply (IH (i + 1) s1 Hstep'). now apply Hinv.
    + now destruct Hna.
    + split; [discriminate|]. split; [discriminate|].
      intros HG. destruct (Htot HG) as [s1 H1]. discriminate H1.
Qed.

Module PipelineDraw.
Import Pipeline PipelineProps PipelineFacts PipelineGrid PipelineDrawProps.

Lemma f32_to_char_no_assert (lo hi : Z) (a : F32.t) :
  f32_to_char lo hi a <> AssertFail.
Proof.
  destruct a as [s|s| |s m e]; cbn [f32_to_char]; try discriminate.
  - destruct ((lo <=? 0) && (0 <=? hi)); discriminate.
  - match goal with |- (if ?c then _ else _) <> _ => destruct c end;
      discriminate.
Qed.

Lemma same_cell_transfer (s s1 s2 : screen) (c : nat) :
  depth s2 !! c = depth s1 !! c -> buf s2 !! c = buf s1 !! c ->
  same_cell s s1 c -> same_cell s s2 c.
Proof. intros Hd Hb [H1 H2]. split; congruence. Qed.

Lemma cell_after_transfer (lo hi : Z) (p1 p2 p3 : vec4) (s s1 s2 : screen)
    (x y : Z) :
  depth s2 !! cell x y s = depth s1 !! cell x y s ->
  buf s2 !! cell x y s = buf s1 !! cell x y s ->
  cell_after lo hi p1 p2 p3 s s1 x y -> cell_after lo hi p1 p2 p3 s s2 x y.
Proof.
  intros Hd Hb (st & Hst & H). exists st. split; [exact Hst|].
  cbv zeta in *. destruct (_ && _).
  - rewrite Hd, Hb. exact H.
  - now apply (same_cell_transfer s s1 s2).
Qed.

(** A state that differs from a state in progress at one cell only. *)
Lemma progress_next (lo hi : Z) (p1 p2 p3 : vec4) (s s0 s1 : screen)
    (i j : Z) :
  wf s -> in_range j i s ->
  progress lo hi p1 p2 p3 s (i * w s + j) s0 ->
  wf s1 -> w s1 = w s -> h s1 = h s ->
  (forall c, c <> cell j i s ->
     depth s1 !! c = depth s0 !! c /\ buf s1 !! c = buf s0 !! c) ->
  cell_after lo hi p1 p2 p3 s s1 j i ->
  progress lo hi p1 p2 p3 s (i * w s + j + 1) s1.
Proof.
  intros Hwf Hr (Hwf0 & Hw0 & Hh0 & Hcells) Hwf1 Hw1 Hh1 Hother Hthis.
  split; [exact Hwf1|]. split; [exact Hw1|]. split; [exact Hh1|].
  intros x y Hxy. destruct (Hcells x y Hxy) as [Hdone Htodo].
  destruct (Z.eq_dec (y * w s + x) (i * w s + j)) as [He|Hne].
  - destruct Hr as [Hj _], Hxy as [Hx _].
    destruct (flat_index_inj (w s) x y j i Hx Hj He) as [-> ->].
    split; [intros _; exact Hthis|lia].
  - assert (Hc : cell x y s <> cell j i s).
    { intros Hc. destruct (chars_cell_inj s x y j i Hwf Hxy Hr Hc). subst.
      now apply Hne. }
    destruct (Hother _ Hc) as [Hd Hb]. split.
    + intros Hlt. apply (cell_after_transfer lo hi p1 p2 p3 s s0 s1); auto.
      apply Hdone. lia.
    + intros Hge. apply (same_cell_transfer s s0 s1); auto.
      apply Htodo. lia.
Qed.

Lemma draw_pixel_step (lo hi : Z) (p1 p2 p3 : vec4) (s s0 : screen) (i j : Z) :
  wf s -> in_range j i s ->
  progress lo hi p1 p2 p3 s (i * w s + j) s0 ->
  draw_pixel lo hi p1 p2 p3 i j s0 <> AssertFail
  /\ (forall s1, draw_pixel lo hi p1 p2 p3 i j s0 = Ret s1 ->
        progress lo hi p1 p2 p3 s (i * w s + j + 1) s1)
  /\ (glyphs_defined lo hi p1 p2 p3 s ->
      exists s1, draw_pixel lo hi p1 p2 p3 i j s0 = Ret s1).
Proof.
  intros Hwf Hr Hprog. pose proof Hprog as (Hwf0 & Hw0 & Hh0 & Hcells).
  assert (Hr0 : in_range j i s0) by (unfold in_range; now rewrite Hw0, Hh0).
  assert (Hc0 : cell j i s0 = cell j i s) by (unfold cell; now rewrite Hw0).
  destruct (chars_stored_depth_exists s j i Hwf Hr) as [st Hst].
  destruct (Hcells j i Hr) as [_ Hsame]. destruct Hsame as [Hsd Hsb]; [lia|].
  assert (Hst0 : depth s0 !! cell j i s0 = Some st) by (rewrite Hc0; congruence).
  pose proof (chars_cell_lt s j i Hwf Hr) as Hlt.
  assert (Hstay : forall c, c <> cell j i s ->
            depth s0 !! c = depth s0 !! c /\ buf s0 !! c = buf s0 !! c)
    by (intros; split; reflexivity).
  unfold draw_pixel. rewrite Hw0, Hh0.
  set (mj := to_cartesian j (w s)). set (mi := to_cartesian i (h s)).
  set (d := get_z_component p1 p2 p3 mj mi).
  destruct (inside_triangle p1 p2 p3 mj mi) eqn:Hin.
  2:{ split; [discriminate|]. split; [|now exists s0].
      intros s1 [= <-]. apply (progress_next lo hi p1 p2 p3 s s0 s0 i j); auto.
      exists st. split; [exact Hst|]. cbv zeta. fold mj mi. rewrite Hin.
      cbn [andb]. split; assumption. }
  rewrite (chars_at_depth_in_range s0 j i d st Hwf0 Hr0 Hst0).
  destruct (st + #1 <? d)%f32 eqn:Ht; cbn [bind].
  { split; [discriminate|]. split; [|now exists s0].
    intros s1 [= <-]. apply (progress_next lo hi p1 p2 p3 s s0 s0 i j); auto.
    exists st. split; [exact Hst|]. cbv zeta. fold mj mi d. rewrite Hin, Ht.
    cbn [andb negb]. split; assumption. }
  pose proof (f32_to_char_no_assert lo hi (#48 + (d + one) * #5)%f32) as Hna.
  fold (glyph lo hi d) in Hna.
  destruct (glyph lo hi d) as [ch| |] eqn:Hg; cbn [bind].
  - split; [discriminate|]. split; [|eexists; reflexivity].
    intros s1 [= <-]. rewrite Hc0.
    apply (progress_next lo hi p1 p2 p3 s s0 _ i j); auto.
    + now apply chars_store_wf, chars_set_depth_wf.
    + intros c Hc. cbn [store set_depth depth buf].
      rewrite !list_lookup_insert_ne by congruence. split; reflexivity.
    + exists st. split; [exact Hst|]. cbv zeta. fold mj mi d.
      rewrite Hin, Ht. cbn [andb negb store set_depth depth buf].
      split.
      * apply list_lookup_insert_eq. rewrite (wf_depth s0 Hwf0), Hw0, Hh0.
        exact Hlt.
      * exists ch. split; [exact Hg|].
        apply list_lookup_insert_eq. rewrite (wf_buf s0 Hwf0), Hw0, Hh0.
        exact Hlt.
  - now destruct Hna.
  - split; [discriminate|]. split; [discriminate|].
    intros HG. destruct (HG j i st Hr Hst Hin Ht) as [ch Hch].
    fold mj mi d in Hch. congruence.
Qed.
End PipelineDraw.

Module PipelineDrawLoops.
Import Pipeline PipelineProps PipelineFacts PipelineGrid PipelineDrawProps
  PipelineDraw.

Lemma extents_fit (s : screen) :
  wf s -> 0 <= w s < SIZE_MOD /\ 0 <= h s < SIZE_MOD.
Proof.
  intros [HW HH HS _ _].
  assert (w s <= w s * h s) by nia. assert (h s <= w s * h s) by nia. lia.
Qed.

(** One row of [draw]. *)
Lemma draw_row (lo hi : Z) (p1 p2 p3 : vec4) (s s0 : screen) (i : Z) :
  wf s -> 0 <= i < h s ->
  progress lo hi p1 p2 p3 s (i * w s) s0 ->
  for_size (w s0) (fun j s1 => draw_pixel lo hi p1 p2 p3 i j s1) s0
  <> AssertFail
  /\ (forall s1,
        for_size (w s0) (fun j s1 => draw_pixel lo hi p1 p2 p3 i j s1) s0
        = Ret s1 ->
        progress lo hi p1 p2 p3 s ((i + 1) * w s) s1)
  /\ (glyphs_defined lo hi p1 p2 p3 s ->
      exists s1,
        for_size (w s0) (fun j s1 => draw_pixel lo hi p1 p2 p3 i j s1) s0
        = Ret s1).
Proof.
  intros Hwf Hi Hprog. pose proof Hprog as (_ & Hw0 & _).
  destruct (extents_fit s Hwf) as [Hw _].
  rewrite Hw0, for_size_fold by exact Hw.
  pose proof (fold_range_triple
                (fun j s1 => draw_pixel lo hi p1 p2 p3 i j s1)
                (fun j st => progress lo hi p1 p2 p3 s (i * w s + j) st)
                (glyphs_defined lo hi p1 p2 p3 s)
                (Z.to_nat (w s)) 0 s0) as H.
  cbn beta in H. rewrite Z2Nat.id, Z.add_0_l, Z.add_0_r in H by lia.
  replace ((i + 1) * w s) with (i * w s + w s) by lia.
  apply H; [|exact Hprog].
  intros j s1 Hj Hp.
  replace (i * w s + (j + 1)) with (i * w s + j + 1) by lia.
  apply draw_pixel_step; auto. split; lia.
Qed.

Lemma progress_start (lo hi : Z) (p1 p2 p3 : vec4) (s : screen) :
  wf s -> progress lo hi p1 p2 p3 s 0 s.
Proof.
  intros Hwf. split; [exact Hwf|]. split; [reflexivity|].
  split; [reflexivity|]. intros x y Hr.
  pose proof (chars_flat_index_bounds s x y Hwf Hr).
  split; [lia|]. intros _. split; reflexivity.
Qed.

Lemma draw_progress (lo hi : Z) (v1 v2 v3 : vec3) (s : screen) :
  wf s ->
  draw lo hi v1 v2 v3 s <> AssertFail
  /\ (forall s', draw lo hi v1 v2 v3 s = Ret s' ->
        progress lo hi (project v1) (project v2) (project v3) s
          (h s * w s) s')
  /\ (glyphs_defined lo hi (project v1) (project v2) (project v3) s ->
      exists s', draw lo hi v1 v2 v3 s = Ret s').
Proof.
  intros Hwf. unfold draw. cbv zeta.
  destruct (extents_fit s Hwf) as [_ Hh].
  rewrite for_size_fold by exact Hh.
  pose proof (fold_range_triple
                (fun i s0 =>
                   for_size (w s0)
                     (fun j s1 =>
                        draw_pixel lo hi (project v1) (project v2) (project v3)
                          i j s1) s0)
                (fun i st =>
                   progress lo hi (project v1) (project v2) (project v3) s
                     (i * w s) st)
                (glyphs_defined lo hi (project v1) (project v2) (project v3) s)
                (Z.to_nat (h s)) 0 s) as H.
  cbn beta in H. rewrite Z2Nat.id, Z.add_0_l in H by lia.
  apply H; [|now apply progress_start].
  intros i s0 Hi Hp. apply draw_row; auto.
Qed.
End PipelineDrawLoops.

(** X14: [draw] of the character renderer, cell by cell.  On a
    well-formed grid, when [draw] returns, the grid is still well-formed
    and every cell [(x, y)] holds: the depth [d] of the triangle's plane at
    its sample point and the glyph ['0' + (d + 1) * 5] when the sample
    point is inside the triangle and [d] passes the test against the
    depth the cell had before the call; and its previous depth and
    content in every other case. *)
Theorem pipeline_draw_cell_by_cell
    (char_min char_max : Z) (v1 v2 v3 : vec3) (s s' : Pipeline.screen) :
  PipelineProps.wf s ->
  Pipeline.draw char_min char_max v1 v2 v3 s = Ret s' ->
  PipelineProps.wf s'
  /\ Pipeline.w s' = Pipeline.w s /\ Pipeline.h s' = Pipeline.h s
  /\ forall x y : Z,
       PipelineProps.in_range x y s ->
       exists stored,
         Pipeline.depth s !! PipelineProps.cell x y s = Some stored
         /\ let d := get_z_component (Pipeline.project v1) (Pipeline.project v2)
                       (Pipeline.project v3)
                       (Pipeline.to_cartesian x (Pipeline.w s))
                       (Pipeline.to_cartesian y (Pipeline.h s)) in
            if Pipeline.inside_triangle (Pipeline.project v1)
                 (Pipeline.project v2) (Pipeline.project v3)
                 (Pipeline.to_cartesian x (Pipeline.w s))
                 (Pipeline.to_cartesian y (Pipeline.h s))
               && negb (stored + #1 <? d)%f32
            then Pipeline.depth s' !! PipelineProps.cell x y s = Some d
                 /\ exists ch,
                      Pipeline.glyph char_min char_max d = Ret ch
                      /\ Pipeline.buf s' !! PipelineProps.cell x y s = Some ch
            else Pipeline.depth s' !! PipelineProps.cell x y s
                 = Pipeline.depth s !! PipelineProps.cell x y s
                 /\ Pipeline.buf s' !! PipelineProps.cell x y s
                    = Pipeline.buf s !! PipelineProps.cell x y s.
Proof.
  intros Hwf Hd.
  destruct (PipelineDrawLoops.draw_progress char_min char_max v1 v2 v3 s Hwf)
    as (_ & Hp & _).
  destruct (Hp s' Hd) as (Hwf' & Hw & Hh & Hcells).
  split; [exact Hwf'|]. split; [exact Hw|]. split; [exact Hh|].
  intros x y Hr. destruct (Hcells x y Hr) as [Hdone _].
  pose proof (PipelineFacts.chars_flat_index_bounds s x y Hwf Hr).
  apply Hdone. lia.
Qed.

Lemma pipeline_draw_cell_by_cell_witness :
  PipelineProps.wf drawn_chars
  /\ Pipeline.w drawn_chars = Pipeline.w small_chars
  /\ Pipeline.h drawn_chars = Pipeline.h small_chars
  /\ forall x y : Z,
       PipelineProps.in_range x y small_chars ->
       exists stored,
         Pipeline.depth small_chars !! PipelineProps.cell x y small_chars
         = Some stored
         /\ let d := get_z_component (Pipeline.project in_a)
                       (Pipeline.project in_b) (Pipeline.project in_c)
                       (Pipeline.to_cartesian x (Pipeline.w small_chars))
                       (Pipeline.to_cartesian y (Pipeline.h small_chars)) in
            if Pipeline.inside_triangle (Pipeline.project in_a)
                 (Pipeline.project in_b) (Pipeline.project in_c)
                 (Pipeline.to_cartesian x (Pipeline.w small_chars))
                 (Pipeline.to_cartesian y (Pipeline.h small_chars))
               && negb (stored + #1 <? d)%f32
            then Pipeline.depth drawn_chars !! PipelineProps.cell x y small_chars
                 = Some d
                 /\ exists ch,
                      Pipeline.glyph (-128) 127 d = Ret ch
                      /\ Pipeline.buf drawn_chars
                           !! PipelineProps.cell x y small_chars = Some ch
            else Pipeline.depth drawn_chars !! PipelineProps.cell x y small_chars
                 = Pipeline.depth small_chars
                     !! PipelineProps.cell x y small_chars
                 /\ Pipeline.buf drawn_chars
                      !! PipelineProps.cell x y small_chars
                    = Pipeline.buf small_chars
                        !! PipelineProps.cell x y small_chars.
Proof.
  apply (pipeline_draw_cell_by_cell (-128) 127 in_a in_b in_c small_chars
           drawn_chars).
  - constructor; cbn; try reflexivity; unfold SIZE_MOD; lia.
  - vm_compute. reflexivity.
Defined.

(** X15: [draw] of the character renderer stays inside the grid.  On a
    well-formed grid it never stops on the assertion of [at]; and when
    every glyph it has to store is representable in [char], it returns.
    (Its only other outcome is the undefined conversion of a glyph.) *)
Theorem pipeline_draw_never_asserts
    (char_min char_max : Z) (v1 v2 v3 : vec3) (s : Pipeline.screen) :
  PipelineProps.wf s ->
  Pipeline.draw char_min char_max v1 v2 v3 s <> AssertFail
  /\ ((forall x y stored,
          PipelineProps.in_range x y s ->
          Pipeline.depth s !! PipelineProps.cell x y s = Some stored ->
          Pipeline.inside_triangle (Pipeline.project v1) (Pipeline.project v2)
            (Pipeline.project v3)
            (Pipeline.to_cartesian x (Pipeline.w s))
            (Pipeline.to_cartesian y (Pipeline.h s)) = true ->
          (stored + #1
           <? get_z_component (Pipeline.project v1) (Pipeline.project v2)
                (Pipeline.project v3)
                (Pipeline.to_cartesian x (Pipeline.w s))
                (Pipeline.to_cartesian y (Pipeline.h s)))%f32 = false ->
          exists ch,
            Pipeline.glyph char_min char_max
              (get_z_component (Pipeline.project v1) (Pipeline.project v2)
                 (Pipeline.project v3)
                 (Pipeline.to_cartesian x (Pipeline.w s))
                 (Pipeline.to_cartesian y (Pipeline.h s))) = Ret ch) ->
      exists s', Pipeline.draw char_min char_max v1 v2 v3 s = Ret s').
Proof.
  intros Hwf.
  destruct (PipelineDrawLoops.draw_progress char_min char_max v1 v2 v3 s Hwf)
    as (Hna & _ & Htot).
  split; [exact Hna|exact Htot].
Qed.

Lemma pipeline_draw_never_asserts_witness :
  Pipeline.draw (-128) 127 axis_point axis_point axis_point small_chars
  <> AssertFail.
Proof.
  apply (pipeline_draw_never_asserts (-128) 127 axis_point axis_point
           axis_point small_chars).
  constructor; cbn; try reflexivity; unfold SIZE_MOD; lia.
Defined.

(** ** [render] of the character renderer *)

Module PipelineRender.
Import Pipeline PipelineProps PipelineFacts PipelineGrid PipelineRenderProps
  PipelineDrawLoops.

Lemma dashes (cnt : nat) :
  forall (i : Z) (out : list Z),
    fold_range (fun _ o => Ret (putc 45 o)) cnt i out
    = Ret (out ++ replicate cnt 45).
Proof.
  induction cnt as [|c IH]; intros i out; cbn [fold_range replicate bind].
  - now rewrite app_nil_r.
  - rewrite IH. unfold putc. now rewrite <- app_assoc.
Qed.

Lemma render_border_text (s : screen) (out : list Z) :
  wf s -> render_border s out = Ret (out ++ border_text s).
Proof.
  intros Hwf. destruct (extents_fit s Hwf) as [Hw _].
  unfold render_border. rewrite for_size_fold by exact Hw.
  rewrite dashes. cbn [bind]. unfold putc, border_text.
  now rewrite <- !app_assoc.
Qed.

(** The cells of row [i] from column [j] on. *)
Lemma row_cells (s : screen) (i : Z) :
  wf s -> 0 <= i < h s ->
  forall (cnt : nat) (j : Z) (out : list Z),
    0 <= j -> j + Z.of_nat cnt <= w s ->
    fold_range (fun j o => let! ch := at_value j i s in Ret (putc ch o))
      cnt j out
    = Ret (out ++ map (fun c => c mod 256)
                    (take cnt (drop (Z.to_nat (i * w s + j)) (buf s)))).
Proof.
  intros Hwf Hi. induction cnt as [|c IH]; intros j out Hj Hc;
    cbn [fold_range].
  - cbn. now rewrite app_nil_r.
  - assert (Hr : in_range j i s) by (split; lia).
    destruct (chars_cell_content_exists s j i Hwf Hr) as [ch Hch].
    rewrite (at_value_in_range s j i ch Hwf Hr Hch). cbn [bind].
    rewrite IH by lia. unfold cell in Hch.
    rewrite (drop_S _ _ _ Hch). cbn [take map]. unfold putc.
    rewrite <- app_assoc. cbn [app].
    replace (Z.to_nat (i * w s + (j + 1))) with (S (Z.to_nat (i * w s + j)));
      [reflexivity|].
    pose proof (chars_flat_index_bounds s j i Hwf Hr). lia.
Qed.

Lemma row_line (s : screen) (i : Z) (out : list Z) :
  wf s -> 0 <= i < h s ->
  (let! o2 :=
     for_size (w s)
       (fun j o3 => let! ch := at_value j i s in Ret (putc ch o3))
       (putc 124 out) in
   Ret (putc 10 (putc 124 o2)))
  = Ret (out ++ row_text s (Z.to_nat i)).
Proof.
  intros Hwf Hi. destruct (extents_fit s Hwf) as [Hw _].
  rewrite for_size_fold by exact Hw.
  rewrite (row_cells s i Hwf Hi) by lia. cbn [bind].
  unfold putc, row_text. rewrite Z.add_0_r.
  replace (Z.to_nat (i * w s)) with (Z.to_nat i * Z.to_nat (w s))%nat by nia.
  now rewrite <- !app_assoc.
Qed.

Lemma rows (s : screen) :
  wf s ->
  forall (cnt : nat) (i : Z) (out : list Z),
    0 <= i -> i + Z.of_nat cnt <= h s ->
    fold_range
      (fun i o =>
         let o1 := putc 124 o in
         let! o2 :=
           for_size (w s)
             (fun j o3 => let! ch := at_value j i s in Ret (putc ch o3)) o1 in
         Ret (putc 10 (putc 124 o2)))
      cnt i out
    = Ret (out ++ concat (map (row_text s) (seq (Z.to_nat i) cnt))).
Proof.
  intros Hwf. induction cnt as [|c IH]; intros i out Hi Hc; cbn [fold_range].
  - cbn. now rewrite app_nil_r.
  - cbv zeta. rewrite (row_line s i out Hwf) by lia. cbn [bind].
    rewrite IH by lia. cbn [seq map concat].
    replace (Z.to_nat (i + 1)) with (S (Z.to_nat i)) by lia.
    now rewrite <- app_assoc.
Qed.

Lemma render_picture (s : screen) : wf s -> render s = Ret (picture s).
Proof.
  intros Hwf. destruct (extents_fit s Hwf) as [_ Hh].
  unfold render. rewrite (render_border_text s [] Hwf). cbn [bind].
  rewrite for_size_fold by exact Hh.
  rewrite (rows s Hwf) by lia. cbn [bind].
  rewrite (render_border_text s _ Hwf). unfold putc, picture.
  now rewrite <- !app_assoc.
Qed.
End PipelineRender.

(** X16: [render] of the character renderer prints the framed picture of
    the buffer.  On a well-formed grid it returns (no assertion, no
    access outside the buffer) and the characters it writes are: a border
    line ['+', '-' * w, '+'], a line feed, then for each row in order
    ['|'], the [w] cells of that row in column order, ['|'] and a line
    feed, and a final border line without a line feed. *)
Theorem render_prints_the_buffer (s : Pipeline.screen) :
  PipelineProps.wf s ->
  Pipeline.render s
  = Ret ([43] ++ replicate (Z.to_nat (Pipeline.w s)) 45 ++ [43] ++ [10]
         ++ concat
              (map (fun i : nat =>
                      [124]
                      ++ map (fun c => c mod 256)
                           (take (Z.to_nat (Pipeline.w s))
                              (drop (i * Z.to_nat (Pipeline.w s))
                                 (Pipeline.buf s)))
                      ++ [124; 10])
                 (seq 0 (Z.to_nat (Pipeline.h s))))
         ++ [43] ++ replicate (Z.to_nat (Pipeline.w s)) 45 ++ [43]).
Proof.
  intros Hwf. rewrite (PipelineRender.render_picture s Hwf).
  unfold PipelineRenderProps.picture, PipelineRenderProps.border_text.
  f_equal. rewrite <- !app_assoc. reflexivity.
Qed.

Lemma render_prints_the_buffer_witness :
  Pipeline.render small_chars
  = Ret ([43] ++ replicate (Z.to_nat (Pipeline.w small_chars)) 45 ++ [43]
         ++ [10]
         ++ concat
              (map (fun i : nat =>
                      [124]
                      ++ map (fun c => c mod 256)
                           (take (Z.to_nat (Pipeline.w small_chars))
                              (drop (i * Z.to_nat (Pipeline.w small_chars))
                                 (Pipeline.buf small_chars)))
                      ++ [124; 10])
                 (seq 0 (Z.to_nat (Pipeline.h small_chars))))
         ++ [43] ++ replicate (Z.to_nat (Pipeline.w small_chars)) 45 ++ [43]).
Proof.
  apply (render_prints_the_buffer small_chars).
  constructor; cbn; try reflexivity; unfold SIZE_MOD; lia.
Defined.

(** ** The sample coordinates of the grid *)

Section Canonical.
Variables prec emax : Z.

(** A canonical mantissa is not changed by rounding. *)
Lemma round_canonical (s : bool) (m : positive) (e : Z) :
  bounded prec emax m e = true ->
  binary_round_aux prec emax s (Zpos m) e loc_Exact = S754_finite s m e.
Proof.
  unfold bounded, canonical_mantissa. intros [H1 H2]%andb_true_iff.
  apply Z.eqb_eq in H1.
  assert (Hs : shr_fexp prec emax (Zpos m) e loc_Exact
               = (Build_shr_record (Zpos m) false false, e)).
  { unfold shr_fexp, Zdigits2. rewrite H1, Z.sub_diag. reflexivity. }
  unfold binary_round_aux. rewrite Hs.
  cbn [shr_m loc_of_shr_record round_nearest_even]. rewrite Hs.
  cbn [shr_m]. now rewrite H2.
Qed.

Lemma SFdiv_by_zero_not_finite (a b : spec_float) :
  F32.is_zero b = true -> F32.is_finite (SFdiv prec emax a b) = false.
Proof.
  destruct a as [sa|sa| |sa ma ea], b as [sb|sb| |sb mb eb]; simpl;
    intros H; try discriminate; reflexivity.
Qed.
End Canonical.

Lemma digits2_size (m : positive) : digits2_pos m = Pos.size m.
Proof. induction m; cbn; congruence. Qed.

Lemma digits2_bound (m : positive) (k : Z) :
  0 <= k -> Zpos m < 2 ^ k -> Zpos (digits2_pos m) <= k.
Proof.
  intros Hk Hm. rewrite digits2_size.
  pose proof (Pos.size_le m) as Hs.
  apply Pos2Z.pos_le_pos in Hs. rewrite Pos2Z.inj_pow in Hs.
  change (Zpos m~0) with (2 * Zpos m) in Hs.
  assert (H : 2 ^ Zpos (Pos.size m) < 2 ^ (k + 1)).
  { rewrite Z.pow_add_r by lia. lia. }
  apply Z.pow_lt_mono_r_iff in H; lia.
Qed.

(** The [double] of a positive integer below [2^53]: a mantissa of 53
    digits, nothing rounded away. *)
Lemma of_int64_shape (m : positive) :
  Zpos m < 2 ^ 53 ->
  exists mz ez,
    F64.of_int (Zpos m) = S754_finite false mz ez
    /\ Zpos (digits2_pos mz) = 53 /\ -52 <= ez <= 0.
Proof.
  intros Hm. pose proof (digits2_bound m 53 ltac:(lia) Hm) as Hd.
  assert (Hd1 : 1 <= Zpos (digits2_pos m)) by lia.
  unfold F64.of_int, binary_normalize, binary_round.
  assert (He : fexp F64.prec F64.emax (Zpos (digits2_pos m) + 0)
               = Zpos (digits2_pos m) - 53).
  { unfold fexp, emin, F64.prec, F64.emax. lia. }
  rewrite He. unfold shl_align.
  destruct (Zpos (digits2_pos m) - 53 - 0) as [|dd|dd] eqn:E; try lia.
  - exists m, 0. split; [|lia].
    apply round_canonical. unfold bounded, canonical_mantissa.
    apply andb_true_iff. split; [apply Z.eqb_eq|reflexivity].
    unfold fexp, emin, F64.prec, F64.emax. lia.
  - exists (Pos.iter xO m dd), (Zpos (digits2_pos m) - 53).
    assert (Hdd : Zpos (digits2_pos (Pos.iter xO m dd)) = 53)
      by (rewrite digits2_iter_xO; lia).
    split; [|lia].
    apply round_canonical. unfold bounded, canonical_mantissa.
    apply andb_true_iff. split; [apply Z.eqb_eq|apply Z.leb_le].
    + rewrite Hdd. unfold fexp, emin, F64.prec, F64.emax. lia.
    + unfold F64.prec, F64.emax. lia.
Qed.

(** Doubling such a value only raises the exponent. *)
Lemma double_times_two (mz : positive) (ez : Z) :
  Zpos (digits2_pos mz) = 53 -> -52 <= ez <= 0 ->
  F64.mul (S754_finite false mz ez) (F64.of_int 2)
  = S754_finite false mz (ez + 1).
Proof.
  intros Hd He.
  change (F64.of_int 2) with (S754_finite false 4503599627370496 (-51)).
  unfold F64.mul, SFmul. rewrite Pos.mul_comm.
  change (4503599627370496 * mz)%positive with (Pos.iter xO mz 52).
  cbn [xorb]. unfold binary_round_aux.
  assert (Hf : fexp F64.prec F64.emax (53 + (ez + 1)) = ez + 1)
    by (unfold fexp, emin, F64.prec, F64.emax; lia).
  assert (H1 : shr_fexp F64.prec F64.emax (Zpos (Pos.iter xO mz 52))
                 (ez + -51) loc_Exact
               = (Build_shr_record (Zpos mz) false false, ez + 1)).
  { unfold shr_fexp, Zdigits2. rewrite digits2_iter_xO.
    replace (Zpos (digits2_pos mz + 52) + (ez + -51)) with (53 + (ez + 1))
      by lia.
    rewrite Hf. replace (ez + 1 - (ez + -51)) with 52 by lia.
    unfold shr. f_equal. lia. }
  rewrite H1. cbn [shr_m loc_of_shr_record round_nearest_even].
  assert (H2 : shr_fexp F64.prec F64.emax (Zpos mz) (ez + 1) loc_Exact
               = (Build_shr_record (Zpos mz) false false, ez + 1)).
  { unfold shr_fexp, Zdigits2. rewrite Hd, Hf, Z.sub_diag. reflexivity. }
  rewrite H2. cbn [shr_m].
  destruct (Z.leb_spec (ez + 1) (F64.emax - F64.prec)) as [_|Hgt];
    [reflexivity|].
  unfold F64.emax, F64.prec in Hgt. lia.
Qed.

(** The double of a value divided by the value is exactly two. *)
Lemma doubled_over_itself (mz : positive) (ez : Z) :
  F64.div (S754_finite false mz (ez + 1)) (S754_finite false mz ez)
  = F64.of_int 2.
Proof.
  unfold F64.div, SFdiv, SFdiv_core_binary.
  replace (Zdigits2 (Zpos mz) + (ez + 1) - (Zdigits2 (Zpos mz) + ez)) with 1
    by lia.
  replace (ez + 1 - ez) with 1 by lia.
  change (Z.min (fexp F64.prec F64.emax 1) 1) with (-52).
  change (1 - -52) with 53. cbv iota.
  rewrite (div_eucl_shifted mz 53) by lia.
  rewrite new_location_zero. vm_compute. reflexivity.
Qed.

Lemma first_sample (k : Z) (s : bool) (m : positive) (e : Z) :
  F64.of_int k = S754_finite s m e ->
  F64.to_f32
    (F64.sub (F64.div (F64.mul (F64.of_int 0) (F64.of_int 2)) (F64.of_int k))
       (F64.of_int 1))
  = #(-1)%f32.
Proof. intros ->. destruct s; vm_compute; reflexivity. Qed.

Lemma last_sample (k : Z) :
  1 <= k < 2 ^ 53 ->
  F64.to_f32
    (F64.sub (F64.div (F64.mul (F64.of_int k) (F64.of_int 2)) (F64.of_int k))
       (F64.of_int 1))
  = one.
Proof.
  intros Hk. destruct k as [|m|m]; try lia.
  destruct (of_int64_shape m) as (mz & ez & -> & Hd & He); [lia|].
  rewrite (double_times_two mz ez Hd He), doubled_over_itself.
  vm_compute. reflexivity.
Qed.

(** X17: the first and the last index of an extent are sampled exactly
    on the borders of the NDC square: for every extent [n] with
    [2 <= n <= 2^53], [to_cartesian(0, n)] is [-1] and
    [to_cartesian(n - 1, n)] is [+1], without rounding error.  Both
    revisions. *)
Theorem to_cartesian_endpoints (n : Z) :
  2 <= n <= 2 ^ 53 ->
  Colour.to_cartesian 0 n = #(-1)%f32
  /\ Colour.to_cartesian (n - 1) n = one
  /\ Pipeline.to_cartesian 0 n = #(-1)%f32
  /\ Pipeline.to_cartesian (n - 1) n = one.
Proof.
  intros Hn.
  assert (Hk : 1 <= n - 1 < 2 ^ 53) by lia.
  assert (Hm : (n - 1) mod SIZE_MOD = n - 1)
    by (apply Z.mod_small; unfold SIZE_MOD; lia).
  assert (Hf : exists s m e, F64.of_int (n - 1) = S754_finite s m e).
  { destruct (n - 1) as [|m|m] eqn:E; try lia.
    destruct (of_int64_shape m) as (mz & ez & H & _); [lia|]. eauto. }
  destruct Hf as (s & m & e & Hf).
  unfold Colour.to_cartesian, Pipeline.to_cartesian. rewrite Hm.
  repeat split.
  - exact (first_sample _ s m e Hf).
  - exact (last_sample _ Hk).
  - exact (first_sample _ s m e Hf).
  - exact (last_sample _ Hk).
Qed.

Lemma to_cartesian_endpoints_witness :
  Colour.to_cartesian 0 150 = #(-1)%f32
  /\ Colour.to_cartesian (150 - 1) 150 = one
  /\ Pipeline.to_cartesian 0 150 = #(-1)%f32
  /\ Pipeline.to_cartesian (150 - 1) 150 = one.
Proof. apply (to_cartesian_endpoints 150). lia. Defined.

(** ** Grids of a single column or row *)

Lemma sub_not_finite (prec emax : Z) (a b : spec_float) :
  F32.is_finite a = false -> F32.is_finite b = true ->
  F32.is_finite (SFsub prec emax a b) = false.
Proof.
  destruct a as [sa|sa| |sa ma ea], b as [sb|sb| |sb mb eb]; simpl;
    intros Ha Hb; try discriminate; reflexivity.
Qed.

Lemma to_f32_not_finite (a : F64.t) :
  F32.is_finite a = false -> F32.is_finite (F64.to_f32 a) = false.
Proof. destruct a; simpl; intros H; try discriminate; reflexivity. Qed.

Lemma sample_of_extent_one (num : F64.t) :
  F32.is_finite
    (F64.to_f32 (F64.sub (F64.div num (F64.of_int 0)) (F64.of_int 1))) = false.
Proof.
  apply to_f32_not_finite, sub_not_finite; [|reflexivity].
  now apply SFdiv_by_zero_not_finite.
Qed.

Lemma inside_nan_sample (a b c : vec4) (x y : F32.t) :
  x = F32.nan \/ y = F32.nan ->
  Pipeline.inside_triangle a b c x y = false.
Proof.
  intros H. unfold Pipeline.inside_triangle.
  change Pipeline.edge with Colour.edge.
  rewrite (edge_nan b a x y); [reflexivity|].
  destruct H as [-> | ->]; [left|right; left]; reflexivity.
Qed.

Module ThinGrid.
Import Pipeline PipelineProps PipelineFacts PipelineGrid PipelineDrawProps
  PipelineDrawLoops.

(** Every index of the buffers is the cell of a pixel of the grid. *)
Lemma cell_onto (s : screen) (c : nat) :
  wf s -> (c < Z.to_nat (w s * h s))%nat ->
  exists x y, in_range x y s /\ cell x y s = c.
Proof.
  intros [HW HH HS _ _] Hc.
  exists (Z.of_nat c mod w s), (Z.of_nat c / w s).
  pose proof (Z.mod_pos_bound (Z.of_nat c) (w s) HW) as Hm.
  pose proof (Z.div_mod (Z.of_nat c) (w s) ltac:(lia)) as Hdm.
  assert (Hq0 : 0 <= Z.of_nat c / w s) by (apply Z.div_pos; lia).
  assert (Hq1 : Z.of_nat c / w s < h s).
  { apply Z.div_lt_upper_bound; lia. }
  split; [split; lia|]. unfold cell.
  replace (Z.of_nat c / w s * w s + Z.of_nat c mod w s) with (Z.of_nat c)
    by lia.
  apply Nat2Z.id.
Qed.

Lemma unchanged_grid (s s' : screen) :
  wf s -> wf s' -> w s' = w s -> h s' = h s ->
  (forall x y, in_range x y s -> same_cell s s' (cell x y s)) ->
  s' = s.
Proof.
  intros Hwf Hwf' Hw Hh Hsame.
  assert (Hb : buf s' = buf s).
  { apply list_eq. intros c.
    destruct (Nat.lt_ge_cases c (Z.to_nat (w s * h s))) as [Hlt|Hge].
    - destruct (cell_onto s c Hwf Hlt) as (x & y & Hr & <-).
      now destruct (Hsame x y Hr).
    - rewrite !lookup_ge_None_2; auto.
      + now rewrite (wf_buf s Hwf).
      + now rewrite (wf_buf s' Hwf'), Hw, Hh. }
  assert (Hd : depth s' = depth s).
  { apply list_eq. intros c.
    destruct (Nat.lt_ge_cases c (Z.to_nat (w s * h s))) as [Hlt|Hge].
    - destruct (cell_onto s c Hwf Hlt) as (x & y & Hr & <-).
      now destruct (Hsame x y Hr).
    - rewrite !lookup_ge_None_2; auto.
      + now rewrite (wf_depth s Hwf).
      + now rewrite (wf_depth s' Hwf'), Hw, Hh. }
  destruct s, s'. cbn in *. congruence.
Qed.

Lemma thin_sample_outside (p1 p2 p3 : vec4) (s : screen) (x y : Z) :
  w s = 1 \/ h s = 1 -> in_range x y s ->
  inside_triangle p1 p2 p3 (to_cartesian x (w s)) (to_cartesian y (h s))
  = false.
Proof.
  intros Hthin [Hx Hy]. apply inside_nan_sample.
  destruct Hthin as [H1|H1]; rewrite H1 in *.
  - left. replace x with 0 by lia. vm_compute. reflexivity.
  - right. replace y with 0 by lia. vm_compute. reflexivity.
Qed.

Lemma thin_draw (lo hi : Z) (v1 v2 v3 : vec3) (s : screen) :
  wf s -> w s = 1 \/ h s = 1 -> draw lo hi v1 v2 v3 s = Ret s.
Proof.
  intros Hwf Hthin.
  destruct (draw_progress lo hi v1 v2 v3 s Hwf) as (_ & Hp & Htot).
  destruct Htot as [s' Hs'].
  { intros x y st Hr _ Hin.
    rewrite (thin_sample_outside _ _ _ s x y Hthin Hr) in Hin.
    discriminate Hin. }
  rewrite Hs'. f_equal.
  destruct (Hp s' Hs') as (Hwf' & Hw & Hh & Hcells).
  apply unchanged_grid; auto.
  intros x y Hr. destruct (Hcells x y Hr) as [Hdone _].
  pose proof (chars_flat_index_bounds s x y Hwf Hr).
  destruct Hdone as (st & Hst & Hc); [lia|].
  cbv zeta in Hc.
  now rewrite (thin_sample_outside _ _ _ s x y Hthin Hr) in Hc.
Qed.
End ThinGrid.

(** X18: an extent of one pixel has no sample coordinate.
    [to_cartesian(coord, 1)] divides by [1 - 1 = 0] and is never a finite
    number, for any index, in both revisions.  As a consequence [draw] of
    the character renderer on a well-formed grid of a single column or a
    single row returns the grid unchanged, whatever the triangle. *)
Theorem single_pixel_extent_is_never_drawn :
  (forall coord : Z,
      F32.is_finite (Colour.to_cartesian coord 1) = false
      /\ F32.is_finite (Pipeline.to_cartesian coord 1) = false)
  /\ (forall (char_min char_max : Z) (v1 v2 v3 : vec3) (s : Pipeline.screen),
      PipelineProps.wf s -> Pipeline.w s = 1 \/ Pipeline.h s = 1 ->
      Pipeline.draw char_min char_max v1 v2 v3 s = Ret s).
Proof.
  split.
  - intros coord. split; apply sample_of_extent_one.
  - exact ThinGrid.thin_draw.
Qed.

Lemma single_pixel_extent_is_never_drawn_witness :
  Pipeline.draw (-128) 127 in_a in_b in_c (Pipeline.mk_screen 1 4)
  = Ret (Pipeline.mk_screen 1 4).
Proof.
  apply (proj2 single_pixel_extent_is_never_drawn (-128) 127 in_a in_b in_c
           (Pipeline.mk_screen 1 4)).
  - constructor; cbn; try reflexivity; unfold SIZE_MOD; lia.
  - left. reflexivity.
Defined.

(** ** Addressing by flat index *)

Lemma checked_index_any (s : Colour.screen) (x y : Z) :
  ColourProps.wf s ->
  INT_MIN <= y * Colour.w s <= INT_MAX ->
  INT_MIN <= y * Colour.w s + x <= INT_MAX ->
  Colour.checked_index x y s
  = if y * Colour.w s + x <? Colour.w s * Colour.h s
    then Ret (y * Colour.w s + x) else AssertFail.
Proof.
  intros [HW HH HS _ _] Hyw Hf.
  assert (H1 : 0 < Colour.w s * Colour.h s) by (apply Z.mul_pos_pos; lia).
  assert (HI : INT_MIN < 0) by reflexivity.
  unfold Colour.checked_index, int_mul, int_add.
  rewrite (int_result_ok (y * Colour.w s)) by lia. cbn [bind].
  rewrite (int_result_ok (y * Colour.w s + x)) by lia. cbn [bind].
  rewrite (int_result_ok (Colour.w s * Colour.h s)) by lia. cbn [bind].
  destruct (y * Colour.w s + x <? Colour.w s * Colour.h s); reflexivity.
Qed.

(** X19: the accessors of the [int] revision address a cell by its flat
    index only.  On a well-formed grid, two coordinate pairs whose flat
    indices [y * w + x] are equal (and computed without overflow) behave
    identically in every accessor: the same outcome, the same cell, the
    same resulting grid - even when one pair lies outside the grid. *)
Theorem same_flat_index_same_cell
    (s : Colour.screen) (x y x' y' : Z) (d : F32.t) :
  ColourProps.wf s ->
  INT_MIN <= y * Colour.w s <= INT_MAX ->
  INT_MIN <= y' * Colour.w s <= INT_MAX ->
  INT_MIN <= y * Colour.w s + x <= INT_MAX ->
  y * Colour.w s + x = y' * Colour.w s + x' ->
  Colour.at_const x y s = Colour.at_const x' y' s
  /\ Colour.at_ref x y s = Colour.at_ref x' y' s
  /\ Colour.at_depth x y d s = Colour.at_depth x' y' d s.
Proof.
  intros Hwf Hy Hy' Hf He.
  assert (Hc : Colour.checked_index x y s = Colour.checked_index x' y' s).
  { rewrite (checked_index_any s x y Hwf Hy Hf).
    rewrite (checked_index_any s x' y' Hwf Hy') by lia.
    now rewrite He. }
  unfold Colour.at_const, Colour.at_ref, Colour.at_depth.
  now rewrite Hc.
Qed.

Lemma same_flat_index_same_cell_witness :
  Colour.at_const 6 0 small_screen = Colour.at_const 0 1 small_screen
  /\ Colour.at_ref 6 0 small_screen = Colour.at_ref 0 1 small_screen
  /\ Colour.at_depth 6 0 half small_screen
     = Colour.at_depth 0 1 half small_screen.
Proof.
  apply (same_flat_index_same_cell small_screen 6 0 0 1 half).
  - constructor; cbn; try reflexivity; unfold INT_MAX; lia.
  - cbn. unfold INT_MIN, INT_MAX. lia.
  - cbn. unfold INT_MIN, INT_MAX. lia.
  - cbn. unfold INT_MIN, INT_MAX. lia.
  - reflexivity.
Defined.

(** ** The bounds that the constants fix *)

Lemma min_il_above_zero (u v t : F32.t) :
  (#0 <? u)%f32 = true -> (#0 <? v)%f32 = true -> (#0 <? t)%f32 = true ->
  min_il u [v; t; #0%f32] = #0%f32.
Proof.
  intros Hu Hv Ht. unfold min_il. cbn [fold_left].
  destruct (v <? u)%f32, (t <? v)%f32, (t <? u)%f32;
    rewrite ?Hu, ?Hv, ?Ht; reflexivity.
Qed.

(** X20: the constants of [bounding_box] fix its bounds.  Whenever the
    three projected [x] are below [1] (by [operator<]), the upper [x]
    bound is the value [(1 + 1) * (w - 1) / 2] of the last column,
    whatever the triangle; whenever they are above [0], the lower [x]
    bound is the value [(0 + 1) * (w - 1) / 2] of the centre column; and
    the same for [y] with the rows.  A triangle with all its coordinates
    strictly between [0] and [1] therefore has all four bounds fixed. *)
Theorem bounding_box_fixed_bounds (a b c : vec4) (w h : Z) :
  ((vx a <? one)%f32 = true -> (vx b <? one)%f32 = true ->
   (vx c <? one)%f32 = true ->
   vy (Colour.bounding_box a b c w h) = ((one + #1) * #(w - 1) / two)%f32)
  /\ ((vy a <? one)%f32 = true -> (vy b <? one)%f32 = true ->
      (vy c <? one)%f32 = true ->
      vw (Colour.bounding_box a b c w h) = ((one + #1) * #(h - 1) / two)%f32)
  /\ ((#0 <? vx a)%f32 = true -> (#0 <? vx b)%f32 = true ->
      (#0 <? vx c)%f32 = true ->
      vx (Colour.bounding_box a b c w h) = ((#0 + #1) * #(w - 1) / two)%f32)
  /\ ((#0 <? vy a)%f32 = true -> (#0 <? vy b)%f32 = true ->
      (#0 <? vy c)%f32 = true ->
      vz (Colour.bounding_box a b c w h) = ((#0 + #1) * #(h - 1) / two)%f32).
Proof.
  unfold Colour.bounding_box. cbn [vx vy vz vw].
  repeat split; intros H1 H2 H3;
    now rewrite ?max_il_below_one, ?min_il_above_zero.
Qed.

Lemma bounding_box_fixed_bounds_witness :
  vy (Colour.bounding_box (Colour.project in_a) (Colour.project in_b)
        (Colour.project in_c) 150 50)
  = ((one + #1) * #(150 - 1) / two)%f32
  /\ vx (Colour.bounding_box (Vec4 half half one one) (Vec4 half half one one)
          (Vec4 half half one one) 150 50)
     = ((#0 + #1) * #(150 - 1) / two)%f32.
Proof.
  split.
  - apply (proj1 (bounding_box_fixed_bounds (Colour.project in_a)
                    (Colour.project in_b) (Colour.project in_c) 150 50));
      vm_compute; reflexivity.
  - apply (proj1 (proj2 (proj2 (bounding_box_fixed_bounds
                    (Vec4 half half one one) (Vec4 half half one one)
                    (Vec4 half half one one) 150 50))));
      vm_compute; reflexivity.
Defined.
